(** * Websitedownloaderpersonal: the Downloader and the Crawler, embedded in Rocq

    A shallow embedding of [src/downloader/downloader.py] and
    [src/downloader/crawler.py].

    - Python [str] values are Rocq strings (one [ascii] per code point,
      which covers the code points below 256).
    - Exceptions are values of [exn]; a call that may raise returns an
      [outcome].
    - The network, the robots.txt of a site and the HTML parser are the
      environment: they are records of functions the code is run against.
    - The file system is a finite map from path strings to the contents of
      the regular files; a directory is there when a file lies below it.
    - Times are IEEE 754 doubles, as in Python; the clocks of the operating
      system count nanoseconds.
    - The crawl is a transition system: the dispatch loop of [Crawler.crawl]
      and every task of the thread pool advance one shared-memory access at a
      time, in the order a schedule prescribes.

    The first part holds the definitions, the second part the lemmas and
    theorems about them. *)

From Stdlib Require Import ZArith Ascii String List Bool Lia.
From Stdlib Require Import Floats.
From stdpp Require Import gmap strings list fin_maps pretty.

Open Scope string_scope.
Open Scope Z_scope.

(* ===================================================================== *)
(** * Part I: definitions                                                 *)
(* ===================================================================== *)

(** ** Exceptions *)

Inductive exn : Type :=
  | ValueError (msg : string)
  | PermissionError (msg : string)
  | RuntimeError (msg : string)
  | RequestException (msg : string)
  | RetryError (msg : string)
  | OSError (msg : string)
  | OtherError (msg : string).

(** [str(exc)] *)
Definition exn_str (e : exn) : string :=
  match e with
  | ValueError m | PermissionError m | RuntimeError m
  | RequestException m | RetryError m | OSError m | OtherError m => m
  end.

Definition is_RequestException (e : exn) : bool :=
  match e with RequestException _ => true | _ => false end.

Inductive outcome (A : Type) : Type :=
  | Ret (a : A)
  | Raise (e : exn).
Arguments Ret {A} a.
Arguments Raise {A} e.

(** The error monad of calls that may raise; [x ← c; k] runs [k] on the value
    of [c] and propagates the exception of [c]. *)
Global Instance outcome_bind : MBind outcome := fun A B f x =>
  match x with
  | Ret a => f a
  | Raise e => Raise e
  end.
Global Instance outcome_ret : MRet outcome := fun A a => Ret a.

(** ** Python strings *)

Module Py.

(** Truthiness of a [str]: [if s:] *)
Definition truthy (s : string) : bool :=
  match s with EmptyString => false | _ => true end.

(** [c in s] for a one-character [c] *)
Fixpoint has_char (c : ascii) (s : string) : bool :=
  match s with
  | EmptyString => false
  | String d r => if Ascii.eqb c d then true else has_char c r
  end.

(** [s.find(c)] *)
Fixpoint find (c : ascii) (s : string) : option nat :=
  match s with
  | EmptyString => None
  | String d r =>
      if Ascii.eqb c d then Some O
      else match find c r with Some i => Some (S i) | None => None end
  end.

(** [s.rfind(c)] *)
Fixpoint rfind (c : ascii) (s : string) : option nat :=
  match s with
  | EmptyString => None
  | String d r =>
      match rfind c r with
      | Some i => Some (S i)
      | None => if Ascii.eqb c d then Some O else None
      end
  end.

(** [s[:n]] and [s[n:]] *)
Fixpoint take (n : nat) (s : string) : string :=
  match n, s with
  | S n', String c r => String c (take n' r)
  | _, _ => EmptyString
  end.

Fixpoint drop (n : nat) (s : string) : string :=
  match n, s with
  | S n', String _ r => drop n' r
  | _, _ => s
  end.

(** [s.find(c, start)] *)
Definition find_from (c : ascii) (start : nat) (s : string) : option nat :=
  match find c (drop start s) with
  | Some i => if (start <=? String.length s)%nat then Some (start + i)%nat else None
  | None => None
  end.

(** [s.replace(a, b)] for one-character [a] and [b] *)
Fixpoint replace_char (a b : ascii) (s : string) : string :=
  match s with
  | EmptyString => EmptyString
  | String c r => String (if Ascii.eqb c a then b else c) (replace_char a b r)
  end.

(** [s.replace(a, "")] *)
Fixpoint remove_char (a : ascii) (s : string) : string :=
  match s with
  | EmptyString => EmptyString
  | String c r => if Ascii.eqb c a then remove_char a r else String c (remove_char a r)
  end.

(** [s.lstrip(chars)], [s.rstrip(chars)], [s.strip(chars)], the characters
    to strip given as a predicate *)
Fixpoint lstrip_by (p : ascii -> bool) (s : string) : string :=
  match s with
  | EmptyString => EmptyString
  | String c r => if p c then lstrip_by p r else s
  end.

Fixpoint rstrip_by (p : ascii -> bool) (s : string) : string :=
  match s with
  | EmptyString => EmptyString
  | String c r =>
      match rstrip_by p r with
      | EmptyString => if p c then EmptyString else String c EmptyString
      | r' => String c r'
      end
  end.

Definition strip_by (p : ascii -> bool) (s : string) : string :=
  rstrip_by p (lstrip_by p s).

Definition is_slash (c : ascii) : bool := Ascii.eqb c "/".

(** [str.isspace] on the code points below 256: the characters that
    [s.strip()] removes *)
Definition isspace (c : ascii) : bool :=
  let n := nat_of_ascii c in
  ((9 <=? n) && (n <=? 13) || (28 <=? n) && (n <=? 32)
   || (n =? 133) || (n =? 160))%nat.

(** [s.strip()] *)
Definition strip (s : string) : string := strip_by isspace s.

(** [s.startswith(p)] *)
Definition startswith (p s : string) : bool := String.prefix p s.

(** [s.endswith(c)] for a one-character [c] *)
Fixpoint endswith_char (c : ascii) (s : string) : bool :=
  match s with
  | EmptyString => false
  | String d EmptyString => Ascii.eqb c d
  | String _ r => endswith_char c r
  end.

(** [s.split(c)] *)
Fixpoint split (c : ascii) (s : string) : list string :=
  match s with
  | EmptyString => [EmptyString]
  | String d r =>
      if Ascii.eqb c d then EmptyString :: split c r
      else match split c r with
           | w :: ws => String d w :: ws
           | [] => [String d EmptyString]
           end
  end.

(** [sep.join(l)] *)
Definition join (sep : string) (l : list string) : string := String.concat sep l.

(** [s.split(c, 1)] when [c in s]: the text before and after the first [c] *)
Definition split_first (c : ascii) (s : string) : string * string :=
  match find c s with
  | Some i => (take i s, drop (S i) s)
  | None => (s, EmptyString)
  end.

Definition isalpha_ascii (c : ascii) : bool :=
  let n := nat_of_ascii c in
  ((65 <=? n) && (n <=? 90) || (97 <=? n) && (n <=? 122))%nat.

Definition isdigit_ascii (c : ascii) : bool :=
  let n := nat_of_ascii c in ((48 <=? n) && (n <=? 57))%nat.

Definition lower_char (c : ascii) : ascii :=
  let n := nat_of_ascii c in
  if ((65 <=? n) && (n <=? 90))%nat then ascii_of_nat (n + 32) else c.

(** [s.lower()] on ASCII letters *)
Fixpoint lower (s : string) : string :=
  match s with
  | EmptyString => EmptyString
  | String c r => String (lower_char c) (lower r)
  end.

Fixpoint forallb_str (p : ascii -> bool) (s : string) : bool :=
  match s with
  | EmptyString => true
  | String c r => p c && forallb_str p r
  end.

(** [x in l] for a list of strings *)
Definition mem (x : string) (l : list string) : bool :=
  existsb (String.eqb x) l.

(** [s.partition(c)] for a one-character [c]: the text before the first
    [c], whether there is one, and the text after it *)
Definition partition (c : ascii) (s : string) : string * bool * string :=
  match find c s with
  | Some i => (take i s, true, drop (S i) s)
  | None => (s, false, EmptyString)
  end.

(** [s.rpartition(c)[2]]: the text after the last [c] *)
Definition after_last (c : ascii) (s : string) : string :=
  match rfind c s with
  | Some i => drop (S i) s
  | None => s
  end.

(** The value of a hexadecimal digit *)
Definition hex_value (c : ascii) : option N :=
  let n := N_of_ascii c in
  if ((48 <=? n) && (n <=? 57))%N then Some (n - 48)%N
  else if ((97 <=? n) && (n <=? 102))%N then Some (n - 87)%N
  else if ((65 <=? n) && (n <=? 70))%N then Some (n - 55)%N
  else None.

Definition is_hex_digit (c : ascii) : bool :=
  match hex_value c with Some _ => true | None => false end.

(** [int(s, base)] for a string of digits of that base; [None] where
    [int] raises ValueError *)
Fixpoint int_digits (base : N) (acc : N) (s : string) : option N :=
  match s with
  | EmptyString => Some acc
  | String c r =>
      match hex_value c with
      | Some v => if (v <? base)%N then int_digits base (acc * base + v)%N r else None
      | None => None
      end
  end.

Definition int_of (base : N) (s : string) : option N :=
  match s with
  | EmptyString => None
  | _ => int_digits base 0 s
  end.

Definition hex_char (v : N) : ascii :=
  if (v <? 10)%N then ascii_of_N (48 + v)%N else ascii_of_N (87 + v)%N.

(** ['%x' % n] for [n < 16 ** 4] *)
Definition hex4 (n : N) : string :=
  let d3 := ((n / 4096) mod 16)%N in
  let d2 := ((n / 256) mod 16)%N in
  let d1 := ((n / 16) mod 16)%N in
  let d0 := (n mod 16)%N in
  if (0 <? d3)%N then String (hex_char d3) (String (hex_char d2)
                        (String (hex_char d1) (String (hex_char d0) EmptyString)))
  else if (0 <? d2)%N then String (hex_char d2)
                        (String (hex_char d1) (String (hex_char d0) EmptyString))
  else if (0 <? d1)%N then String (hex_char d1) (String (hex_char d0) EmptyString)
  else String (hex_char d0) EmptyString.

(** [str.isprintable] on one code point below 256 *)
Definition isprintable (c : ascii) : bool :=
  let n := nat_of_ascii c in
  ((32 <=? n) && (n <=? 126) || (161 <=? n) && negb (n =? 173))%nat.

(** One character of [repr(s)] inside the quote [q] *)
Definition repr_char (q c : ascii) : string :=
  let n := N_of_ascii c in
  if Ascii.eqb c q || Ascii.eqb c "\" then String "\" (String c EmptyString)
  else if (n =? 9)%N then "\t"
  else if (n =? 10)%N then "\n"
  else if (n =? 13)%N then "\r"
  else if isprintable c then String c EmptyString
  else String "\" (String "x" (String (hex_char (n / 16)%N)
                                  (String (hex_char (n mod 16)%N) EmptyString))).

Fixpoint repr_body (q : ascii) (s : string) : string :=
  match s with
  | EmptyString => EmptyString
  | String c r => repr_char q c ++ repr_body q r
  end.

(** [repr(s)]: single quotes, or double quotes when [s] holds a single
    quote and no double quote *)
Definition repr (s : string) : string :=
  let q : ascii := if has_char "'" s && negb (has_char (ascii_of_nat 34) s)
                   then ascii_of_nat 34 else "'"%char in
  String q (repr_body q s ++ String q EmptyString).

End Py.

(** ** ipaddress

    What [urlsplit] asks of the [ipaddress] module: whether a string is an
    IPv4 or an IPv6 address.  The functions follow [_BaseV4] and [_BaseV6] of
    Lib/ipaddress.py on [str] input; [None] and [false] stand for
    AddressValueError. *)

Module IpAddress.

(** [_BaseV4._parse_octet] *)
Definition parse_octet (octet_str : string) : option N :=
  if negb (Py.truthy octet_str) then None
  else if negb (Py.forallb_str Py.isdigit_ascii octet_str) then None
  else if (3 <? String.length octet_str)%nat then None
  else if negb (String.eqb octet_str "0") && Py.startswith "0" octet_str then None
  else match Py.int_of 10 octet_str with
       | Some n => if (255 <? n)%N then None else Some n
       | None => None
       end.

(** [IPv4Address(s)._ip] *)
Definition ipv4 (s : string) : option N :=
  if Py.has_char "/" s then None
  else if negb (Py.truthy s) then None
  else match Py.split "." s with
       | [a; b; c; d] =>
           match parse_octet a, parse_octet b, parse_octet c, parse_octet d with
           | Some a, Some b, Some c, Some d => Some (((a * 256 + b) * 256 + c) * 256 + d)%N
           | _, _, _, _ => None
           end
       | _ => None
       end.

(** [_BaseV6._parse_hextet] *)
Definition parse_hextet (hextet_str : string) : option N :=
  if negb (Py.forallb_str Py.is_hex_digit hextet_str) then None
  else if (4 <? String.length hextet_str)%nat then None
  else Py.int_of 16 hextet_str.

(** [IPv6Address._split_scope_id]: the address without its scope id *)
Definition split_scope_id (ip_str : string) : option string :=
  let '(addr, sep, scope_id) := Py.partition "%" ip_str in
  if negb sep then Some addr
  else if negb (Py.truthy scope_id) || Py.has_char "%" scope_id then None
  else Some addr.

(** The indices [1 <= i < len(parts) - 1] at which [parts[i]] is empty *)
Definition empty_middles (parts : list string) : list nat :=
  List.filter (fun i => negb (Py.truthy (nth i parts EmptyString)))
    (seq 1 (length parts - 2)).

(** [_BaseV6._ip_int_from_string] returns *)
Definition ipv6_parts_valid (parts : list string) : bool :=
  let n := length parts in
  let first := nth 0 parts EmptyString in
  let last := List.last parts EmptyString in
  let hextets (hi lo : nat) : bool :=
    forallb (fun p => match parse_hextet p with Some _ => true | None => false end)
      (firstn hi parts ++ skipn (n - lo) parts)%list in
  match empty_middles parts with
  | [] =>
      (n =? 8)%nat && Py.truthy first && Py.truthy last && hextets n 0%nat
  | [skip_index] =>
      let parts_hi := skip_index in
      let parts_lo := (n - skip_index - 1)%nat in
      let '(parts_hi, ok_hi) :=
        if negb (Py.truthy first) then ((parts_hi - 1)%nat, (parts_hi - 1 =? 0)%nat)
        else (parts_hi, true) in
      let '(parts_lo, ok_lo) :=
        if negb (Py.truthy last) then ((parts_lo - 1)%nat, (parts_lo - 1 =? 0)%nat)
        else (parts_lo, true) in
      ok_hi && ok_lo && (parts_hi + parts_lo <? 8)%nat && hextets parts_hi parts_lo
  | _ => false
  end.

Definition ipv6_str_valid (ip_str : string) : bool :=
  if negb (Py.truthy ip_str) then false
  else
    let parts := Py.split ":" ip_str in
    if (length parts <? 3)%nat then false
    else
      match
        (if Py.has_char "." (List.last parts EmptyString) then
           match ipv4 (List.last parts EmptyString) with
           | Some ipv4_int =>
               Some (removelast parts
                       ++ [Py.hex4 ((ipv4_int / 65536) mod 65536)%N;
                           Py.hex4 (ipv4_int mod 65536)%N])%list
           | None => None
           end
         else Some parts)
      with
      | Some parts => if (9 <? length parts)%nat then false else ipv6_parts_valid parts
      | None => false
      end.

(** [IPv6Address(s)] returns *)
Definition ipv6 (s : string) : bool :=
  if Py.has_char "/" s then false
  else match split_scope_id s with
       | Some addr_str => ipv6_str_valid addr_str
       | None => false
       end.

End IpAddress.

(** ** urllib.parse

    [urlsplit], [urlparse], [urlunparse] and [urljoin] of the Python standard
    library, which the downloader and the crawler call on every URL.  The
    model follows Lib/urllib/parse.py on [str] input.  The NFKC check of a
    non-ASCII host is left out: on the code points below 256 the
    normalisation yields none of the characters it looks for, so the check
    never raises. *)

Module Url.

Record ParseResult : Type := mkParse {
  scheme : string;
  netloc : string;
  path : string;
  params : string;
  query : string;
  fragment : string
}.

Definition uses_relative : list string :=
  [""; "ftp"; "http"; "gopher"; "nntp"; "imap"; "wais"; "file"; "https";
   "shttp"; "mms"; "prospero"; "rtsp"; "rtspu"; "sftp"; "svn"; "svn+ssh";
   "ws"; "wss"].

Definition uses_netloc : list string :=
  [""; "ftp"; "http"; "gopher"; "nntp"; "telnet"; "imap"; "wais"; "file";
   "mms"; "https"; "shttp"; "snews"; "prospero"; "rtsp"; "rtspu"; "rsync";
   "svn"; "svn+ssh"; "sftp"; "nfs"; "git"; "git+ssh"; "ws"; "wss"].

Definition uses_params : list string :=
  [""; "ftp"; "hdl"; "prospero"; "http"; "imap"; "https"; "shttp"; "rtsp";
   "rtspu"; "sip"; "sips"; "mms"; "sftp"; "tel"].

Definition scheme_char (c : ascii) : bool :=
  Py.isalpha_ascii c || Py.isdigit_ascii c
  || Ascii.eqb c "+" || Ascii.eqb c "-" || Ascii.eqb c ".".

(** [_WHATWG_C0_CONTROL_OR_SPACE] *)
Definition c0_or_space (c : ascii) : bool := (nat_of_ascii c <=? 32)%nat.

(** [_UNSAFE_URL_BYTES_TO_REMOVE]: tab, carriage return, newline *)
Definition remove_unsafe (s : string) : string :=
  Py.remove_char (ascii_of_nat 10)
    (Py.remove_char (ascii_of_nat 13) (Py.remove_char (ascii_of_nat 9) s)).

Definition netloc_delim (c : ascii) : bool :=
  Ascii.eqb c "/" || Ascii.eqb c "?" || Ascii.eqb c "#".

(** [_splitnetloc(url, 0)] on the text after the two slashes *)
Fixpoint splitnetloc (s : string) : string * string :=
  match s with
  | EmptyString => (EmptyString, EmptyString)
  | String c r =>
      if netloc_delim c then (EmptyString, s)
      else let '(n, rest) := splitnetloc r in (String c n, rest)
  end.

Record SplitResult : Type := mkSplit {
  s_scheme : string;
  s_netloc : string;
  s_url : string;
  s_query : string;
  s_fragment : string
}.

Definition split_scheme (url scheme : string) : string * string :=
  match Py.find ":" url with
  | Some (S i) =>
      match url with
      | String c _ =>
          if Py.isalpha_ascii c && Py.forallb_str scheme_char (Py.take (S i) url)
          then (Py.lower (Py.take (S i) url), Py.drop (S (S i)) url)
          else (scheme, url)
      | EmptyString => (scheme, url)
      end
  | _ => (scheme, url)
  end.

(** [re.match(r"\Av[a-fA-F0-9]+\..+\Z", hostname)] *)
Fixpoint skip_hex (s : string) : string :=
  match s with
  | String c r => if Py.is_hex_digit c then skip_hex r else s
  | EmptyString => EmptyString
  end.

Definition ipvfuture (hostname : string) : bool :=
  match hostname with
  | String "v" (String c r) =>
      Py.is_hex_digit c &&
      match skip_hex r with
      | String "." (String d rest) =>
          Py.forallb_str (fun x => negb (Ascii.eqb x (ascii_of_nat 10))) (String d rest)
      | _ => false
      end
  | _ => false
  end.

(** [_check_bracketed_host(hostname)] *)
Definition check_bracketed_host (hostname : string) : outcome unit :=
  if Py.startswith "v" hostname then
    if ipvfuture hostname then Ret tt
    else Raise (ValueError "IPvFuture address is invalid")
  else
    match IpAddress.ipv4 hostname with
    | Some _ => Raise (ValueError "An IPv4 address cannot be in brackets")
    | None =>
        if IpAddress.ipv6 hostname then Ret tt
        else Raise (ValueError (Py.repr hostname
                                  ++ " does not appear to be an IPv4 or IPv6 address"))
    end.

(** [_check_bracketed_netloc(netloc)] *)
Definition check_bracketed_netloc (netloc : string) : outcome unit :=
  let hostname_and_port := Py.after_last "@" netloc in
  let '(before_bracket, have_open_br, bracketed) := Py.partition "[" hostname_and_port in
  if have_open_br then
    if Py.truthy before_bracket then Raise (ValueError "Invalid IPv6 URL")
    else
      let '(hostname, _, port) := Py.partition "]" bracketed in
      if Py.truthy port && negb (Py.startswith ":" port)
      then Raise (ValueError "Invalid IPv6 URL")
      else check_bracketed_host hostname
  else
    let '(hostname, _, _) := Py.partition ":" hostname_and_port in
    check_bracketed_host hostname.

Definition urlsplit (url0 scheme0 : string) : outcome SplitResult :=
  let url := remove_unsafe (Py.lstrip_by c0_or_space url0) in
  let scheme := remove_unsafe (Py.strip_by c0_or_space scheme0) in
  let '(scheme, url) := split_scheme url scheme in
  '(netloc, url) ←
     (if Py.startswith "//" url then
        let '(n, rest) := splitnetloc (Py.drop 2 url) in
        if xorb (Py.has_char "[" n) (Py.has_char "]" n)
        then Raise (ValueError "Invalid IPv6 URL")
        else
          _ ← (if Py.has_char "[" n && Py.has_char "]" n
               then check_bracketed_netloc n else Ret tt);
          Ret (n, rest)
      else Ret (EmptyString, url));
  let '(url, fragment) :=
    if Py.has_char "#" url then Py.split_first "#" url else (url, EmptyString) in
  let '(url, query) :=
    if Py.has_char "?" url then Py.split_first "?" url else (url, EmptyString) in
  Ret (mkSplit scheme netloc url query fragment).

Definition splitparams (url : string) : string * string :=
  if Py.has_char "/" url then
    match Py.rfind "/" url with
    | Some j =>
        match Py.find_from ";" j url with
        | Some i => (Py.take i url, Py.drop (S i) url)
        | None => (url, EmptyString)
        end
    | None => (url, EmptyString)
    end
  else Py.split_first ";" url.

Definition urlparse_with (url scheme : string) : outcome ParseResult :=
  sr ← urlsplit url scheme;
  let '(url, params) :=
    if Py.mem (s_scheme sr) uses_params && Py.has_char ";" (s_url sr)
    then splitparams (s_url sr) else (s_url sr, EmptyString) in
  Ret (mkParse (s_scheme sr) (s_netloc sr) url params (s_query sr) (s_fragment sr)).

(** [urllib.parse.urlparse(url)] *)
Definition urlparse (url : string) : outcome ParseResult := urlparse_with url "".

Definition urlunsplit (scheme netloc url query fragment : string) : string :=
  let url :=
    if Py.truthy netloc
       || (Py.truthy scheme && Py.mem scheme uses_netloc
           && negb (Py.startswith "//" url))
    then
      let url := if Py.truthy url && negb (Py.startswith "/" url)
                 then "/" ++ url else url in
      "//" ++ netloc ++ url
    else url in
  let url := if Py.truthy scheme then scheme ++ ":" ++ url else url in
  let url := if Py.truthy query then url ++ "?" ++ query else url in
  if Py.truthy fragment then url ++ "#" ++ fragment else url.

Definition urlunparse (p : ParseResult) : string :=
  let url := if Py.truthy (params p) then path p ++ ";" ++ params p else path p in
  urlunsplit (scheme p) (netloc p) url (query p) (fragment p).

(** [base_parts]: [bpath.split('/')] without a last item that is not a
    directory *)
Definition base_parts (bpath : string) : list string :=
  let parts := Py.split "/" bpath in
  match List.last parts EmptyString with
  | EmptyString => parts
  | _ => removelast parts
  end.

(** [segments[1:-1] = filter(None, segments[1:-1])] *)
Definition filter_middle (segs : list string) : list string :=
  match segs with
  | [] => []
  | [a] => [a]
  | a :: rest =>
      (a :: List.filter Py.truthy (removelast rest) ++ [List.last rest EmptyString])%list
  end.

Fixpoint resolve_segments (segs resolved : list string) : list string :=
  match segs with
  | [] => resolved
  | seg :: rest =>
      if String.eqb seg ".." then resolve_segments rest (removelast resolved)
      else if String.eqb seg "." then resolve_segments rest resolved
      else resolve_segments rest (resolved ++ [seg])%list
  end.

(** [urllib.parse.urljoin(base, url)] *)
Definition urljoin (base url : string) : outcome string :=
  if negb (Py.truthy base) then Ret url
  else if negb (Py.truthy url) then Ret base
  else
    b ← urlparse_with base "";
    u ← urlparse_with url (scheme b);
    if negb (String.eqb (scheme u) (scheme b)) || negb (Py.mem (scheme u) uses_relative)
    then Ret url
    else if Py.mem (scheme u) uses_netloc && Py.truthy (netloc u)
    then Ret (urlunparse u)
    else
      let nl := if Py.mem (scheme u) uses_netloc then netloc b else netloc u in
      if negb (Py.truthy (path u)) && negb (Py.truthy (params u))
      then
        let q := if Py.truthy (query u) then query u else query b in
        Ret (urlunparse (mkParse (scheme u) nl (path b) (params b) q (fragment u)))
      else
        let segments :=
          if Py.startswith "/" (path u) then Py.split "/" (path u)
          else filter_middle (base_parts (path b) ++ Py.split "/" (path u))%list in
        let resolved := resolve_segments segments [] in
        let resolved :=
          let l := List.last segments EmptyString in
          if String.eqb l "." || String.eqb l ".." then (resolved ++ [EmptyString])%list
          else resolved in
        let joined := Py.join "/" resolved in
        let p := if Py.truthy joined then joined else "/" in
        Ret (urlunparse (mkParse (scheme u) nl p (params u) (query u) (fragment u))).

End Url.

(** ** pathlib and os.path (POSIX flavour) *)

Module PathLib.

(** A [PurePosixPath]: the root ([""], ["/"] or ["//"]) and the components
    after it. *)
Record Path : Type := mkPath {
  root : string;
  parts : list string
}.

Definition keep_part (c : string) : bool :=
  Py.truthy c && negb (String.eqb c ".").

Definition parse_root (s : string) : string :=
  if Py.startswith "///" s then "/"
  else if Py.startswith "//" s then "//"
  else if Py.startswith "/" s then "/"
  else "".

(** [Path(s)] *)
Definition of_str (s : string) : Path :=
  mkPath (parse_root s) (List.filter keep_part (Py.split "/" s)).

(** [p / s] *)
Definition div (p : Path) (s : string) : Path :=
  let q := of_str s in
  if Py.truthy (root q) then q
  else mkPath (root p) (parts p ++ parts q)%list.

(** [str(p)] *)
Definition to_str (p : Path) : string :=
  match root p, parts p with
  | EmptyString, [] => "."
  | r, ps => r ++ Py.join "/" ps
  end.

(** [p.name] *)
Definition name (p : Path) : string := List.last (parts p) EmptyString.

(** The suffix of a file name: [name[i:]] for [i = name.rfind('.')] when
    [0 < i < len(name) - 1], else the empty string *)
Definition name_suffix (nm : string) : string :=
  match Py.rfind "." nm with
  | Some (S i) =>
      if (S i <? String.length nm - 1)%nat then Py.drop (S i) nm else EmptyString
  | _ => EmptyString
  end.

(** [p.suffix] *)
Definition suffix (p : Path) : string := name_suffix (name p).

(** [p.with_suffix(suf)] for a valid [suf] such as [".html"] *)
Definition with_suffix (p : Path) (suf : string) : outcome Path :=
  let nm := name p in
  if negb (Py.truthy nm) then Raise (ValueError "path has an empty name")
  else
    let old := suffix p in
    let nm' :=
      if negb (Py.truthy old) then nm ++ suf
      else Py.take (String.length nm - String.length old) nm ++ suf in
    Ret (mkPath (root p) (removelast (parts p) ++ [nm'])%list).

End PathLib.

Module OsPath.

(** [os.path.basename(p)] *)
Definition basename (p : string) : string :=
  match Py.rfind "/" p with
  | Some i => Py.drop (S i) p
  | None => p
  end.

(** [os.path.dirname(p)] *)
Definition dirname (p : string) : string :=
  let head := match Py.rfind "/" p with
              | Some i => Py.take (S i) p
              | None => EmptyString
              end in
  if Py.truthy head && negb (Py.forallb_str Py.is_slash head)
  then Py.rstrip_by Py.is_slash head else head.

(** [os.path.join(a, b)] *)
Definition join2 (a b : string) : string :=
  if Py.startswith "/" b then b
  else if negb (Py.truthy a) || Py.endswith_char "/" a then a ++ b
  else a ++ "/" ++ b.

(** [os.path.join(a, *p)] *)
Definition join (a : string) (p : list string) : string := fold_left join2 p a.

Fixpoint norm_comps (comps new_comps : list string) (rooted : bool) : list string :=
  match comps with
  | [] => new_comps
  | comp :: rest =>
      if negb (Py.truthy comp) || String.eqb comp "." then norm_comps rest new_comps rooted
      else if negb (String.eqb comp "..")
              || (negb rooted && match new_comps with [] => true | _ => false end)
              || String.eqb (List.last new_comps EmptyString) ".."
      then norm_comps rest (new_comps ++ [comp])%list rooted
      else norm_comps rest (removelast new_comps) rooted
  end.

(** [os.path.normpath(path)] *)
Definition normpath (path : string) : string :=
  if negb (Py.truthy path) then "."
  else
    let r := PathLib.parse_root path in
    let comps := norm_comps (Py.split "/" path) [] (Py.truthy r) in
    let p := r ++ Py.join "/" comps in
    if Py.truthy p then p else ".".

(** [os.path.abspath(path)] in the working directory [cwd] *)
Definition abspath (cwd path : string) : string := normpath (join2 cwd path).

Fixpoint strip_common (a b : list string) : list string * list string :=
  match a, b with
  | x :: a', y :: b' => if String.eqb x y then strip_common a' b' else (a, b)
  | _, _ => (a, b)
  end.

(** [os.path.relpath(path, start)] in the working directory [cwd] *)
Definition relpath (cwd path start : string) : string :=
  let start_list := List.filter Py.truthy (Py.split "/" (abspath cwd start)) in
  let path_list := List.filter Py.truthy (Py.split "/" (abspath cwd path)) in
  let '(s_rest, p_rest) := strip_common start_list path_list in
  let rel_list := (List.map (fun _ => "..") s_rest ++ p_rest)%list in
  match rel_list with
  | [] => "."
  | x :: xs => join x xs
  end.

End OsPath.

(** ** The disk

    The regular files of the disk, keyed by their paths as the program
    spells them.  A directory is there when a file lies below it: the disk
    holds no empty directory at the start, and the program leaves none, for
    it makes a directory only to write a file into it.  Paths are compared
    as they are spelled: a [..] inside a path is not resolved, and there are
    no links. *)

Module Disk.

Definition is_file (disk : gmap string string) (p : string) : bool :=
  bool_decide (is_Some (disk !! p)).

(** [p] names a directory: without the slashes at its end it is the root,
    the working directory, the parent of a directory, or a path some file
    lies below *)
Definition is_dir (disk : gmap string string) (p : string) : bool :=
  let q := Py.rstrip_by Py.is_slash p in
  Py.truthy p &&
  (negb (Py.truthy q) || String.eqb q "."
   || String.eqb (OsPath.basename q) ".."
   || existsb (fun kv => Py.startswith (q ++ "/") (fst kv)) (map_to_list disk)).

(** [os.path.exists(p)] *)
Definition path_exists (disk : gmap string string) (p : string) : bool :=
  Py.truthy p && (is_file disk p || is_dir disk p).

(** The proper ancestors of [p], the parent last: [p] cut before each of
    its slashes but a leading one *)
Definition ancestors (p : string) : list string :=
  flat_map (fun i =>
    match String.get i p with
    | Some c => if Py.is_slash c then [Py.take i p] else []
    | None => []
    end) (seq 1 (String.length p - 1)).

(** The exception of [p.parent.mkdir(parents=True, exist_ok=True)] followed
    by the opening of [p] for writing: a file in the place of the parent, a
    file in the place of a directory above it, or a directory in the place
    of [p].  The three are subclasses of OSError. *)
Definition write_error (disk : gmap string string) (p : string) : option exn :=
  let parent := List.last (ancestors p) EmptyString in
  if existsb (is_file disk) (ancestors p) then
    if is_file disk parent
    then Some (OSError ("[Errno 17] File exists: " ++ Py.repr parent))
    else Some (OSError ("[Errno 20] Not a directory: " ++ Py.repr parent))
  else if is_dir disk p
  then Some (OSError ("[Errno 21] Is a directory: " ++ Py.repr p))
  else None.

(** [open(p, 'rb').read()] where [os.path.exists(p)] holds *)
Definition read_bytes (disk : gmap string string) (p : string) : outcome string :=
  match disk !! p with
  | Some content => Ret content
  | None => Raise (OSError ("[Errno 21] Is a directory: " ++ Py.repr p))
  end.

End Disk.

(** ** urllib.robotparser

    The parser object of the standard library: its flags, the time of the
    last successful read (0 before any) and the rules read.  The rules are
    kept as the decision they give for a user agent and a URL; before any
    read there is no rule, which decides "allowed". *)

Module Robots.

Record RobotFileParser : Type := mkParser {
  url : string;
  disallow_all : bool;
  allow_all : bool;
  last_checked : Z;
  rules : string -> string -> bool
}.

(** [RobotFileParser()] followed by [set_url(url)] *)
Definition new (u : string) : RobotFileParser :=
  mkParser u false false 0 (fun _ _ => true).

(** What [urllib.request.urlopen(robots_url)] and the decoding of its body
    do. *)
Inductive response : Type :=
  | HTTPError (code : Z)
      (** the server answers with an error status *)
  | Fails (e : exn)
      (** no answer: URLError, timeout, reset connection *)
  | Undecodable
      (** the body is not UTF-8: [raw.decode] raises *)
  | Served (policy : string -> string -> bool)
      (** the body is read and [parse] stores its rules *).

(** [parser.read()], at time [now] *)
Definition read (resp : response) (now : Z) (p : RobotFileParser)
  : outcome unit * RobotFileParser :=
  match resp with
  | HTTPError code =>
      if (code =? 401) || (code =? 403)
      then (Ret tt, mkParser (url p) true (allow_all p) (last_checked p) (rules p))
      else if (400 <=? code) && (code <? 500)
      then (Ret tt, mkParser (url p) (disallow_all p) true (last_checked p) (rules p))
      else (Ret tt, p)
  | Fails e => (Raise e, p)
  | Undecodable => (Raise (ValueError "UnicodeDecodeError"), p)
  | Served policy =>
      (Ret tt, mkParser (url p) (disallow_all p) (allow_all p) now policy)
  end.

(** [parser.can_fetch(useragent, url)] *)
Definition can_fetch (p : RobotFileParser) (useragent u : string) : bool :=
  if disallow_all p then false
  else if allow_all p then true
  else if last_checked p =? 0 then false
  else rules p useragent u.

End Robots.

(** ** The markup tree

    What the code asks of a parsed page: the tags in document order, each
    with its name and the three attributes the code reads ([src], [href] and
    the multi-valued [rel]). *)

Record Tag : Type := mkTag {
  tag_name : string;
  tag_src : option string;
  tag_href : option string;
  tag_rel : option (list string)
}.

(** [tag.get(attr)] is truthy *)
Definition attr_truthy (a : option string) : bool :=
  match a with Some s => Py.truthy s | None => false end.

(** [tag.get("rel") and "stylesheet" in tag.get("rel")] *)
Definition rel_stylesheet (t : Tag) : bool :=
  match tag_rel t with
  | Some l => match l with [] => false | _ => Py.mem "stylesheet" l end
  | None => false
  end.

(** ** The Downloader *)

Module Downloader.

(** Durations handed to [time.sleep] *)
Inductive duration : Type :=
  | Seconds (n : Z)
  | RateLimit  (** the [rate_limit] of the downloader, a float *).

(** The observable actions of a downloader, in the order they happen *)
Inductive io : Type :=
  | IoRobots (robots_url : string)
  | IoGet (url ua : string)
  | IoSleep (d : duration)
  | IoRender (url : string)
  | IoWrite (path content : string).

(** What [session.get(url)] does: it raises, or it returns a response
    with its [status_code], [reason], [url], [text] and the chunks of
    [iter_content] *)
Inductive response : Type :=
  | GetRaises (e : exn)
  | Response (status : Z) (reason : string) (url : string)
             (text : string) (chunks : list string).

(** The world outside the program.  An answer may depend on everything
    that happened before it. *)
Record Env : Type := mkEnv {
  robots_open : list io -> string -> Robots.response;
  robots_now : Z;
  http_get : list io -> string -> response;
  render : list io -> string -> outcome string;
  parse_html : string -> list Tag;
  render_html : list Tag -> string;
  decode_utf8 : string -> outcome string;
  cwd : string
}.

(** The fields of a [Downloader] object that [fetch] reads *)
Record t : Type := mkDownloader {
  output_dir : PathLib.Path;
  user_agent : string;
  respect_robots : bool
}.

Definition default_user_agent : string :=
  "Mozilla/5.0 (Windows NT 10.0; Win64; x64) AppleWebKit/537.36 (KHTML, like Gecko) Chrome/91.0.4472.124 Safari/537.36".

(** [Downloader(output_dir=..., user_agent=..., respect_robots=...)] *)
Definition new (dir : string) (ua : option string) (robots : bool) : t :=
  mkDownloader (PathLib.of_str dir)
    (match ua with
     | Some u => if Py.truthy u then u else default_user_agent
     | None => default_user_agent
     end)
    robots.

(** The state [fetch] changes: the files on disk, the [User-Agent] header of
    the session, and the trace of actions. *)
Record World : Type := mkWorld {
  fs : gmap string string;
  session_ua : string;
  trace : list io
}.

Definition IO (A : Type) : Type := World -> outcome A * World.

Definition io_ret {A} (a : A) : IO A := fun w => (Ret a, w).
Definition io_raise {A} (e : exn) : IO A := fun w => (Raise e, w).
Definition io_bind {A B} (c : IO A) (k : A -> IO B) : IO B :=
  fun w => match c w with
           | (Ret a, w') => k a w'
           | (Raise e, w') => (Raise e, w')
           end.
(** [try: c  except Exception as e: h e] *)
Definition io_try {A} (c : IO A) (h : exn -> IO A) : IO A :=
  fun w => match c w with
           | (Ret a, w') => (Ret a, w')
           | (Raise e, w') => h e w'
           end.
Definition io_lift {A} (o : outcome A) : IO A := fun w => (o, w).

Global Instance io_mbind : MBind IO := fun A B k c => io_bind c k.
Global Instance io_mret : MRet IO := fun A a => io_ret a.

Definition emit (e : io) : IO unit :=
  fun w => (Ret tt, mkWorld (fs w) (session_ua w) (trace w ++ [e])%list).
Definition sleep (d : duration) : IO unit := emit (IoSleep d).
Definition set_ua (ua : string) : IO unit :=
  fun w => (Ret tt, mkWorld (fs w) ua (trace w)).
(** [path.parent.mkdir(parents=True, exist_ok=True)] followed by
    [path.write_text(content)] or by [open(path, "wb")] and the writes of
    [content] *)
Definition write_file (p content : string) : IO unit :=
  fun w =>
    match Disk.write_error (fs w) p with
    | Some e => (Raise e, w)
    | None => (Ret tt, mkWorld (<[p := content]> (fs w)) (session_ua w)
                               (trace w ++ [IoWrite p content])%list)
    end.

Section WithEnv.
Context (E : Env) (d : t).

(** [_get_robots_parser(root)] *)
Definition _get_robots_parser (root : string) : IO Robots.RobotFileParser :=
  robots_url ← io_lift (Url.urljoin root "/robots.txt");
  ((fun w =>
      let parser := Robots.new robots_url in
      let resp := robots_open E (trace w) robots_url in
      let w' := mkWorld (fs w) (session_ua w) (trace w ++ [IoRobots robots_url])%list in
      (* try: parser.read()  except Exception: log *)
      (Ret (snd (Robots.read resp (robots_now E) parser)), w'))
   : IO Robots.RobotFileParser).

(** [allowed_by_robots(url)] *)
Definition allowed_by_robots (url : string) : IO bool :=
  if negb (respect_robots d) then io_ret true
  else
    parsed ← io_lift (Url.urlparse url);
    let root := Url.scheme parsed ++ "://" ++ Url.netloc parsed in
    parser ← _get_robots_parser root;
    io_ret (Robots.can_fetch parser (user_agent d) url).

Definition user_agents : list string :=
  ["Mozilla/5.0 (Windows NT 10.0; Win64; x64) AppleWebKit/537.36 (KHTML, like Gecko) Chrome/120.0.0.0 Safari/537.36";
   "Mozilla/5.0 (Macintosh; Intel Mac OS X 10_15_7) AppleWebKit/537.36 (KHTML, like Gecko) Chrome/120.0.0.0 Safari/537.36";
   "Mozilla/5.0 (X11; Linux x86_64) AppleWebKit/537.36 (KHTML, like Gecko) Chrome/120.0.0.0 Safari/537.36";
   "Mozilla/5.0 (Windows NT 10.0; Win64; x64; rv:121.0) Gecko/20100101 Firefox/121.0"].

(** [r.raise_for_status()] on what [session.get] did: the text and the
    chunks of the body, or the exception of the transport or of the
    status check.  [HTTPError] is a [RequestException]; its message is the
    one [requests] builds. *)
Definition checked (resp : response) : outcome (string * list string) :=
  match resp with
  | GetRaises e => Raise e
  | Response status reason url text chunks =>
      if (400 <=? status) && (status <? 500)
      then Raise (RequestException
                    (pretty status ++ " Client Error: " ++ reason ++ " for url: " ++ url))
      else if (500 <=? status) && (status <? 600)
      then Raise (RequestException
                    (pretty status ++ " Server Error: " ++ reason ++ " for url: " ++ url))
      else Ret (text, chunks)
  end.

(** [r = session.get(url); r.raise_for_status()] *)
Definition get_checked (url : string) : IO (string * list string) :=
  fun w =>
    (checked (http_get E (trace w) url),
     mkWorld (fs w) (session_ua w) (trace w ++ [IoGet url (session_ua w)])%list).

(** [min(2 ** attempt, 16)] *)
Definition backoff (attempt : nat) : Z := Z.min (2 ^ Z.of_nat attempt) 16.

(** The loop [for attempt in range(8)] of the static branch of [fetch],
    over the attempts that remain; its [else] clause is the empty list. *)
Fixpoint static_loop (url : string) (attempts : list nat) : IO string :=
  match attempts with
  | [] => io_raise (RuntimeError "Failed to download after 8 attempts")
  | attempt :: rest =>
      let ua := nth (attempt mod 4) user_agents EmptyString in
      _ ← set_ua ua;
      io_try (r ← get_checked url; io_ret (fst r))
        (fun e =>
           if is_RequestException e then
             if (attempt =? 7)%nat then io_raise e
             else (_ ← sleep (Seconds (backoff attempt)); static_loop url rest)
           else io_raise e)
  end.

Definition fetch_static (url : string) : IO string :=
  static_loop url (seq 0 8).

(** The Playwright branch: the rendered page, or the failure of the
    browser *)
Definition fetch_rendered (url : string) : IO string :=
  fun w =>
    (render E (trace w) url,
     mkWorld (fs w) (session_ua w) (trace w ++ [IoRender url])%list).

(** [safe_path = parsed.path.strip("/") or "index"] *)
Definition safe_path_of (p : Url.ParseResult) : string :=
  let s := Py.strip_by Py.is_slash (Url.path p) in
  if Py.truthy s then s else "index".

(** [safe_host = parsed.netloc.replace(":", "_")] *)
Definition safe_host_of (p : Url.ParseResult) : string :=
  Py.replace_char ":" "_" (Url.netloc p).

(** The name given to [output_dir / ...] when no filename is passed *)
Definition derived_name (p : Url.ParseResult) : string :=
  let safe_host := safe_host_of p in
  let safe_path := safe_path_of p in
  if Py.has_char "." safe_path
  then safe_host ++ "_" ++ safe_path
  else safe_host ++ "_" ++ safe_path ++ ".html".

(** The file [fetch] saves the page to (the block "save main HTML") *)
Definition page_filename (url custom_filename : string) : outcome PathLib.Path :=
  filename ←
    (if Py.truthy custom_filename then
       let filename := PathLib.div (output_dir d) custom_filename in
       if negb (Py.truthy (PathLib.suffix filename))
       then PathLib.with_suffix filename ".html"
       else Ret filename
     else
       parsed ← Url.urlparse url;
       Ret (PathLib.div (output_dir d) (derived_name parsed)));
  Ret (PathLib.of_str (PathLib.to_str filename)).

(** The candidates of [_parse_assets] and of [export_warc], in document
    order *)
Definition asset_refs (soup : list Tag) : list string :=
  flat_map (fun tag =>
    if String.eqb (tag_name tag) "img" then
      (if attr_truthy (tag_src tag) then [default EmptyString (tag_src tag)] else [])
    else if String.eqb (tag_name tag) "script" then
      (if attr_truthy (tag_src tag) then [default EmptyString (tag_src tag)] else [])
    else if String.eqb (tag_name tag) "link" then
      (if attr_truthy (tag_href tag) && rel_stylesheet tag
       then [default EmptyString (tag_href tag)] else [])
    else []) soup.

Fixpoint map_outcome {A B} (f : A -> outcome B) (l : list A) : outcome (list B) :=
  match l with
  | [] => Ret []
  | a :: r => b ← f a; bs ← map_outcome f r; Ret (b :: bs)
  end.

(** The loop that drops the URLs already [seen] *)
Fixpoint dedup (seen : list string) (l : list string) : list string :=
  match l with
  | [] => []
  | u :: r => if Py.mem u seen then dedup seen r else u :: dedup (u :: seen) r
  end.

(** [_parse_assets(html, base_url)] *)
Definition _parse_assets (html base_url : string) : outcome (list string) :=
  let candidates := asset_refs (parse_html E html) in
  resolved ← map_outcome (Url.urljoin base_url) candidates;
  base_origin ← Url.urlparse base_url;
  Ret (dedup [] resolved).

(** [wait_exponential(multiplier=1, min=1, max=8)] after attempt [n]
    (counted from 1) *)
Definition retry_wait (n : nat) : Z := Z.max 1 (Z.min (2 ^ Z.of_nat (n - 1)) 8).

(** [_get_stream] under [@retry(stop_after_attempt(3), ...)], at attempt
    [n] with [left] attempts after it *)
Fixpoint get_stream (url : string) (n left : nat) : IO (list string) :=
  io_try (r ← get_checked url; io_ret (snd r))
    (fun e =>
       if is_RequestException e then
         match left with
         | O => io_raise (RetryError (exn_str e))
         | S left' => _ ← sleep (Seconds (retry_wait n)); get_stream url (S n) left'
         end
       else io_raise e).

(** The bytes the streaming loop writes: the chunks before the first
    empty one *)
Fixpoint streamed (chunks : list string) : string :=
  match chunks with
  | [] => EmptyString
  | c :: r => if Py.truthy c then c ++ streamed r else EmptyString
  end.

(** [_download_asset(url)] *)
Definition _download_asset (url : string) : IO (option PathLib.Path) :=
  allowed ← allowed_by_robots url;
  if negb allowed then io_ret None
  else
    chunks ← get_stream url 1 2;
    parsed ← io_lift (Url.urlparse url);
    let safe_host := safe_host_of parsed in
    let out_dir := PathLib.div (PathLib.div (output_dir d) "assets") safe_host in
    let filename :=
      let b := OsPath.basename (Url.path parsed) in
      if Py.truthy b then b else "unnamed" in
    let target := PathLib.div out_dir filename in
    _ ← write_file (PathLib.to_str target) (streamed chunks);
    io_ret (Some target).

Definition set_attr (src_attr : bool) (tag : Tag) (v : string) : Tag :=
  if src_attr
  then mkTag (tag_name tag) (Some v) (tag_href tag) (tag_rel tag)
  else mkTag (tag_name tag) (tag_src tag) (Some v) (tag_rel tag).

(** [save_and_replace(attr, tag, orig_url)]; [src_attr] tells whether
    [attr] is ["src"] or ["href"] *)
Definition save_and_replace (base_url : string) (src_attr : bool) (tag : Tag)
    (orig_url : string) : IO Tag :=
  io_try
    (full ← io_lift (Url.urljoin base_url orig_url);
     local ← _download_asset full;
     match local with
     | Some l =>
         let rel := OsPath.relpath (cwd E) (PathLib.to_str l)
                      (PathLib.to_str (output_dir d)) in
         io_ret (set_attr src_attr tag (Py.replace_char "\" "/" rel))
     | None => io_ret tag
     end)
    (fun _ => io_ret tag).

(** One of the three loops of [_rewrite_assets_and_save] over the tree:
    the tags [pick] selects are handed to [save_and_replace]. *)
Fixpoint rewrite_pass (base_url : string) (pick : Tag -> option (bool * string))
    (soup : list Tag) : IO (list Tag) :=
  match soup with
  | [] => io_ret []
  | tag :: rest =>
      tag' ← match pick tag with
             | Some (src_attr, u) => save_and_replace base_url src_attr tag u
             | None => io_ret tag
             end;
      rest' ← rewrite_pass base_url pick rest;
      io_ret (tag' :: rest')
  end.

Definition pick_img (tag : Tag) : option (bool * string) :=
  if String.eqb (tag_name tag) "img" && attr_truthy (tag_src tag)
  then Some (true, default EmptyString (tag_src tag)) else None.
Definition pick_script (tag : Tag) : option (bool * string) :=
  if String.eqb (tag_name tag) "script" && attr_truthy (tag_src tag)
  then Some (true, default EmptyString (tag_src tag)) else None.
Definition pick_link (tag : Tag) : option (bool * string) :=
  if String.eqb (tag_name tag) "link" && attr_truthy (tag_href tag)
     && Py.mem "stylesheet" (default [] (tag_rel tag))
  then Some (false, default EmptyString (tag_href tag)) else None.

(** [_rewrite_assets_and_save(html, base_url, assets)]: the rewritten
    markup, as a string *)
Definition _rewrite_assets_and_save (html base_url : string) (assets : list string)
  : IO string :=
  let soup := parse_html E html in
  soup ← rewrite_pass base_url pick_img soup;
  soup ← rewrite_pass base_url pick_script soup;
  soup ← rewrite_pass base_url pick_link soup;
  io_ret (render_html E soup).

(** The loop of [fetch] over the assets when the markup is not rewritten *)
Fixpoint download_all (assets : list string) : IO unit :=
  match assets with
  | [] => io_ret tt
  | a :: rest =>
      _ ← io_try (_ ← _download_asset a; sleep RateLimit) (fun _ => io_ret tt);
      download_all rest
  end.

(** [fetch(url, render_js, save_assets, rewrite_assets, custom_filename)]
    without a progress callback.  The value paired with the file name is
    the final value of the local variable [content]. *)
Definition fetch_full (url : string) (render_js save_assets rewrite_assets : bool)
    (custom_filename : string) : IO (PathLib.Path * string) :=
  allowed ← allowed_by_robots url;
  if negb allowed then io_raise (PermissionError "Fetching disallowed by robots.txt")
  else
    content ← (if render_js then fetch_rendered url else fetch_static url);
    filename ← io_lift (page_filename url custom_filename);
    _ ← write_file (PathLib.to_str filename) content;
    content ←
      (if save_assets then
         assets ← io_lift (_parse_assets content url);
         if rewrite_assets then _rewrite_assets_and_save content url assets
         else (_ ← download_all assets; io_ret content)
       else io_ret content);
    io_ret (filename, content).

Definition fetch (url : string) (render_js save_assets rewrite_assets : bool)
    (custom_filename : string) : IO PathLib.Path :=
  r ← fetch_full url render_js save_assets rewrite_assets custom_filename;
  io_ret (fst r).

End WithEnv.

End Downloader.

(** ** time

    The two clocks of the operating system, both in nanoseconds: the
    real-time clock, which [time.time()] reads and which can be set, and the
    monotonic clock, against which [time.sleep] waits.  The conversions
    follow Python/pytime.c. *)

Module Time.

(** [(double)z]: the double nearest to the integer [z], ties to even *)
Definition double_of_int (z : Z) : float :=
  SF2Prim (binary_normalize FloatOps.prec FloatOps.emax z 0 false).

(** [_PyTime_AsSecondsDouble(t)]: what [time.time()] returns when the
    real-time clock reads [t] *)
Definition as_seconds (t : Z) : float :=
  if Z.rem t 1000000000 =? 0 then double_of_int (Z.quot t 1000000000)
  else PrimFloat.div (double_of_int t) 1e9%float.

(** [pytime_round(d, _PyTime_ROUND_UP)]: the integer away from zero;
    [None] for an infinity or a NaN *)
Definition round_up (d : float) : option Z :=
  match Prim2SF d with
  | S754_zero _ => Some 0
  | S754_finite s m e =>
      let v := if 0 <=? e then Z.pos m * 2 ^ e
               else Z.pos m / 2 ^ (- e)
                    + (if Z.pos m mod 2 ^ (- e) =? 0 then 0 else 1) in
      Some (if s then - v else v)
  | _ => None
  end.

(** The nanoseconds [time.sleep(secs)] waits for at least:
    [_PyTime_FromSecondsObject] with [_PyTime_ROUND_TIMEOUT], and the test
    of [time_sleep].  An OverflowError is an [OtherError]. *)
Definition sleep_timeout (secs : float) : outcome Z :=
  if PrimFloat.is_nan secs then Raise (ValueError "Invalid value NaN (not a number)")
  else
    match round_up (PrimFloat.mul secs 1e9%float) with
    | Some ns =>
        if (- 2 ^ 63 <=? ns) && (ns <? 2 ^ 63)
        then if ns <? 0 then Raise (ValueError "sleep length must be non-negative")
             else Ret ns
        else Raise (OtherError "timestamp too large to convert to C _PyTime_t")
    | None => Raise (OtherError "timestamp too large to convert to C _PyTime_t")
    end.

End Time.


(** ** The Crawler *)

Module Crawler.

Record CrawlResult : Type := mkResult {
  url : string;
  saved_path : option string;
  error : option string
}.

(** The fields of a [Crawler] object set by [__init__].  A compiled pattern
    is kept as its [search]; [per_host_delay] is a float (an [int] given for
    it acts as the float of the same value). *)
Record t : Type := mkCrawler {
  output_dir : string;
  user_agent : option string;
  max_depth : Z;
  max_pages : Z;
  same_domain : bool;
  concurrency : Z;
  per_host_delay : float;
  respect_robots : bool;
  include_patterns : list (string -> bool);
  exclude_patterns : list (string -> bool)
}.

(** Where a call of [worker(url, depth)] stands. *)
Inductive pc : Type :=
  | WQueued                       (** submitted, no thread runs it yet *)
  | WCheckPages                   (** at [if len(self._results) >= self.max_pages] *)
  | WCheckVisited                 (** at [if url in self._visited] *)
  | WReserve                      (** at [with self._lock: self._visited.add(url)] *)
  | WDomain                       (** at the host comparison *)
  | WRobots                       (** at the robots check *)
  | WWait                         (** at the [with self._lock] of [_wait_for_host] *)
  | WSleeping (deadline : Z)      (** in the [time.sleep] of [_wait_for_host], lock held *)
  | WFetch                        (** at [downloader.fetch] *)
  | WDiscover (saved : string)    (** at the reading of the saved page *)
  | WLinksLock (links : list string) (** at the [with self._lock] before the loop *)
  | WLinks (links : list string)  (** in the loop over the links, lock held *)
  | WDone.                        (** returned, or ended by an exception *)

Record Task : Type := mkTask {
  t_url : string;
  t_depth : Z;
  t_pc : pc
}.

Inductive main_pc : Type :=
  | MLoop       (** in the [while] loop that submits the jobs *)
  | MJoin       (** waiting for the futures *)
  | MReturned.  (** [crawl] has returned [self._results] *)

(** The state of a crawl: the fields of the object ([_visited], [_lock],
    [_host_last], [_results]), the local [queue], the futures, the real-time
    clock, the monotonic clock (counted from the start of the crawl), the
    disk and the trace of the downloaders, and the URLs handed to
    [downloader.fetch] so far. *)
Record State : Type := mkState {
  visited : gset string;
  lock : option nat;
  host_last : gmap string float;
  results : list CrawlResult;
  queue : list (string * Z);
  tasks : list Task;
  main : main_pc;
  clock : Z;
  mono : Z;
  files : gmap string string;
  trace : list Downloader.io;
  fetch_calls : list string
}.

Inductive event : Type :=
  | Main              (** the thread that called [crawl] moves *)
  | Work (i : nat)    (** the task of the [i]-th future moves *)
  | Tick (dt : Z)     (** [dt] nanoseconds pass *)
  | Adjust (d : Z).   (** the real-time clock is set: it moves by [d] *)

Definition is_queued (t : Task) : bool :=
  match t_pc t with WQueued => true | _ => false end.
Definition is_done (t : Task) : bool :=
  match t_pc t with WDone => true | _ => false end.
Definition is_running (t : Task) : bool := negb (is_queued t) && negb (is_done t).

Section Crawl.
Context (c : t) (E : Downloader.Env).
(** The arguments [render_js], [save_assets] and [rewrite_assets] of
    [crawl], which are handed on to every [fetch] *)
Context (render_js save_assets rewrite_assets : bool).

(** The seed as [crawl] rewrites it before anything else *)
Definition normalize_start (start_url : string) : string :=
  let s := Py.strip start_url in
  if negb (Py.startswith "http://" s) && negb (Py.startswith "https://" s)
  then "https://" ++ s else s.

(** [urllib.parse.urlparse(url).netloc] *)
Definition host_of (u : string) : outcome string :=
  p ← Url.urlparse u; Ret (Url.netloc p).

Definition set_pc (i : nat) (p : pc) (st : State) : State :=
  mkState (visited st) (lock st) (host_last st) (results st) (queue st)
    (alter (fun t => mkTask (t_url t) (t_depth t) p) i (tasks st))
    (main st) (clock st) (mono st) (files st) (trace st) (fetch_calls st).

Definition set_lock (l : option nat) (st : State) : State :=
  mkState (visited st) l (host_last st) (results st) (queue st) (tasks st)
    (main st) (clock st) (mono st) (files st) (trace st) (fetch_calls st).

(** [self._results.append(r)] *)
Definition append_result (r : CrawlResult) (st : State) : State :=
  mkState (visited st) (lock st) (host_last st) (results st ++ [r])%list (queue st)
    (tasks st) (main st) (clock st) (mono st) (files st) (trace st) (fetch_calls st).

(** [self._visited.add(u)] *)
Definition add_visited (u : string) (st : State) : State :=
  mkState ({[u]} ∪ visited st) (lock st) (host_last st) (results st) (queue st)
    (tasks st) (main st) (clock st) (mono st) (files st) (trace st) (fetch_calls st).

(** [time.time()] *)
Definition time_time (st : State) : float := Time.as_seconds (clock st).

(** [self._host_last[host] = now] *)
Definition stamp_host (host : string) (now : float) (st : State) : State :=
  mkState (visited st) (lock st) (<[host := now]> (host_last st)) (results st)
    (queue st) (tasks st) (main st) (clock st) (mono st) (files st) (trace st) (fetch_calls st).

Definition set_queue (q : list (string * Z)) (st : State) : State :=
  mkState (visited st) (lock st) (host_last st) (results st) q (tasks st)
    (main st) (clock st) (mono st) (files st) (trace st) (fetch_calls st).

Definition set_disk (w : Downloader.World) (st : State) : State :=
  mkState (visited st) (lock st) (host_last st) (results st) (queue st) (tasks st)
    (main st) (clock st) (mono st) (Downloader.fs w) (Downloader.trace w) (fetch_calls st).

Definition log_fetch (u : string) (st : State) : State :=
  mkState (visited st) (lock st) (host_last st) (results st) (queue st) (tasks st)
    (main st) (clock st) (mono st) (files st) (trace st) (fetch_calls st ++ [u])%list.

(** The world a freshly built downloader [d] acts on *)
Definition world_of (d : Downloader.t) (st : State) : Downloader.World :=
  Downloader.mkWorld (files st) (Downloader.user_agent d) (trace st).

(** The anchors [_discover_links] keeps, before they are resolved *)
Definition hrefs (soup : list Tag) : list string :=
  flat_map (fun a =>
    if String.eqb (tag_name a) "a" && attr_truthy (tag_href a) then
      let href := default EmptyString (tag_href a) in
      if Py.startswith "javascript:" href || Py.startswith "mailto:" href
      then [] else [href]
    else []) soup.

(** [_discover_links(html, base_url)] *)
Definition _discover_links (html base_url : string) : outcome (list string) :=
  Downloader.map_outcome (Url.urljoin base_url) (hrefs (Downloader.parse_html E html)).

(** [open(saved, encoding='utf-8').read()], or [''] on any exception *)
Definition read_saved (saved : string) (st : State) : string :=
  match files st !! saved with
  | Some raw => match Downloader.decode_utf8 E raw with
                | Ret html => html
                | Raise _ => EmptyString
                end
  | None => EmptyString
  end.

(** The filters and the test of one iteration of the loop over the links *)
Definition accepts_link (l : string) (depth : Z) (st : State) : bool :=
  negb (match include_patterns c with [] => false | _ => true end
        && negb (existsb (fun p => p l) (include_patterns c)))
  && negb (existsb (fun p => p l) (exclude_patterns c))
  && negb (bool_decide (l ∈ visited st))
  && (Z.of_nat (size (visited st)) + Z.of_nat (length (queue st)) <? max_pages c).

(** One step of the task behind the [i]-th future, which runs
    [worker(url, depth)]; [None] when the task cannot move. *)
Definition work_step (start_host : string) (i : nat) (tk : Task) (st : State)
  : option State :=
  let u := t_url tk in
  let depth := t_depth tk in
  match t_pc tk with
  | WQueued =>
      (* a thread of the pool takes the oldest pending work item *)
      if (Z.of_nat (length (List.filter is_running (tasks st))) <? concurrency c)
         && forallb (fun t => negb (is_queued t)) (take i (tasks st))
      then Some (set_pc i WCheckPages st) else None
  | WCheckPages =>
      if Z.of_nat (length (results st)) >=? max_pages c
      then Some (set_pc i WDone st)
      else Some (set_pc i WCheckVisited st)
  | WCheckVisited =>
      if bool_decide (u ∈ visited st)
      then Some (set_pc i WDone st)
      else Some (set_pc i WReserve st)
  | WReserve =>
      match lock st with
      | None => Some (set_pc i WDomain (add_visited u st))
      | Some _ => None
      end
  | WDomain =>
      match host_of u with
      | Raise _ => Some (set_pc i WDone st)
      | Ret host =>
          if same_domain c && negb (String.eqb host start_host)
          then Some (set_pc i WDone st)
          else Some (set_pc i WRobots st)
      end
  | WRobots =>
      if respect_robots c then
        let dtmp := Downloader.new (output_dir c) (user_agent c) true in
        let '(r, w) := Downloader.allowed_by_robots E dtmp u (world_of dtmp st) in
        let st := set_disk w st in
        match r with
        | Raise _ => Some (set_pc i WDone st)
        | Ret false =>
            Some (set_pc i WDone
                    (append_result (mkResult u None (Some "Disallowed by robots.txt")) st))
        | Ret true => Some (set_pc i WWait st)
        end
      else Some (set_pc i WWait st)
  | WWait =>
      match lock st, host_of u with
      | None, Ret host =>
          let last := default 0%float (host_last st !! host) in
          let now := time_time st in
          let wait := PrimFloat.sub (per_host_delay c) (PrimFloat.sub now last) in
          if PrimFloat.ltb 0 wait then
            match Time.sleep_timeout wait with
            | Ret ns => Some (set_pc i (WSleeping (mono st + ns)) (set_lock (Some i) st))
            | Raise _ => Some (set_pc i WDone st)
            end
          else Some (set_pc i (WSleeping (mono st)) (set_lock (Some i) st))
      | _, _ => None
      end
  | WSleeping deadline =>
      match host_of u with
      | Ret host =>
          if deadline <=? mono st
          then Some (set_pc i WFetch (set_lock None (stamp_host host (time_time st) st)))
          else None
      | Raise _ => None
      end
  | WFetch =>
      let downloader := Downloader.new (output_dir c) (user_agent c) (respect_robots c) in
      let '(r, w) :=
        Downloader.fetch E downloader u render_js save_assets rewrite_assets
          EmptyString (world_of downloader st) in
      let st := log_fetch u (set_disk w st) in
      match r with
      | Ret saved =>
          let pathstr := PathLib.to_str saved in
          let st := append_result (mkResult u (Some pathstr) None) st in
          if depth <? max_depth c
          then Some (set_pc i (WDiscover pathstr) st)
          else Some (set_pc i WDone st)
      | Raise exc =>
          Some (set_pc i WDone (append_result (mkResult u None (Some (exn_str exc))) st))
      end
  | WDiscover saved =>
      match _discover_links (read_saved saved st) u with
      | Ret links => Some (set_pc i (WLinksLock links) st)
      | Raise exc =>
          Some (set_pc i WDone (append_result (mkResult u None (Some (exn_str exc))) st))
      end
  | WLinksLock links =>
      match lock st with
      | None => Some (set_pc i (WLinks links) (set_lock (Some i) st))
      | Some _ => None
      end
  | WLinks [] => Some (set_pc i WDone (set_lock None st))
  | WLinks (l :: rest) =>
      let st := if accepts_link l depth st
                then set_queue (queue st ++ [(l, depth + 1)])%list st else st in
      Some (set_pc i (WLinks rest) st)
  | WDone => None
  end.

(** One step of the thread that called [crawl] *)
Definition main_step (st : State) : option State :=
  match main st with
  | MLoop =>
      match queue st with
      | (u, depth) :: q =>
          if Z.of_nat (length (results st)) <? max_pages c
          then Some (mkState (visited st) (lock st) (host_last st) (results st) q
                       (tasks st ++ [mkTask u depth WQueued])%list
                       MLoop (clock st) (mono st) (files st) (trace st) (fetch_calls st))
          else Some (mkState (visited st) (lock st) (host_last st) (results st)
                       (queue st) (tasks st) MJoin (clock st) (mono st) (files st) (trace st)
                       (fetch_calls st))
      | [] => Some (mkState (visited st) (lock st) (host_last st) (results st)
                      (queue st) (tasks st) MJoin (clock st) (mono st) (files st) (trace st)
                      (fetch_calls st))
      end
  | MJoin =>
      if forallb is_done (tasks st)
      then Some (mkState (visited st) (lock st) (host_last st) (results st)
                   (queue st) (tasks st) MReturned (clock st) (mono st) (files st) (trace st)
                   (fetch_calls st))
      else None
  | MReturned => None
  end.

Definition step (start_host : string) (st : State) (ev : event) : option State :=
  match ev with
  | Main => main_step st
  | Work i =>
      match tasks st !! i with
      | Some tk => work_step start_host i tk st
      | None => None
      end
  | Tick dt =>
      if 0 <=? dt
      then Some (mkState (visited st) (lock st) (host_last st) (results st)
                   (queue st) (tasks st) (main st) (clock st + dt) (mono st + dt)
                   (files st) (trace st) (fetch_calls st))
      else None
  | Adjust d =>
      Some (mkState (visited st) (lock st) (host_last st) (results st)
              (queue st) (tasks st) (main st) (clock st + d) (mono st)
              (files st) (trace st) (fetch_calls st))
  end.

Fixpoint run (start_host : string) (st : State) (sched : list event) : option State :=
  match sched with
  | [] => Some st
  | ev :: rest =>
      match step start_host st ev with
      | Some st' => run start_host st' rest
      | None => None
      end
  end.

(** The state [crawl(start_url)] starts its pool in, on a new [Crawler]
    object, when the real-time clock reads [now] and with the disk [disk];
    an exception when the seed cannot be parsed or the pool cannot be
    built. *)
Definition crawl_init (start_url : string) (now : Z) (disk : gmap string string)
  : outcome (string * State) :=
  let start_url := normalize_start start_url in
  start_host ← host_of start_url;
  if concurrency c <=? 0
  then Raise (ValueError "max_workers must be greater than 0")
  else Ret (start_host,
            mkState ∅ None ∅ [] [(start_url, 0)] [] MLoop now 0 disk [] []).

(** [crawl(start_url)] under a schedule: the list it returns, when the
    schedule lets it return. *)
Definition crawl (start_url : string) (now : Z) (disk : gmap string string)
    (sched : list event) : option (list CrawlResult) :=
  match crawl_init start_url now disk with
  | Ret (start_host, st0) =>
      match run start_host st0 sched with
      | Some st => match main st with MReturned => Some (results st) | _ => None end
      | None => None
      end
  | Raise _ => None
  end.

End Crawl.

(** *** WARC export *)

(** A record handed to [writer.write_record] *)
Inductive WarcRecord : Type :=
  | Warcinfo (filename : string) (fields : list (string * string))
  | Resource (target : string) (payload : string).

(** [str(b)] for a [bool] *)
Definition bool_str (b : bool) : string := if b then "True" else "False".

Section WarcExport.
Context (c : t) (E : Downloader.Env).
(** The disk as the reads of the export find it *)
Context (disk : gmap string string).

Definition warcinfo_fields (results : list CrawlResult) (crawl_start : string)
  : list (string * string) :=
  [("Software", "websitedownloaderpersonal/1.0");
   ("Crawl-Start", crawl_start);
   ("Pages-Crawled", pretty (length results));
   ("Max-Depth", pretty (max_depth c));
   ("Max-Pages", pretty (max_pages c));
   ("Concurrency", pretty (concurrency c));
   ("Respect-Robots", bool_str (respect_robots c))].

(** The body of the loop [for a in asset_refs]: the record written for
    the reference [a] of the page [r], if its file is there *)
Definition asset_record (r : CrawlResult) (saved a : string)
  : outcome (option WarcRecord) :=
  full ← Url.urljoin (url r) a;
  parsed ← Url.urlparse full;
  let safe_host := Py.replace_char ":" "_" (Url.netloc parsed) in
  let filename :=
    let b := OsPath.basename (Url.path parsed) in
    if Py.truthy b then b else "unnamed" in
  let candidate := OsPath.join (OsPath.dirname saved) ["assets"; safe_host; filename] in
  if Disk.path_exists disk candidate
  then apayload ← Disk.read_bytes disk candidate; Ret (Some (Resource full apayload))
  else Ret None.

(** The loop [for a in asset_refs], from the records [written] so far; it
    stops at the first exception. *)
Fixpoint asset_loop (r : CrawlResult) (saved : string) (refs : list string)
    (written : list WarcRecord) : outcome unit * list WarcRecord :=
  match refs with
  | [] => (Ret tt, written)
  | a :: rest =>
      match asset_record r saved a with
      | Raise e => (Raise e, written)
      | Ret (Some rec) => asset_loop r saved rest (written ++ [rec])%list
      | Ret None => asset_loop r saved rest written
      end
  end.

(** The block [try: ... except Exception: logger.debug(...)] *)
Definition asset_phase (r : CrawlResult) (saved : string)
    (written : list WarcRecord) : list WarcRecord :=
  match raw ← Disk.read_bytes disk saved; Downloader.decode_utf8 E raw with
  | Raise _ => written
  | Ret html =>
      snd (asset_loop r saved
             (Downloader.asset_refs (Downloader.parse_html E html)) written)
  end.

(** The body of the loop [for r in results], from the records [written] so
    far *)
Definition export_result (written : list WarcRecord) (r : CrawlResult)
  : outcome unit * list WarcRecord :=
  match saved_path r with
  | Some p =>
      if Disk.path_exists disk p then
        match Disk.read_bytes disk p with
        | Ret payload =>
            (Ret tt, asset_phase r p (written ++ [Resource (url r) payload])%list)
        | Raise e => (Raise e, written)
        end
      else (Ret tt, written)
  | None => (Ret tt, written)
  end.

(** The loop [for r in results]; it stops at the first exception. *)
Fixpoint export_loop (results : list CrawlResult) (written : list WarcRecord)
  : outcome unit * list WarcRecord :=
  match results with
  | [] => (Ret tt, written)
  | r :: rest =>
      match export_result written r with
      | (Ret _, written') => export_loop rest written'
      | (Raise e, written') => (Raise e, written')
      end
  end.

(** [export_warc(results, filename)], started at the time that formats as
    [crawl_start]: the path it returns, or its exception, and the records
    it writes, in order. *)
Definition export_warc (results : list CrawlResult) (filename crawl_start : string)
  : outcome string * list WarcRecord :=
  match export_loop results
          [Warcinfo (OsPath.basename filename) (warcinfo_fields results crawl_start)] with
  | (Ret _, written) => (Ret filename, written)
  | (Raise e, written) => (Raise e, written)
  end.

End WarcExport.

End Crawler.

(** ** Vocabulary of the statements

    Definitions that only the theorems use: the shapes of traces, the
    concrete sites and schedules at which the code is run. *)

(** *** The trace of the retry loop *)

Module RetrySpec.
Import Downloader.

(** The user agent of attempt [a]: [user_agents[a % len(user_agents)]] *)
Definition ua_of (a : nat) : string := nth (a mod 4) user_agents EmptyString.

(** The trace of [n] failed attempts, from attempt [k] on: each GET is
    followed by its back-off sleep. *)
Fixpoint retry_prefix (url : string) (k n : nat) : list io :=
  match n with
  | O => []
  | S n' =>
      IoGet url (ua_of k) :: IoSleep (Seconds (Z.min (2 ^ Z.of_nat k) 16))
        :: retry_prefix url (S k) n'
  end.

Definition gets (tr : list io) : list io :=
  List.filter (fun e => match e with IoGet _ _ => true | _ => false end) tr.
Definition sleeps (tr : list io) : list duration :=
  flat_map (fun e => match e with IoSleep d => [d] | _ => [] end) tr.

Definition outcome_map {A B} (f : A -> B) (o : outcome A) : outcome B :=
  match o with Ret a => Ret (f a) | Raise e => Raise e end.
End RetrySpec.

(** *** Failures of the robots.txt fetch *)

(** [parser.read()] raises on this answer: the fetch failed, or its body is
    not text *)
Definition read_raises (resp : Robots.response) : bool :=
  match resp with
  | Robots.Fails _ | Robots.Undecodable => true
  | _ => false
  end.

(** *** Sites

    Environments for the concrete runs. *)

Module Sites.
Import Downloader.

(** A server that answers every request with status 500 and whose
    robots.txt cannot be fetched *)
Definition always_500 : Env := {|
  robots_open := fun _ _ => Robots.Fails (OSError "timed out");
  robots_now := 1;
  http_get := fun _ u => Response 500 "Internal Server Error" u EmptyString [];
  render := fun _ _ => Raise (RuntimeError "Playwright required for JS rendering but it's not installed.");
  parse_html := fun _ => [];
  render_html := fun _ => EmptyString;
  decode_utf8 := fun s => Ret s;
  cwd := "/" |}.

(** A site whose pages are served while its robots.txt cannot be fetched:
    the request for it times out *)
Definition robots_unreachable : Env := {|
  robots_open := fun _ _ => Robots.Fails (OSError "timed out");
  robots_now := 1700000000;
  http_get := fun _ u => Response 200 "OK" u "<html></html>" [];
  render := fun _ _ => Raise (RuntimeError "Playwright required for JS rendering but it's not installed.");
  parse_html := fun _ => [];
  render_html := fun _ => EmptyString;
  decode_utf8 := fun s => Ret s;
  cwd := "/home/user" |}.

(** [Downloader(output_dir="out", user_agent="UA")], robots respected *)
Definition polite : t := new "out" (Some "UA") true.

(** The same downloader with [respect_robots=False] *)
Definition heedless : t := new "out" (Some "UA") false.

(** The world before the first call: an empty disk, nothing done yet *)
Definition fresh : World := mkWorld ∅ "UA" [].

(** The page of the scenario of the asset rewriting, and its tree *)
Definition image_page : string := "<html><img src=/a.png></html>".

(** A site with one page that shows one image: the page at
    [https://example.com/], the image at [/a.png], sent in two chunks, and a
    robots.txt that allows everything.  The parser reads the one tag of the
    page; the tree is printed back with the value of its [src]. *)
Definition one_image : Env := {|
  robots_open := fun _ _ => Robots.Served (fun _ _ => true);
  robots_now := 1700000000;
  http_get := fun _ u =>
    if String.eqb u "https://example.com/" then Response 200 "OK" u image_page []
    else if String.eqb u "https://example.com/a.png"
    then Response 200 "OK" u EmptyString ["PNG"; "DATA"]
    else Response 404 "Not Found" u EmptyString [];
  render := fun _ _ => Raise (RuntimeError "Playwright required for JS rendering but it's not installed.");
  parse_html := fun html =>
    if String.eqb html image_page then [mkTag "img" (Some "/a.png") None None] else [];
  render_html := fun soup =>
    match soup with
    | [t] => "<html><img src=" ++ default EmptyString (tag_src t) ++ "></html>"
    | _ => EmptyString
    end;
  decode_utf8 := fun s => Ret s;
  cwd := "/home/user" |}.

(** The same page one directory down, at [https://example.com/a/b.html];
    the image is still at [/a.png]. *)
Definition nested_image : Env := {|
  robots_open := robots_open one_image;
  robots_now := robots_now one_image;
  http_get := fun _ u =>
    if String.eqb u "https://example.com/a/b.html" then Response 200 "OK" u image_page []
    else if String.eqb u "https://example.com/a.png"
    then Response 200 "OK" u EmptyString ["PNG"; "DATA"]
    else Response 404 "Not Found" u EmptyString [];
  render := render one_image;
  parse_html := parse_html one_image;
  render_html := render_html one_image;
  decode_utf8 := decode_utf8 one_image;
  cwd := cwd one_image |}.

(** A page that shows the image [/a.png] twice, under two spellings, with
    a script between them and a style sheet after them *)
Definition repeated_image : Env := {|
  robots_open := robots_open one_image;
  robots_now := robots_now one_image;
  http_get := fun _ u => Response 404 "Not Found" u EmptyString [];
  render := render one_image;
  parse_html := fun _ =>
    [mkTag "img" (Some "/a.png") None None;
     mkTag "script" (Some "s.js") None None;
     mkTag "img" (Some "a.png") None None;
     mkTag "link" None (Some "c.css") (Some ["stylesheet"])];
  render_html := fun _ => EmptyString;
  decode_utf8 := decode_utf8 one_image;
  cwd := cwd one_image |}.

End Sites.

(** *** What a call adds to the trace *)

Module TraceSpec.
Import Downloader.

(** Every action the computation [c] adds to the trace satisfies [P]. *)
Definition adds {A} (P : io -> Prop) (c : IO A) : Prop :=
  forall w, exists ext, trace (snd (c w)) = (trace w ++ ext)%list /\ Forall P ext.

(** Any action: what is left is that the trace is only added to. *)
Definition anything (e : io) : Prop := True.

(** The action is not a request for a robots.txt. *)
Definition no_robots (e : io) : Prop :=
  match e with IoRobots _ => False | _ => True end.

End TraceSpec.

(** *** Lists without repetition *)

Module ListSpec.

(** The elements of [l] at the positions where they occur for the first
    time, in the order of these positions: position [i] is kept when its
    element is at no position before [i]. *)
Definition first_occurrences (l : list string) : list string :=
  flat_map (fun i =>
    match l !! i with
    | Some u => if bool_decide (u ∈ take i l) then [] else [u]
    | None => []
    end) (seq 0 (length l)).

End ListSpec.

(** *** Asset downloads *)

Module StreamSpec.
Import Downloader.

(** The trace of [k] failed attempts of [_get_stream], from attempt [n] on *)
Fixpoint stream_prefix (url ua : string) (n k : nat) : list io :=
  match k with
  | O => []
  | S k' => IoGet url ua :: IoSleep (Seconds (retry_wait n)) :: stream_prefix url ua (S n) k'
  end.

(** [os.path.basename(parsed.path) or "unnamed"] *)
Definition asset_name (parsed : Url.ParseResult) : string :=
  let b := OsPath.basename (Url.path parsed) in
  if Py.truthy b then b else "unnamed".

(** [output_dir / "assets" / safe_host / filename] *)
Definition asset_target (d : t) (parsed : Url.ParseResult) : PathLib.Path :=
  PathLib.div (PathLib.div (PathLib.div (output_dir d) "assets") (safe_host_of parsed))
    (asset_name parsed).

End StreamSpec.

(** *** The rewritten tree *)

Module RewriteSpec.
Import Downloader.

(** The tag [t'] is the tag [t], or [t] with the attribute that one of the
    three loops of [_rewrite_assets_and_save] picks set to a new value. *)
Definition retargeted (t t' : Tag) : Prop :=
  t' = t \/
  exists src_attr u v,
    (pick_img t = Some (src_attr, u) \/ pick_script t = Some (src_attr, u)
     \/ pick_link t = Some (src_attr, u)) /\
    t' = set_attr src_attr t v.

(** One loop: the tag is kept, or the attribute [pick] selects is set. *)
Definition retargeted_by (pick : Tag -> option (bool * string)) (t t' : Tag) : Prop :=
  t' = t \/ exists src_attr u v, pick t = Some (src_attr, u) /\ t' = set_attr src_attr t v.

End RewriteSpec.

(** *** Crawls *)

Module CrawlSpec.
Import Crawler.

(** The task has passed the host comparison of [worker] and has not ended. *)
Definition past_domain (p : pc) : bool :=
  match p with
  | WRobots | WWait | WSleeping _ | WFetch | WDiscover _ | WLinksLock _ | WLinks _ => true
  | _ => false
  end.

(** The task is inside a [with self._lock] block that spans several steps. *)
Definition holds_lock (p : pc) : bool :=
  match p with
  | WSleeping _ | WLinks _ => true
  | _ => false
  end.

(** The task has appended its first result and may go on to enqueue links. *)
Definition past_result (p : pc) : bool :=
  match p with
  | WDiscover _ | WLinksLock _ | WLinks _ => true
  | _ => false
  end.

(** With the domain restriction, every result, every fetch and every task
    past the host comparison is on the host of the seed. *)
Definition domain_inv (start_host : string) (st : State) : Prop :=
  (forall r, In r (results st) -> host_of (url r) = Ret start_host) /\
  (forall u, In u (fetch_calls st) -> host_of u = Ret start_host) /\
  (forall j tk, tasks st !! j = Some tk -> past_domain (t_pc tk) = true ->
                host_of (t_url tk) = Ret start_host).

(** The first job and the first result are those of the seed. *)
Definition seed_inv (seed : string) (st : State) : Prop :=
  (forall r rs, results st = r :: rs -> url r = seed) /\
  (results st = [] ->
   (forall j tk, tasks st !! j = Some tk ->
                 t_url tk = seed /\ past_result (t_pc tk) = false) /\
   (forall u d, In (u, d) (queue st) -> u = seed)) /\
  ((tasks st = [] /\ queue st = [(seed, 0)]) \/
   (exists tk rest, tasks st = tk :: rest /\ t_url tk = seed /\ t_depth tk = 0)).

(** The task has added its URL to [_visited] and has not ended. *)
Definition past_reserve (p : pc) : bool :=
  match p with
  | WDomain | WRobots | WWait | WSleeping _ | WFetch | WDiscover _
  | WLinksLock _ | WLinks _ => true
  | _ => false
  end.

(** Depths stay between 0 and [max_depth]; a task that looks for links is
    strictly above the bottom. *)
Definition depth_inv (c : t) (st : State) : Prop :=
  (forall u d, In (u, d) (queue st) -> 0 <= d <= Z.max 0 (max_depth c)) /\
  (forall j tk, tasks st !! j = Some tk ->
     0 <= t_depth tk <= Z.max 0 (max_depth c) /\
     (past_result (t_pc tk) = true -> t_depth tk < max_depth c)).

(** A result is a success, with a path and no error, or an error, with a
    message and no path. *)
Definition well_formed (r : CrawlResult) : Prop :=
  (is_Some (saved_path r) /\ error r = None) \/
  (saved_path r = None /\ is_Some (error r)).

Definition results_inv (st : State) : Prop :=
  forall r, In r (results st) ->
    well_formed r /\ (is_Some (saved_path r) -> In (url r) (fetch_calls st)).

Definition visited_inv (st : State) : Prop :=
  (forall r, In r (results st) -> url r ∈ visited st) /\
  (forall u, In u (fetch_calls st) -> u ∈ visited st) /\
  (forall j tk, tasks st !! j = Some tk -> past_reserve (t_pc tk) = true ->
                t_url tk ∈ visited st).

Definition queue_inv (c : t) (st : State) : Prop :=
  Z.of_nat (length (queue st)) <= Z.max 1 (max_pages c).

(** What a crawl never takes back *)
Definition grows (st st' : State) : Prop :=
  results st `prefix_of` results st' /\
  fetch_calls st `prefix_of` fetch_calls st' /\
  visited st ⊆ visited st'.

(** The results a task may still append: two after the test on the number
    of results (the result of the fetch, then the error of the link
    discovery), one once the fetch has succeeded. *)
Definition load (p : pc) : Z :=
  match p with
  | WCheckVisited | WReserve | WDomain | WRobots | WWait | WSleeping _ | WFetch => 2
  | WDiscover _ => 1
  | _ => 0
  end.

(** The task occupies a thread of the pool. *)
Definition busy (p : pc) : Z :=
  match p with
  | WQueued | WDone => 0
  | _ => 1
  end.

Definition total (f : pc -> Z) (l : list Task) : Z :=
  fold_right (fun t acc => f (t_pc t) + acc) 0 l.

Definition overshoot_inv (c : t) (st : State) : Prop :=
  total busy (tasks st) <= concurrency c /\
  Z.of_nat (length (results st)) + total load (tasks st)
    <= Z.max 0 (max_pages c + 2 * concurrency c - 1).

(** Nothing was dispatched. *)
Definition idle_inv (st : State) : Prop :=
  tasks st = [] /\ results st = [] /\ fetch_calls st = [].

(** The seed is the only job: it waits in the queue, or it is the one task
    and the queue is empty. *)
Definition alone_inv (seed : string) (st : State) : Prop :=
  ((tasks st = [] /\ queue st = [(seed, 0)]) \/
   (exists tk, tasks st = [tk] /\ queue st = [] /\ t_url tk = seed /\ t_depth tk = 0 /\
               past_result (t_pc tk) = false)) /\
  (forall r, In r (results st) -> url r = seed) /\
  (forall u, In u (fetch_calls st) -> u = seed).

(** The actions of a run, each with the reading of the real-time clock at
    the step that performed it *)
Fixpoint timeline (c : t) (E : Downloader.Env) (render_js save_assets rewrite_assets : bool)
    (start_host : string) (st : State) (sched : list event) : list (Z * Downloader.io) :=
  match sched with
  | [] => []
  | ev :: rest =>
      match step c E render_js save_assets rewrite_assets start_host st ev with
      | Some st' =>
          (List.map (fun a => (clock st, a)) (drop (length (trace st)) (trace st'))
           ++ timeline c E render_js save_assets rewrite_assets start_host st' rest)%list
      | None => []
      end
  end.

(** The requests sent to [host]: the fetches of its robots.txt and the GETs
    of its URLs *)
Definition requests_to (host : string) (tl : list (Z * Downloader.io))
  : list (Z * Downloader.io) :=
  List.filter (fun ta =>
    match snd ta with
    | Downloader.IoRobots u | Downloader.IoGet u _ =>
        match host_of u with
        | Ret h => String.eqb h host
        | Raise _ => false
        end
    | _ => false
    end) tl.

End CrawlSpec.

(** *** Links *)

Module LinkSpec.

(** An anchor that gives a link: an [a] tag whose [href] is not empty and
    starts with neither [javascript:] nor [mailto:] *)
Definition followed (a : Tag) : bool :=
  String.eqb (tag_name a) "a" &&
  match tag_href a with
  | Some h => Py.truthy h && negb (Py.startswith "javascript:" h)
              && negb (Py.startswith "mailto:" h)
  | None => false
  end.

End LinkSpec.

(** *** Sites to crawl, and schedules *)

Module Runs.
Import Crawler.

(** An anchor [<a href=...>] *)
Definition anchor (href : string) : Tag := mkTag "a" None (Some href) None.

(** A site given by its pages: the URL of a page, its markup, and the tree
    the parser reads from that markup.  Every page is served with status 200,
    any other URL with 404; robots.txt allows everything. *)
Definition site (pages : list (string * (string * list Tag))) : Downloader.Env :=
  Downloader.mkEnv
    (fun _ _ => Robots.Served (fun _ _ => true))
    1700000000
    (fun _ u =>
       match List.find (fun p => String.eqb (fst p) u) pages with
       | Some p => Downloader.Response 200 "OK" u (fst (snd p)) []
       | None => Downloader.Response 404 "Not Found" u EmptyString []
       end)
    (fun _ _ => Raise (RuntimeError "Playwright required for JS rendering but it's not installed."))
    (fun html =>
       match List.find (fun p => String.eqb (fst (snd p)) html) pages with
       | Some p => snd (snd p)
       | None => []
       end)
    (fun _ => EmptyString)
    (fun s => Ret s)
    "/home/user".

(** [Crawler(output_dir="out", max_depth=1, max_pages=..., same_domain=...,
    concurrency=2, per_host_delay=delay / 1000)] *)
Definition crawler (pages : Z) (same : bool) (delay : Z) : t :=
  mkCrawler "out" None 1 pages same 2
    (PrimFloat.div (Time.double_of_int delay) 1000%float) true [] [].

(** [Crawler(output_dir="out", max_depth=0, max_pages=5, concurrency=2)] *)
Definition shallow : t := mkCrawler "out" None 0 5 true 2 0.5%float true [] [].

(** What the real-time clock reads when the crawls start *)
Definition t0 : Z := 1700000000000000000.

(** Half a second, and a millisecond *)
Definition half_second : Z := 500000000.
Definition millisecond : Z := 1000000.

(** The state a crawl of [seed] starts in at [t0], on an empty disk *)
Definition start (seed : string) : State :=
  mkState ∅ None ∅ [] [(seed, 0)] [] MLoop t0 0 ∅ [] [].

(** [n] steps in a row of the task of future [i] *)
Definition work (i n : nat) : list event := repeat (Work i) n.

(** The front page links to [/a] and to [/b]. *)
Definition two_links : Downloader.Env :=
  site [("https://example.com/", ("<a href=/a>a</a><a href=/b>b</a>", [anchor "/a"; anchor "/b"]));
        ("https://example.com/a", ("<p>a</p>", []));
        ("https://example.com/b", ("<p>b</p>", []))].

(** A schedule of two workers for [two_links] with [max_pages = 2].  The
    seed is fetched and its links are looked at under the lock; the
    dispatching thread takes [/a] out of the queue before the worker tests
    [/b], so [/b] is enqueued too.  Both jobs pass the test on the number of
    results while there is one result; then each fetches its page. *)
Definition overshoot : list event :=
  ([Main] ++ work 0 11            (* the seed: up to the loop over its links *)
   ++ [Work 0; Main]              (* /a is enqueued and dispatched at once *)
   ++ [Work 0; Main]              (* so is /b: the queue was empty again *)
   ++ [Work 0; Main]              (* the lock is released; the loop ends *)
   ++ work 1 2 ++ work 2 2        (* both jobs see one result out of two *)
   ++ work 1 5 ++ [Tick half_second] ++ work 1 2   (* /a is fetched *)
   ++ work 2 5 ++ [Tick half_second] ++ work 2 2   (* /b is fetched *)
   ++ [Main])%list.

(** The front page links to [/a] twice. *)
Definition same_link_twice : Downloader.Env :=
  site [("https://example.com/", ("<a href=/a>a</a><a href=/a>again</a>", [anchor "/a"; anchor "/a"]));
        ("https://example.com/a", ("<p>a</p>", []))].

(** A schedule of two workers for [same_link_twice] with [max_pages = 3]:
    both jobs for [/a] test [url in self._visited] before either adds it. *)
Definition double_visit : list event :=
  ([Main] ++ work 0 14            (* the seed: /a is enqueued twice *)
   ++ [Main; Main; Main]          (* both jobs are dispatched; the loop ends *)
   ++ work 1 3 ++ work 2 3        (* both find /a unvisited *)
   ++ work 1 4 ++ [Tick half_second] ++ work 1 2   (* the first fetches /a *)
   ++ work 2 4 ++ [Tick half_second] ++ work 2 2   (* and so does the second *)
   ++ [Main])%list.

(** The front page holds a link that [urljoin] refuses. *)
Definition bad_link : Downloader.Env :=
  site [("https://example.com/", ("<a href=http://[>x</a>", [anchor "http://["]))].

(** A page with anchors of every kind among other tags *)
Definition mixed_page : string :=
  "<a href=/a>a</a><a href=javascript:void(0)>j</a><img src=/i.png><a href>e</a><a href=mailto:x@example.com>m</a><a href=b/c>c</a><a>n</a>".

Definition mixed_links : Downloader.Env :=
  site [("https://example.com/d/",
         (mixed_page,
          [anchor "/a"; anchor "javascript:void(0)"; mkTag "img" (Some "/i.png") None None;
           anchor ""; anchor "mailto:x@example.com"; anchor "b/c";
           mkTag "a" None None None]))].

(** One worker after the other: the seed alone *)
Definition seed_only : list event := ([Main] ++ work 0 10 ++ [Main; Main])%list.

(** The seed alone, when no link is followed *)
Definition seed_fetched : list event := ([Main] ++ work 0 9 ++ [Main; Main])%list.

(** The front page of [a.example] links to a page of its own and to a page
    of [b.example]. *)
Definition two_hosts : Downloader.Env :=
  site [("https://a.example/",
         ("<a href=/x>x</a><a href=https://b.example/y>y</a>",
          [anchor "/x"; anchor "https://b.example/y"]));
        ("https://a.example/x", ("<p>x</p>", []));
        ("https://b.example/y", ("<p>y</p>", []))].

(** A schedule for [two_hosts] with the domain restriction: the seed is
    fetched and both links are enqueued and dispatched; the job for
    [b.example/y] ends at the host comparison, the job for [a.example/x]
    waits for its host, fetches and ends; then [crawl] returns. *)
Definition other_host_dropped : list event :=
  ([Main] ++ work 0 14 ++ [Main; Main; Main]
   ++ work 1 1 ++ work 2 5
   ++ work 1 5 ++ [Tick half_second] ++ work 1 3 ++ [Main])%list.

(** A schedule for [two_hosts] without the domain restriction and with
    [per_host_delay = 0.5].  The seed asks for the robots.txt of
    [a.example] at [t0]; 20 ms later it passes [_wait_for_host] and fetches
    the front page; 30 ms after that its two links are dispatched.  The job
    for [b.example/y] asks for the robots.txt of its host and comes to its
    call of [_wait_for_host]; the job for [a.example/x] asks for robots.txt,
    enters its own call, takes the lock and sleeps. *)
Definition second_host_waits : list event :=
  ([Main] ++ work 0 6 ++ [Tick (20 * millisecond)] ++ work 0 3
   ++ [Tick (30 * millisecond)] ++ work 0 5 ++ [Main; Main; Main]
   ++ work 1 1 ++ work 2 6 ++ work 1 6)%list.

End Runs.

(* ===================================================================== *)
(** * Part II: lemmas and theorems                                        *)
(* ===================================================================== *)

(** ** The retry loop of the static fetch *)

Section StaticFetch.
Import Downloader RetrySpec Sites.



Lemma static_loop_cons (E : Env) (url : string) (a : nat) (rest : list nat) (w : World) :
static_loop E url (a :: rest) w =
  let w1 := mkWorld (fs w) (ua_of a) (trace w ++ [IoGet url (ua_of a)])%list in
  match checked (http_get E (trace w) url) with
  | Ret r => (Ret (fst r), w1)
  | Raise e =>
      if is_RequestException e then
        if (a =? 7)%nat then (Raise e, w1)
        else static_loop E url rest
               (mkWorld (fs w) (ua_of a)
                  (trace w ++ [IoGet url (ua_of a); IoSleep (Seconds (backoff a))])%list)
      else (Raise e, w1)
  end.
Proof.
cbn [static_loop].
unfold mbind, io_mbind, io_bind, io_try, set_ua, get_checked, io_ret, io_raise, sleep, emit.
cbn [trace fs session_ua]. fold (ua_of a).
destruct (checked (http_get E (trace w) url)) as [r|e]; [reflexivity|].
destruct (is_RequestException e); [|reflexivity].
destruct (a =? 7)%nat; [reflexivity|].
cbn [trace fs session_ua]. rewrite <- app_assoc. reflexivity.
Qed.

Lemma static_loop_spec (E : Env) (url : string) :
forall m k w, (k + S m = 8)%nat ->
  exists n, (n <= m)%nat /\
    trace (snd (static_loop E url (seq k (S m)) w))
      = (trace w ++ retry_prefix url k n ++ [IoGet url (ua_of (k + n))])%list /\
    fs (snd (static_loop E url (seq k (S m)) w)) = fs w /\
    fst (static_loop E url (seq k (S m)) w)
      = outcome_map fst (checked (http_get E (trace w ++ retry_prefix url k n)%list url)) /\
    (forall e, fst (static_loop E url (seq k (S m)) w) = Raise e ->
               is_RequestException e = true -> n = m).
Proof.
induction m as [|m IH]; intros k w Hk; cbn [seq]; rewrite static_loop_cons; cbv zeta.
- assert (k = 7%nat) by lia. subst k. exists 0%nat.
  cbn [retry_prefix app]. rewrite app_nil_r, Nat.add_0_r.
  destruct (checked (http_get E (trace w) url)) as [r|e]; cbn.
  + repeat split; auto.
  + destruct (is_RequestException e); cbn; repeat split; auto.
- destruct (checked (http_get E (trace w) url)) as [r|e] eqn:Hc.
  + exists 0%nat. cbn [retry_prefix app fst snd trace fs].
    rewrite app_nil_r, Nat.add_0_r, Hc. cbn.
    repeat split; auto; try lia. intros e He; discriminate.
  + destruct (is_RequestException e) eqn:HRe.
    * destruct (k =? 7)%nat eqn:Hk7; [apply Nat.eqb_eq in Hk7; lia|].
      match goal with |- context [static_loop E url _ ?w0] => set (w2 := w0) end.
      destruct (IH (S k) w2 ltac:(lia)) as (n & Hn & Htr & Hfs & Hres & Hlast).
      cbn [seq] in *.
      exists (S n). cbn [retry_prefix].
      assert (Hpre : forall l, (trace w2 ++ l)%list
                = (trace w ++ IoGet url (ua_of k)
                     :: IoSleep (Seconds (Z.min (2 ^ Z.of_nat k) 16)) :: l)%list).
      { intros l. unfold w2, backoff. cbn [trace]. rewrite <- app_assoc. reflexivity. }
      rewrite Hpre in Htr, Hres.
      split; [lia|]. split.
      { rewrite Htr. cbn [app]. replace (S k + n)%nat with (k + S n)%nat by lia. reflexivity. }
      split; [exact Hfs|]. split; [exact Hres|].
      intros e' He' HR. f_equal. eapply Hlast; eauto.
    * exists 0%nat. cbn [retry_prefix app fst snd trace fs].
      rewrite app_nil_r, Nat.add_0_r, Hc. cbn.
      repeat split; auto; try lia.
      intros e' He'. inversion He'; subst. congruence.
Qed.

(** Every attempt before the last one failed with a RequestException. *)
Lemma static_loop_failed (E : Env) (url : string) :
forall m k w, (k + S m = 8)%nat ->
  exists n, (n <= m)%nat /\
    trace (snd (static_loop E url (seq k (S m)) w))
      = (trace w ++ retry_prefix url k n ++ [IoGet url (ua_of (k + n))])%list /\
    session_ua (snd (static_loop E url (seq k (S m)) w)) = ua_of (k + n) /\
    (forall a, (a < n)%nat ->
       exists e, checked (http_get E (trace w ++ retry_prefix url k a)%list url) = Raise e /\
                 is_RequestException e = true).
Proof.
induction m as [|m IH]; intros k w Hk; cbn [seq]; rewrite static_loop_cons; cbv zeta.
- assert (k = 7%nat) by lia. subst k. exists 0%nat.
  cbn [retry_prefix app]. rewrite Nat.add_0_r.
  destruct (checked (http_get E (trace w) url)) as [r|e]; cbn.
  + repeat split; auto; try (intros a Ha; lia).
  + destruct (is_RequestException e); cbn; repeat split; auto; try (intros a Ha; lia).
- destruct (checked (http_get E (trace w) url)) as [r|e] eqn:Hc.
  + exists 0%nat. cbn [retry_prefix app fst snd trace fs session_ua].
    rewrite Nat.add_0_r.
    repeat split; auto; try lia; try (intros a Ha; lia).
  + destruct (is_RequestException e) eqn:HRe.
    * destruct (k =? 7)%nat eqn:Hk7; [apply Nat.eqb_eq in Hk7; lia|].
      match goal with |- context [static_loop E url _ ?w0] => set (w2 := w0) end.
      destruct (IH (S k) w2 ltac:(lia)) as (n & Hn & Htr & Hua & Hfail).
      cbn [seq] in *.
      exists (S n). cbn [retry_prefix].
      assert (Hpre : forall l, (trace w2 ++ l)%list
                = (trace w ++ IoGet url (ua_of k)
                     :: IoSleep (Seconds (Z.min (2 ^ Z.of_nat k) 16)) :: l)%list).
      { intros l. unfold w2, backoff. cbn [trace]. rewrite <- app_assoc. reflexivity. }
      rewrite Hpre in Htr.
      split; [lia|]. split.
      { rewrite Htr. cbn [app]. replace (S k + n)%nat with (k + S n)%nat by lia. reflexivity. }
      split.
      { rewrite Hua. f_equal. lia. }
      intros [|a] Ha.
      -- cbn [retry_prefix]. rewrite app_nil_r. eauto.
      -- cbn [retry_prefix]. rewrite <- Hpre. apply Hfail. lia.
    * exists 0%nat. cbn [retry_prefix app fst snd trace fs session_ua].
      rewrite Nat.add_0_r.
      repeat split; auto; try lia; try (intros a Ha; lia).
Qed.

Lemma gets_retry_prefix (url : string) (n k : nat) (tl : list io) :
length (gets (retry_prefix url k n ++ tl)) = (n + length (gets tl))%nat.
Proof.
unfold gets. revert k; induction n as [|n IH]; intros k; [reflexivity|].
cbn [retry_prefix app List.filter length]. rewrite IH. lia.
Qed.

Lemma sleeps_retry_prefix (url : string) (n k : nat) (tl : list io) :
sleeps (retry_prefix url k n ++ tl)
= (List.map (fun a => Seconds (Z.min (2 ^ Z.of_nat a) 16)) (seq k n) ++ sleeps tl)%list.
Proof.
unfold sleeps. revert k; induction n as [|n IH]; intros k; [reflexivity|].
cbn [retry_prefix app flat_map seq List.map]. rewrite IH. reflexivity.
Qed.

End StaticFetch.

(** ** The robots gate *)

Section RobotsGate.
Import Downloader Sites.

Lemma read_raises_unread (resp : Robots.response) (now : Z) (u : string) :
  read_raises resp = true ->
  snd (Robots.read resp now (Robots.new u)) = Robots.new u.
Proof. destruct resp; cbn; intros H; try discriminate; reflexivity. Qed.

(** A parser that was never read denies every URL. *)
Lemma can_fetch_unread (u agent target : string) :
  Robots.can_fetch (Robots.new u) agent target = false.
Proof. reflexivity. Qed.

(** C2, as the code has it.  When robots are respected and the fetch of
    robots.txt raises (network error, timeout, a body that is not text),
    [allowed_by_robots] returns false: the exception is swallowed, the parser
    stays unread, and an unread parser denies. *)
Theorem allowed_by_robots_fetch_failure (E : Env) (d : t) (url : string) (w : World)
    (parsed : Url.ParseResult) (robots_url : string) :
  respect_robots d = true ->
  Url.urlparse url = Ret parsed ->
  Url.urljoin (Url.scheme parsed ++ "://" ++ Url.netloc parsed) "/robots.txt"
    = Ret robots_url ->
  read_raises (robots_open E (trace w) robots_url) = true ->
  fst (allowed_by_robots E d url w) = Ret false.
Proof.
  intros Hrespect Hparse Hjoin Hfail.
  unfold allowed_by_robots. rewrite Hrespect. cbn [negb].
  unfold mbind, io_mbind, io_bind, io_lift, _get_robots_parser.
  rewrite Hparse.
  unfold mbind, io_mbind, io_bind, io_lift. rewrite Hjoin.
  cbn [fst snd]. unfold io_ret. cbn [fst].
  rewrite (read_raises_unread _ _ _ Hfail). reflexivity.
Qed.

Lemma allowed_by_robots_fetch_failure_witness :
  fst (allowed_by_robots robots_unreachable polite "https://example.com/page" fresh)
  = Ret false.
Proof.
  apply (allowed_by_robots_fetch_failure robots_unreachable polite
           "https://example.com/page" fresh
           (Url.mkParse "https" "example.com" "/page" "" "" "")
           "https://example.com/robots.txt");
    reflexivity.
Defined.

(** C2, as the claim states it, fails: with robots respected and the fetch of
    robots.txt timing out, the gate answers false, not true. *)
Lemma robots_fetch_failure_is_not_allowed :
  respect_robots polite = true /\
  robots_open robots_unreachable [] "https://example.com/robots.txt"
    = Robots.Fails (OSError "timed out") /\
  fst (allowed_by_robots robots_unreachable polite "https://example.com/page" fresh)
    <> Ret true.
Proof.
  split; [reflexivity|]. split; [reflexivity|].
  vm_compute. discriminate.
Qed.

End RobotsGate.

(** ** The name of the saved page *)

Section PageStore.
Import Downloader Sites.

Lemma append_empty_r (s : string) : s ++ "" = s.
Proof.
  induction s as [|c r IH]; [reflexivity|].
  change (String c r ++ "") with (String c (r ++ "")). rewrite IH. reflexivity.
Qed.

Lemma replace_char_absent (a b : ascii) (s : string) :
  a <> b -> Py.has_char a (Py.replace_char a b s) = false.
Proof.
  intros Hab. induction s as [|c r IH]; [reflexivity|].
  cbn [Py.replace_char Py.has_char].
  destruct (Ascii.eqb c a) eqn:Hca.
  - destruct (Ascii.eqb a b) eqn:Hb; [apply Ascii.eqb_eq in Hb; contradiction|exact IH].
  - rewrite Ascii.eqb_sym, Hca. exact IH.
Qed.

(** The host part of a derived name holds no colon. *)
Lemma safe_host_no_colon (p : Url.ParseResult) :
  Py.has_char ":" (safe_host_of p) = false.
Proof. apply replace_char_absent. discriminate. Qed.

Lemma lstrip_by_head (p : ascii -> bool) (s : string) :
  match Py.lstrip_by p s with
  | String c _ => p c = false
  | EmptyString => True
  end.
Proof.
  induction s as [|c r IH]; [exact I|].
  cbn [Py.lstrip_by]. destruct (p c) eqn:Hc; [exact IH|exact Hc].
Qed.

Lemma rstrip_by_head (p : ascii -> bool) (s : string) :
  match s, Py.rstrip_by p s with
  | String c _, String c' _ => c' = c
  | _, _ => True
  end.
Proof.
  destruct s as [|c r]; [exact I|].
  cbn [Py.rstrip_by]. destruct (Py.rstrip_by p r); [destruct (p c)|]; auto.
Qed.

(** The path part of a derived name is never empty and does not start with a
    slash. *)
Lemma safe_path_head (p : Url.ParseResult) :
  match safe_path_of p with
  | String c _ => Py.is_slash c = false
  | EmptyString => False
  end.
Proof.
  unfold safe_path_of, Py.strip_by.
  pose proof (lstrip_by_head Py.is_slash (Url.path p)) as Hl.
  pose proof (rstrip_by_head Py.is_slash (Py.lstrip_by Py.is_slash (Url.path p))) as Hr.
  destruct (Py.lstrip_by Py.is_slash (Url.path p)) as [|c r].
  - reflexivity.
  - destruct (Py.rstrip_by Py.is_slash (String c r)) as [|c' r']; [reflexivity|].
    cbn [Py.truthy]. subst c'. exact Hl.
Qed.

(** What the code does: the name is the host, an underscore and the path, and
    [.html] follows exactly when the path holds no dot at all. *)
Lemma derived_name_html (p : Url.ParseResult) :
  derived_name p
  = safe_host_of p ++ "_" ++ safe_path_of p
      ++ (if Py.has_char "." (safe_path_of p) then "" else ".html").
Proof.
  unfold derived_name. destruct (Py.has_char "." (safe_path_of p)).
  - rewrite append_empty_r. reflexivity.
  - reflexivity.
Qed.

(** C6, at the input where the code leaves the claim: the last segment of the
    path [/v1.2/docs] has no extension, and so has the name of the saved
    file, yet [.html] is not appended, because an earlier segment holds a
    dot. *)
Theorem page_filename_dot_in_directory :
  page_filename polite "https://example.com/v1.2/docs" ""
    = Ret (PathLib.mkPath "" ["out"; "example.com_v1.2"; "docs"]) /\
  PathLib.name_suffix "docs" = "" /\
  PathLib.suffix (PathLib.mkPath "" ["out"; "example.com_v1.2"; "docs"]) = "" /\
  page_filename polite "https://example.com/docs" ""
    = Ret (PathLib.mkPath "" ["out"; "example.com_docs.html"]).
Proof. repeat split; reflexivity. Qed.

(** An explicit file name keeps its extension, and gets [.html] when it has
    none. *)
Lemma page_filename_custom (d : t) (url custom : string) (p : PathLib.Path) :
  Py.truthy custom = true ->
  page_filename d url custom = Ret p ->
  let given := PathLib.div (output_dir d) custom in
  (PathLib.suffix given <> "" ->
   p = PathLib.of_str (PathLib.to_str given)) /\
  (PathLib.suffix given = "" ->
   exists q, PathLib.with_suffix given ".html" = Ret q /\
             PathLib.name q = PathLib.name given ++ ".html" /\
             p = PathLib.of_str (PathLib.to_str q)).
Proof.
  intros Hc Hp given. unfold page_filename in Hp. rewrite Hc in Hp.
  fold given in Hp. split; intros Hs.
  - destruct (PathLib.suffix given) eqn:Hsuf; [contradiction|].
    cbn in Hp. congruence.
  - rewrite Hs in Hp. cbn [Py.truthy negb] in Hp.
    unfold PathLib.with_suffix in *. rewrite Hs in *. cbn [Py.truthy negb] in *.
    destruct (Py.truthy (PathLib.name given)); cbn in Hp; [|discriminate].
    eexists. split; [reflexivity|]. split.
    + unfold PathLib.name at 1. cbn [PathLib.parts]. apply last_last.
    + congruence.
Qed.

End PageStore.

(** ** Assets and the rewriting of the markup *)

Section Assets.
Import Downloader Sites.

(** C1, at the scenario of the specification: a page with one
    [<img src=/a.png>], fetched with [save_assets] and [rewrite_assets].  The
    image is saved under [out/assets/example.com/a.png] and the markup is
    rewritten in memory to point at [assets/example.com/a.png]; the page file
    on disk was written before the rewriting and is not written again: it
    still holds the original markup with the reference [/a.png]. *)
Theorem fetch_rewrites_in_memory_only :
  let run := fetch_full one_image polite "https://example.com/" false true true "" fresh in
  fst run = Ret (PathLib.mkPath "" ["out"; "example.com_index.html"],
                 "<html><img src=assets/example.com/a.png></html>") /\
  fs (snd run) !! "out/assets/example.com/a.png" = Some "PNGDATA" /\
  fs (snd run) !! "out/example.com_index.html" = Some "<html><img src=/a.png></html>" /\
  List.filter (fun e => match e with IoWrite _ _ => true | _ => false end) (trace (snd run))
    = [IoWrite "out/example.com_index.html" "<html><img src=/a.png></html>";
       IoWrite "out/assets/example.com/a.png" "PNGDATA"].
Proof. vm_compute. repeat split; reflexivity. Qed.

End Assets.

(** ** The WARC export *)

Section Warc.
Import Downloader Sites Crawler Runs.

(** C8, at an input where the code leaves the claim: the page
    [https://example.com/a/b.html] with one [<img src=/a.png>], fetched with
    [save_assets].  The page is saved as [out/example.com_a/b.html] and the
    image as [out/assets/example.com/a.png].  [export_warc] on the disk of
    that fetch writes the [warcinfo] record and the resource record of the
    page, and no record for the image, although its file is there: the
    export looks for it under the directory of the page file,
    [out/example.com_a/assets].  For the same page at the root of the site,
    saved as [out/example.com_index.html], the record of the image follows
    the record of the page. *)
Theorem export_warc_misses_assets :
  let nested := fetch nested_image polite "https://example.com/a/b.html"
                  false true true "" fresh in
  let root := fetch one_image polite "https://example.com/" false true true "" fresh in
  let info := Warcinfo "site.warc.gz"
                [("Software", "websitedownloaderpersonal/1.0");
                 ("Crawl-Start", "2023-11-14T22:13:20Z");
                 ("Pages-Crawled", "1"); ("Max-Depth", "0"); ("Max-Pages", "5");
                 ("Concurrency", "2"); ("Respect-Robots", "True")] in
  fst nested = Ret (PathLib.mkPath "" ["out"; "example.com_a"; "b.html"]) /\
  fs (snd nested) !! "out/example.com_a/b.html" = Some "<html><img src=/a.png></html>" /\
  fs (snd nested) !! "out/assets/example.com/a.png" = Some "PNGDATA" /\
  export_warc shallow nested_image (fs (snd nested))
    [mkResult "https://example.com/a/b.html" (Some "out/example.com_a/b.html") None]
    "site.warc.gz" "2023-11-14T22:13:20Z"
  = (Ret "site.warc.gz",
     [info; Resource "https://example.com/a/b.html" "<html><img src=/a.png></html>"]) /\
  fst root = Ret (PathLib.mkPath "" ["out"; "example.com_index.html"]) /\
  fs (snd root) !! "out/assets/example.com/a.png" = Some "PNGDATA" /\
  export_warc shallow one_image (fs (snd root))
    [mkResult "https://example.com/" (Some "out/example.com_index.html") None]
    "site.warc.gz" "2023-11-14T22:13:20Z"
  = (Ret "site.warc.gz",
     [info; Resource "https://example.com/" "<html><img src=/a.png></html>";
      Resource "https://example.com/a.png" "PNGDATA"]).
Proof. vm_compute. repeat split; reflexivity. Qed.

End Warc.

(** ** The crawl: invariants of the transition system *)

Section CrawlInvariants.
Import Crawler CrawlSpec.
Context (c : t) (E : Downloader.Env) (render_js save_assets rewrite_assets : bool).
Context (start_host : string).

Local Abbreviation step := (Crawler.step c E render_js save_assets rewrite_assets start_host).
Local Abbreviation run := (Crawler.run c E render_js save_assets rewrite_assets start_host).
Local Abbreviation work_step := (Crawler.work_step c E render_js save_assets rewrite_assets start_host).

(** An invariant of the steps holds along every run. *)
Lemma run_invariant (P : State -> Prop) :
  (forall st ev st', P st -> step st ev = Some st' -> P st') ->
  forall sched st st', P st -> run st sched = Some st' -> P st'.
Proof.
  intros Hstep. induction sched as [|ev rest IH]; intros st st' HP Hrun.
  - cbn in Hrun. congruence.
  - cbn [Crawler.run] in Hrun.
    destruct (step st ev) as [st1|] eqn:H1; [|discriminate].
    eapply IH; [eapply Hstep; eauto | exact Hrun].
Qed.

(** The tasks after a task has moved *)
Lemma lookup_set_pc (i j : nat) (p : pc) (st : State) (tk' : Task) :
  tasks (set_pc i p st) !! j = Some tk' ->
  (j <> i /\ tasks st !! j = Some tk') \/
  (j = i /\ exists tk, tasks st !! i = Some tk /\
                       tk' = mkTask (t_url tk) (t_depth tk) p).
Proof.
  cbn [tasks set_pc]. intros H.
  destruct (decide (j = i)) as [->|Hne].
  - right. split; [reflexivity|].
    rewrite list_lookup_alter_eq in H.
    destruct (tasks st !! i) as [tk|]; cbn in H; [|discriminate].
    exists tk. split; [reflexivity|congruence].
  - left. split; [exact Hne|].
    rewrite list_lookup_alter_ne in H by congruence. exact H.
Qed.

Ltac step_cases H :=
  unfold Crawler.step, Crawler.main_step, Crawler.work_step in H;
  repeat (case_match; simplify_eq).

Lemma domain_inv_step (st st' : State) (ev : event) :
  same_domain c = true ->
  domain_inv start_host st -> step st ev = Some st' -> domain_inv start_host st'.
Proof.
  intros Hsd (Hres & Hfetch & Htasks) Hstep.
  step_cases Hstep.
  all: try (split; [|split]; cbn; auto; fail).
  1: { (* a job is submitted *)
    split; [|split]; cbn [results fetch_calls tasks]; auto.
    intros j tk Hl Hp. apply lookup_snoc_Some in Hl as [[_ Hl]|[_ <-]]; [eauto|discriminate]. }
  all: match goal with
       | Ht : tasks _ !! ?i = Some ?t0, Hpc : t_pc ?t0 = _ |- _ =>
           pose proof (Htasks i t0 Ht) as Hhost; rewrite Hpc in Hhost; cbn in Hhost
       end.
  all: split; [|split];
    [ cbn; intros r Hr; rewrite ?in_app_iff in Hr; cbn in Hr;
      intuition (subst; cbn; auto)
    | cbn; intros u Hu; rewrite ?in_app_iff in Hu; cbn in Hu;
      intuition (subst; cbn; auto)
    | intros j tk' Hl Hp; apply lookup_set_pc in Hl; cbn [tasks set_lock stamp_host append_result log_fetch set_disk set_queue add_visited] in Hl;
      destruct Hl as [[? ?]|[-> (tk & Htk & ->)]]; [eauto|];
      simplify_eq; cbn in *; auto ].
  (* the host comparison has let the task through *)
  rewrite Hsd in *. cbn in *.
  match goal with
  | Hn : negb (_ =? _)%string = false |- _ =>
      apply negb_false_iff, String.eqb_eq in Hn; subst
  end.
  assumption.
Qed.

Lemma head_set_pc (i : nat) (p : pc) (st : State) (seed : string) :
  (exists tk rest, tasks st = tk :: rest /\ t_url tk = seed /\ t_depth tk = 0) ->
  exists tk rest, tasks (set_pc i p st) = tk :: rest /\ t_url tk = seed /\ t_depth tk = 0.
Proof.
  intros (tk & rest & Ht & Hu & Hd). cbn [tasks set_pc]. rewrite Ht.
  destruct i as [|i]; cbn; eauto.
Qed.

Lemma seed_inv_step (seed : string) (st st' : State) (ev : event) :
  seed_inv seed st -> step st ev = Some st' -> seed_inv seed st'.
Proof.
  intros (Hhead & Hfirst & Hjob) Hstep.
  step_cases Hstep.
  all: try (split; [|split]; cbn; eauto; fail).
  1: { (* a job is submitted *)
    split; [|split]; cbn [results tasks queue].
    - exact Hhead.
    - intros Hnil. destruct (Hfirst Hnil) as [Ht Hq]. split.
      + intros j tk Hl. apply lookup_snoc_Some in Hl as [[_ Hl]|[_ <-]]; [eauto|].
        cbn. split; [|reflexivity]. eapply Hq. left. reflexivity.
      + intros u d Hin. eapply Hq. right. exact Hin.
    - destruct Hjob as [[Ht Hq]|(tk & rest & Ht & Hu & Hd)]; right.
      + rewrite Ht. inversion Hq; subst. cbn. eauto.
      + rewrite Ht. cbn. eauto. }
  all: match goal with
       | Ht : tasks _ !! ?i = Some ?t0 |- _ =>
           destruct Hjob as [[Hnone _]|Hjob];
           [rewrite Hnone in Ht; discriminate|];
           assert (Hme : results st = [] -> t_url t0 = seed /\ past_result (t_pc t0) = false)
             by (intros Hnil; exact (proj1 (Hfirst Hnil) i t0 Ht))
       end.
  all: split; [|split]; [ | | right; apply head_set_pc; exact Hjob ].
  (* the first result *)
  all: try (cbn [results set_lock stamp_host append_result log_fetch set_disk
                 set_queue add_visited set_pc]; exact Hhead).
  all: try (cbn [results set_lock stamp_host append_result log_fetch set_disk
                 set_queue add_visited set_pc];
            intros r rs Hr; destruct (results st) as [|r0 rs0] eqn:Hres;
            [ cbn in Hr; inversion Hr; subst; cbn; exact (proj1 (Hme eq_refl))
            | cbn in Hr; inversion Hr; subst; eapply Hhead; reflexivity ]).
  (* before the first result *)
  all: intros Hnil;
       cbn [results set_lock stamp_host append_result log_fetch set_disk
            set_queue add_visited set_pc] in Hnil.
  all: try (apply app_eq_nil in Hnil as [_ Hnil]; discriminate).
  all: destruct (Hfirst Hnil) as [Ht Hq]; destruct (Hme Hnil) as [Hu Hp].
  all: match goal with
       | Hpc : t_pc ?t0 = _ |- _ => rewrite Hpc in Hp; cbn in Hp; try discriminate
       end.
  all: split;
    [ intros j tk' Hl; apply lookup_set_pc in Hl;
      cbn [tasks set_lock stamp_host append_result log_fetch set_disk
           set_queue add_visited] in Hl;
      destruct Hl as [[Hne Hl]|[-> (tk & Htk & ->)]]; [eauto|];
      simplify_eq; cbn; auto
    | cbn [queue set_lock stamp_host append_result log_fetch set_disk
           set_queue add_visited set_pc]; exact Hq ].
Qed.

Ltac state_simpl :=
  cbn [tasks results queue visited fetch_calls clock mono lock host_last files
       set_pc set_lock stamp_host append_result log_fetch set_disk set_queue add_visited] in *.

Lemma depth_inv_step (st st' : State) (ev : event) :
  depth_inv c st -> step st ev = Some st' -> depth_inv c st'.
Proof.
  intros (Hq & Ht) Hstep.
  step_cases Hstep.
  all: try (split; cbn; eauto; fail).
  1: { split; cbn [queue tasks].
       - intros u0 d0 Hin. eapply Hq. right. exact Hin.
       - intros j tk Hl. apply lookup_snoc_Some in Hl as [[_ Hl]|[_ <-]]; [eauto|].
         cbn. split; [eapply Hq; left; reflexivity|discriminate]. }
  all: match goal with
       | Hl : tasks _ !! ?i = Some ?t0, Hpc : t_pc ?t0 = _ |- _ =>
           pose proof (Ht i t0 Hl) as [Hme Hdeep]; rewrite Hpc in Hdeep; cbn in Hdeep
       end.
  all: split;
    [ state_simpl; try exact Hq
    | intros j tk' Hl; apply lookup_set_pc in Hl; state_simpl;
      destruct Hl as [[Hne Hl]|[-> (tk & Htk & ->)]]; [eauto|];
      simplify_eq; cbn; split; [exact Hme|]; intros; try discriminate; auto ].
  all: try match goal with
       | Hlt : (_ <? _) = true |- _ => apply Z.ltb_lt in Hlt
       end; try lia.
  (* a link is enqueued *)
  intros u0 d0 Hin. apply in_app_iff in Hin as [Hin|[Hin|[]]]; [eauto|].
  simplify_eq. specialize (Hdeep eq_refl). lia.
Qed.

Lemma results_inv_step (st st' : State) (ev : event) :
  results_inv st -> step st ev = Some st' -> results_inv st'.
Proof.
  intros Hres Hstep.
  step_cases Hstep.
  all: try (exact Hres).
  all: intros r Hr; state_simpl; rewrite ?in_app_iff in *; cbn [In] in *.
  all: repeat match goal with
       | Hr : _ \/ _ |- _ => destruct Hr as [Hr|Hr]
       | Hr : False |- _ => destruct Hr
       end.
  all: try (destruct (Hres r Hr) as [Hwf Hf]; split; [exact Hwf|]; intros Hs;
            rewrite ?in_app_iff; auto; fail).
  all: subst r; cbn; split;
    [ first [ left; split; [eexists; reflexivity|reflexivity]
            | right; split; [reflexivity|eexists; reflexivity] ]
    | intros [p Hp]; try discriminate; rewrite ?in_app_iff; cbn; auto ].
Qed.

Lemma visited_inv_step (st st' : State) (ev : event) :
  visited_inv st -> step st ev = Some st' -> visited_inv st'.
Proof.
  intros (Hres & Hfetch & Ht) Hstep.
  step_cases Hstep.
  all: try (split; [|split]; cbn; eauto; fail).
  1: { split; [|split]; cbn [results fetch_calls tasks visited]; auto.
       intros j tk Hl Hp. apply lookup_snoc_Some in Hl as [[_ Hl]|[_ <-]]; [eauto|discriminate]. }
  all: match goal with
       | Hl : tasks _ !! ?i = Some ?t0, Hpc : t_pc ?t0 = _ |- _ =>
           pose proof (Ht i t0 Hl) as Hme; rewrite Hpc in Hme; cbn in Hme
       end.
  all: split; [|split];
    [ state_simpl; intros r Hr; rewrite ?in_app_iff in Hr; cbn [In] in Hr;
      intuition (subst; cbn; auto; try set_solver)
    | state_simpl; intros u Hu; rewrite ?in_app_iff in Hu; cbn [In] in Hu;
      intuition (subst; cbn; auto; try set_solver)
    | intros j tk' Hl Hp; apply lookup_set_pc in Hl; state_simpl;
      destruct Hl as [[Hne Hl]|[-> (tk & Htk & ->)]];
      [ specialize (Ht j tk' Hl Hp); try set_solver
      | simplify_eq; cbn in *; try discriminate; auto; try set_solver ] ].
Qed.

Lemma queue_inv_step (st st' : State) (ev : event) :
  queue_inv c st -> step st ev = Some st' -> queue_inv c st'.
Proof.
  unfold queue_inv. intros Hq Hstep.
  step_cases Hstep; state_simpl; try exact Hq.
  - cbn [length] in Hq. lia.
  - rewrite length_app. cbn [length].
    unfold accepts_link in *.
    repeat match goal with
    | H : _ && _ = true |- _ => apply andb_true_iff in H as [? ?]
    end.
    match goal with H : (_ <? _) = true |- _ => apply Z.ltb_lt in H end. lia.
Qed.

Lemma grows_refl (st : State) : grows st st.
Proof. repeat split; try reflexivity. Qed.

Lemma grows_trans (a b d : State) : grows a b -> grows b d -> grows a d.
Proof.
  intros (H1 & H2 & H3) (H1' & H2' & H3').
  repeat split; try (etransitivity; eassumption).
Qed.

Lemma grows_step (st st' : State) (ev : event) :
  step st ev = Some st' -> grows st st'.
Proof.
  intros Hstep. step_cases Hstep.
  all: repeat split; state_simpl; try reflexivity;
       try apply prefix_app_r; try reflexivity; try set_solver; try lia.
Qed.

Lemma grows_run (sched : list event) (st st' : State) :
  run st sched = Some st' -> grows st st'.
Proof.
  revert st. induction sched as [|ev rest IH]; intros st Hrun.
  - cbn in Hrun. inversion Hrun. apply grows_refl.
  - cbn [Crawler.run] in Hrun. destruct (step st ev) as [st1|] eqn:H1; [|discriminate].
    eapply grows_trans; [eapply grows_step; eauto|eauto].
Qed.

Lemma busy_running (l : list Task) :
  Z.of_nat (length (List.filter is_running l)) = total busy l.
Proof.
  induction l as [|tk l IH]; [reflexivity|].
  cbn [List.filter total fold_right]. fold (total busy l). rewrite <- IH.
  unfold is_running, is_queued, is_done.
  destruct (t_pc tk); cbn; lia.
Qed.

Lemma total_snoc (f : pc -> Z) (l : list Task) (tk : Task) :
  total f (l ++ [tk]) = total f l + f (t_pc tk).
Proof.
  induction l as [|a l IH]; cbn; [lia|].
  fold (total f (l ++ [tk])). fold (total f l). lia.
Qed.

Lemma total_alter (f : pc -> Z) (i : nat) (p : pc) (l : list Task) (tk : Task) :
  l !! i = Some tk ->
  total f (alter (fun t => mkTask (t_url t) (t_depth t) p) i l)
  = total f l - f (t_pc tk) + f p.
Proof.
  revert i. induction l as [|a l IH]; intros [|i] Hl; try discriminate.
  - cbn in Hl. inversion Hl; subst. cbn. lia.
  - cbn in Hl. cbn. fold (total f l).
    fold (total f (alter (fun t => mkTask (t_url t) (t_depth t) p) i l)).
    rewrite (IH i Hl). lia.
Qed.

Lemma load_le_busy (p : pc) : 0 <= load p <= 2 * busy p.
Proof. destruct p; cbn; lia. Qed.

Lemma total_gap (l : list Task) (i : nat) (tk : Task) :
  l !! i = Some tk ->
  2 * busy (t_pc tk) - load (t_pc tk) <= 2 * total busy l - total load l.
Proof.
  revert i. induction l as [|a l IH]; intros [|i] Hl; try discriminate.
  - cbn in Hl. inversion Hl; subst. cbn. fold (total busy l). fold (total load l).
    assert (total load l <= 2 * total busy l).
    { clear. induction l as [|a l IH]; cbn; [lia|].
      fold (total busy l). fold (total load l).
      pose proof (load_le_busy (t_pc a)). lia. }
    lia.
  - cbn in Hl. cbn. fold (total busy l). fold (total load l).
    pose proof (IH i Hl). pose proof (load_le_busy (t_pc a)). lia.
Qed.

Lemma overshoot_inv_step (st st' : State) (ev : event) :
  0 < concurrency c ->
  overshoot_inv c st -> step st ev = Some st' -> overshoot_inv c st'.
Proof.
  unfold overshoot_inv. intros Hc (Hbusy & Hload) Hstep.
  step_cases Hstep; state_simpl.
  all: try (split; assumption).
  1: { rewrite !total_snoc. cbn. split; lia. }
  all: match goal with
       | Hl : tasks _ !! ?i = Some ?t0, Hpc : t_pc ?t0 = _ |- _ =>
           pose proof (total_gap _ _ _ Hl) as Hgap;
           rewrite !(total_alter _ _ _ _ _ Hl); rewrite Hpc in *; cbn [busy load] in *
       end.
  all: rewrite ?length_app; cbn [length].
  all: repeat match goal with
       | H : _ && _ = true |- _ => apply andb_true_iff in H as [? ?]
       end.
  all: rewrite ?busy_running in *.
  all: split; lia.
Qed.

Lemma idle_inv_step (st st' : State) (ev : event) :
  max_pages c <= 0 ->
  idle_inv st -> step st ev = Some st' -> idle_inv st'.
Proof.
  intros Hmax (Ht & Hr & Hf) Hstep.
  unfold Crawler.step, Crawler.main_step in Hstep.
  destruct ev as [|i|dt|d].
  - rewrite Hr in Hstep. cbn [length] in Hstep.
    repeat (case_match; simplify_eq); try (repeat split; assumption).
    match goal with H : (_ <? _) = true |- _ => apply Z.ltb_lt in H; cbn in H end.
    exfalso. lia.
  - rewrite Ht in Hstep. discriminate.
  - repeat (case_match; simplify_eq). repeat split; assumption.
  - simplify_eq. repeat split; assumption.
Qed.

Lemma alone_inv_step (seed : string) (st st' : State) (ev : event) :
  max_depth c <= 0 ->
  alone_inv seed st -> step st ev = Some st' -> alone_inv seed st'.
Proof.
  intros Hmax (Hinv & Hres & Hfetch) Hstep.
  destruct ev as [|i|dt|d]; cbn [Crawler.step] in Hstep.
  - unfold main_step in Hstep.
    destruct Hinv as [[Ht Hq]|(tk & Ht & Hq & Hu & Hd & Hp)].
    + rewrite Hq, Ht in Hstep.
      repeat (case_match; simplify_eq).
      all: split; [|split; assumption]; state_simpl.
      all: first [ left; split; reflexivity
                 | right; eexists; repeat split; reflexivity ].
    + rewrite Hq in Hstep.
      repeat (case_match; simplify_eq).
      all: split; [|split; assumption]; state_simpl; right; exists tk; auto.
  - destruct Hinv as [[Ht Hq]|(tk & Ht & Hq & Hu & Hd & Hp)].
    + rewrite Ht in Hstep. discriminate.
    + rewrite Ht in Hstep. destruct i as [|i]; cbn in Hstep; [|discriminate].
      unfold work_step in Hstep. rewrite Hd in Hstep.
      repeat (case_match; simplify_eq).
      all: try (exfalso; lia).
      all: try match goal with
               | H : t_pc _ = _ |- _ => rewrite H in Hp; discriminate
               end.
      all: split; [|split]; state_simpl; rewrite ?Ht, ?Hq; cbn.
      all: try assumption.
      all: try (right; eexists; repeat split; try reflexivity; try assumption; fail).
      all: try (intros r Hr; rewrite in_app_iff in Hr; cbn [In] in Hr;
                destruct Hr as [Hr|[<-|[]]]; [auto|reflexivity]).
      all: try (intros u Hu'; rewrite in_app_iff in Hu'; cbn [In] in Hu';
                destruct Hu' as [Hu'|[<-|[]]]; [auto|reflexivity]).
  - repeat (case_match; simplify_eq). split; [|split]; assumption.
  - simplify_eq. split; [|split]; assumption.
Qed.

End CrawlInvariants.

(** ** [str.strip] *)

Section Stripping.
Context (p : ascii -> bool).

Lemma lstrip_by_split (s : string) :
  exists l, s = l ++ Py.lstrip_by p s /\ Py.forallb_str p l = true.
Proof.
  induction s as [|ch s IH].
  - exists "". split; reflexivity.
  - cbn [Py.lstrip_by]. destruct (p ch) eqn:Hp.
    + destruct IH as (l & Hs & Hl). exists (String ch l). split.
      * change (String ch l ++ Py.lstrip_by p s) with (String ch (l ++ Py.lstrip_by p s)).
        rewrite <- Hs. reflexivity.
      * cbn. rewrite Hp, Hl. reflexivity.
    + exists "". split; reflexivity.
Qed.

Lemma rstrip_by_split (s : string) :
  exists r, s = Py.rstrip_by p s ++ r /\ Py.forallb_str p r = true.
Proof.
  induction s as [|ch s IH].
  - exists "". split; reflexivity.
  - destruct IH as (r & Hs & Hr). cbn [Py.rstrip_by].
    destruct (Py.rstrip_by p s) as [|a s0] eqn:Hrs.
    + change ("" ++ r) with r in Hs. subst r. destruct (p ch) eqn:Hp.
      * exists (String ch s). split; [reflexivity|]. cbn. rewrite Hp, Hr. reflexivity.
      * exists s. split; [reflexivity|exact Hr].
    + exists r. split; [|exact Hr].
      change (String ch (String a s0) ++ r) with (String ch (String a s0 ++ r)).
      rewrite <- Hs. reflexivity.
Qed.

Lemma lstrip_by_fixed (s : string) :
  match s with String ch _ => p ch = false | EmptyString => True end ->
  Py.lstrip_by p s = s.
Proof. destruct s as [|ch s]; [reflexivity|]. cbn. intros ->. reflexivity. Qed.

Lemma rstrip_by_idem (s : string) :
  Py.rstrip_by p (Py.rstrip_by p s) = Py.rstrip_by p s.
Proof.
  induction s as [|ch s IH]; [reflexivity|].
  cbn [Py.rstrip_by]. destruct (Py.rstrip_by p s) as [|a s0] eqn:Hrs.
  - destruct (p ch) eqn:Hp; [reflexivity|]. cbn. rewrite Hp. reflexivity.
  - cbn [Py.rstrip_by]. cbn [Py.rstrip_by] in IH. rewrite IH. reflexivity.
Qed.

Lemma strip_by_idem (s : string) :
  Py.strip_by p (Py.strip_by p s) = Py.strip_by p s.
Proof.
  unfold Py.strip_by.
  rewrite (lstrip_by_fixed (Py.rstrip_by p (Py.lstrip_by p s))).
  - apply rstrip_by_idem.
  - pose proof (lstrip_by_head p s) as Hl.
    pose proof (rstrip_by_head p (Py.lstrip_by p s)) as Hr.
    destruct (Py.lstrip_by p s) as [|ch r]; [exact I|].
    destruct (Py.rstrip_by p (String ch r)) as [|ch' r']; [exact I|].
    subst ch'. exact Hl.
Qed.

Lemma strip_by_split (s : string) :
  exists l r, s = l ++ Py.strip_by p s ++ r /\
              Py.forallb_str p l = true /\ Py.forallb_str p r = true.
Proof.
  destruct (lstrip_by_split s) as (l & Hs & Hl).
  destruct (rstrip_by_split (Py.lstrip_by p s)) as (r & Hm & Hr).
  exists l, r. unfold Py.strip_by. rewrite <- Hm. auto.
Qed.

End Stripping.

(** ** The trace of a fetch *)

Section Frames.
Import Downloader TraceSpec.
Context (P : io -> Prop).

Lemma adds_ret {A} (a : A) : adds P (io_ret a).
Proof. intros w. exists []. cbn. rewrite app_nil_r. auto. Qed.

Lemma adds_raise {A} (e : exn) : adds P (@io_raise A e).
Proof. intros w. exists []. cbn. rewrite app_nil_r. auto. Qed.

Lemma adds_lift {A} (o : outcome A) : adds P (io_lift o).
Proof. intros w. exists []. cbn. rewrite app_nil_r. auto. Qed.

Lemma adds_bind {A B} (c : IO A) (k : A -> IO B) :
  adds P c -> (forall a, adds P (k a)) -> adds P (c ≫= k).
Proof.
  intros Hc Hk w. unfold mbind, io_mbind, io_bind.
  destruct (Hc w) as (e1 & H1 & F1).
  destruct (c w) as [[a|e] w1]; cbn [snd] in *.
  - destruct (Hk a w1) as (e2 & H2 & F2).
    exists (e1 ++ e2)%list. rewrite H2, H1, app_assoc. split; [reflexivity|].
    apply Forall_app; auto.
  - exists e1. auto.
Qed.

Lemma adds_try {A} (c : IO A) (h : exn -> IO A) :
  adds P c -> (forall e, adds P (h e)) -> adds P (io_try c h).
Proof.
  intros Hc Hh w. unfold io_try.
  destruct (Hc w) as (e1 & H1 & F1).
  destruct (c w) as [[a|e] w1]; cbn [snd] in *.
  - exists e1. auto.
  - destruct (Hh e w1) as (e2 & H2 & F2).
    exists (e1 ++ e2)%list. rewrite H2, H1, app_assoc. split; [reflexivity|].
    apply Forall_app; auto.
Qed.

Lemma adds_emit (e : io) : P e -> adds P (emit e).
Proof. intros He w. exists [e]. cbn. auto. Qed.

Lemma adds_set_ua (ua : string) : adds P (set_ua ua).
Proof. intros w. exists []. cbn. rewrite app_nil_r. auto. Qed.

Lemma adds_write (p content : string) : P (IoWrite p content) -> adds P (write_file p content).
Proof.
  intros He w. unfold write_file. destruct (Disk.write_error (fs w) p).
  - exists []. cbn. rewrite app_nil_r. auto.
  - exists [IoWrite p content]. cbn. auto.
Qed.

Lemma adds_get_checked (E : Env) (url : string) :
  (forall ua, P (IoGet url ua)) -> adds P (get_checked E url).
Proof. intros He w. exists [IoGet url (session_ua w)]. cbn. auto. Qed.

Lemma adds_static_loop (E : Env) (url : string) (attempts : list nat) :
  (forall ua, P (IoGet url ua)) -> (forall s, P (IoSleep s)) ->
  adds P (static_loop E url attempts).
Proof.
  intros Hg Hs. induction attempts as [|a rest IH]; cbn [static_loop].
  - apply adds_raise.
  - apply adds_bind; [apply adds_set_ua|]. intros _.
    apply adds_try.
    + apply adds_bind; [apply adds_get_checked; exact Hg|]. intros r. apply adds_ret.
    + intros e. destruct (is_RequestException e); [|apply adds_raise].
      destruct (a =? 7)%nat; [apply adds_raise|].
      apply adds_bind; [apply adds_emit, Hs|]. intros _. exact IH.
Qed.

Lemma adds_get_stream (E : Env) (url : string) (n left : nat) :
  (forall ua, P (IoGet url ua)) -> (forall s, P (IoSleep s)) ->
  adds P (get_stream E url n left).
Proof.
  intros Hg Hs. revert n. induction left as [|left IH]; intros n; cbn [get_stream].
  - apply adds_try.
    + apply adds_bind; [apply adds_get_checked; exact Hg|]. intros r. apply adds_ret.
    + intros e. destruct (is_RequestException e); apply adds_raise.
  - apply adds_try.
    + apply adds_bind; [apply adds_get_checked; exact Hg|]. intros r. apply adds_ret.
    + intros e. destruct (is_RequestException e); [|apply adds_raise].
      apply adds_bind; [apply adds_emit, Hs|]. intros _. apply IH.
Qed.

Lemma adds_fetch_rendered (E : Env) (url : string) :
  P (IoRender url) -> adds P (fetch_rendered E url).
Proof. intros He w. exists [IoRender url]. cbn. auto. Qed.

End Frames.

Section NoRobots.
Import Downloader TraceSpec.
Context (E : Env) (d : t).
Hypothesis Hoff : respect_robots d = false.

Lemma allowed_by_robots_off (url : string) : allowed_by_robots E d url = io_ret true.
Proof. unfold allowed_by_robots. rewrite Hoff. reflexivity. Qed.

Lemma download_asset_no_robots (url : string) : adds no_robots (_download_asset E d url).
Proof.
  unfold _download_asset. rewrite allowed_by_robots_off.
  apply adds_bind; [apply adds_ret|]. intros allowed.
  destruct (negb allowed); [apply adds_ret|].
  apply adds_bind; [apply adds_get_stream; intros; exact I|]. intros chunks.
  apply adds_bind; [apply adds_lift|]. intros parsed.
  apply adds_bind; [apply adds_write; exact I|]. intros _. apply adds_ret.
Qed.

Lemma save_and_replace_no_robots (base : string) (b : bool) (tag : Tag) (u : string) :
  adds no_robots (save_and_replace E d base b tag u).
Proof.
  unfold save_and_replace. apply adds_try; [|intros; apply adds_ret].
  apply adds_bind; [apply adds_lift|]. intros full.
  apply adds_bind; [apply download_asset_no_robots|]. intros [l|]; apply adds_ret.
Qed.

Lemma rewrite_pass_no_robots (base : string) (pick : Tag -> option (bool * string))
    (soup : list Tag) :
  adds no_robots (rewrite_pass E d base pick soup).
Proof.
  induction soup as [|tag rest IH]; cbn [rewrite_pass]; [apply adds_ret|].
  apply adds_bind.
  - destruct (pick tag) as [[b u]|]; [apply save_and_replace_no_robots|apply adds_ret].
  - intros tag'. apply adds_bind; [exact IH|]. intros rest'. apply adds_ret.
Qed.

Lemma download_all_no_robots (assets : list string) :
  adds no_robots (download_all E d assets).
Proof.
  induction assets as [|a rest IH]; cbn [download_all]; [apply adds_ret|].
  apply adds_bind; [|intros _; exact IH].
  apply adds_try; [|intros; apply adds_ret].
  apply adds_bind; [apply download_asset_no_robots|]. intros _.
  apply adds_emit. exact I.
Qed.

(** With [respect_robots=False], [fetch] never asks for a robots.txt:
    neither for the page nor for any asset, with or without the rewriting. *)
Theorem fetch_without_robots (url : string) (render_js save_assets rewrite_assets : bool)
    (custom : string) :
  adds no_robots (fetch E d url render_js save_assets rewrite_assets custom).
Proof.
  unfold fetch, fetch_full. rewrite allowed_by_robots_off.
  apply adds_bind; [|intros r; apply adds_ret].
  apply adds_bind; [apply adds_ret|]. intros allowed.
  destruct (negb allowed); [apply adds_raise|].
  apply adds_bind.
  { destruct render_js.
    - apply adds_fetch_rendered. exact I.
    - apply adds_static_loop; intros; exact I. }
  intros content. apply adds_bind; [apply adds_lift|]. intros filename.
  apply adds_bind; [apply adds_write; exact I|]. intros _.
  apply adds_bind; [|intros c; apply adds_ret].
  destruct save_assets; [|apply adds_ret].
  apply adds_bind; [apply adds_lift|]. intros assets.
  destruct rewrite_assets.
  - unfold _rewrite_assets_and_save.
    apply adds_bind; [apply rewrite_pass_no_robots|]. intros s1.
    apply adds_bind; [apply rewrite_pass_no_robots|]. intros s2.
    apply adds_bind; [apply rewrite_pass_no_robots|]. intros s3.
    apply adds_ret.
  - apply adds_bind; [apply download_all_no_robots|]. intros _. apply adds_ret.
Qed.

End NoRobots.

(** ** What [fetch] writes *)

Section FetchFacts.
Import Downloader RetrySpec TraceSpec.
Context (E : Env) (d : t).

(** The robots gate reads; it writes nothing and changes no header. *)
Lemma allowed_by_robots_frame (url : string) (w : World) :
  fs (snd (allowed_by_robots E d url w)) = fs w /\
  session_ua (snd (allowed_by_robots E d url w)) = session_ua w /\
  (trace (snd (allowed_by_robots E d url w)) = trace w \/
   exists robots_url,
     trace (snd (allowed_by_robots E d url w)) = (trace w ++ [IoRobots robots_url])%list).
Proof.
  unfold allowed_by_robots. destruct (respect_robots d); cbn [negb]; [|cbn; auto].
  unfold mbind, io_mbind, io_bind, io_lift, _get_robots_parser.
  destruct (Url.urlparse url) as [parsed|e]; [|cbn; auto].
  unfold mbind, io_mbind, io_bind, io_lift.
  destruct (Url.urljoin _ "/robots.txt") as [robots_url|e]; [|cbn; auto].
  cbn. repeat split; eauto.
Qed.

(** A denial by the robots gate ends [fetch] at once: it raises
    PermissionError, the only action was the request for robots.txt, no page
    is requested and nothing is written. *)
Theorem fetch_denied_by_robots (url : string) (render_js save_assets rewrite_assets : bool)
    (custom : string) (w : World) :
  fst (allowed_by_robots E d url w) = Ret false ->
  fst (fetch E d url render_js save_assets rewrite_assets custom w)
    = Raise (PermissionError "Fetching disallowed by robots.txt") /\
  fs (snd (fetch E d url render_js save_assets rewrite_assets custom w)) = fs w /\
  exists robots_url,
    trace (snd (fetch E d url render_js save_assets rewrite_assets custom w))
    = (trace w ++ [IoRobots robots_url])%list.
Proof.
  intros Hden.
  pose proof (allowed_by_robots_frame url w) as (Hfs & _ & Htr).
  assert (Hrun : fetch E d url render_js save_assets rewrite_assets custom w
                 = (Raise (PermissionError "Fetching disallowed by robots.txt"),
                    snd (allowed_by_robots E d url w))).
  { unfold fetch, fetch_full, mbind, io_mbind, io_bind.
    destruct (allowed_by_robots E d url w) as [[[|]|e] w1]; cbn in Hden; try discriminate.
    reflexivity. }
  rewrite Hrun. cbn [fst snd]. split; [reflexivity|]. split; [exact Hfs|].
  destruct Htr as [Htr|Htr]; [|exact Htr].
  (* the gate answered without a request: robots are not respected *)
  exfalso. unfold allowed_by_robots in Hden, Htr.
  destruct (respect_robots d); cbn [negb] in *; [|cbn in Hden; discriminate].
  unfold mbind, io_mbind, io_bind, io_lift, _get_robots_parser in Hden, Htr.
  destruct (Url.urlparse url) as [parsed|e]; [|cbn in Hden; discriminate].
  unfold mbind, io_mbind, io_bind, io_lift in Hden, Htr.
  destruct (Url.urljoin _ "/robots.txt") as [robots_url|e]; [|cbn in Hden; discriminate].
  cbn in Htr. apply (f_equal (@length io)) in Htr. rewrite length_app in Htr. cbn in Htr. lia.
Qed.

Lemma fetch_static_frame (url : string) (w : World) :
  fs (snd (fetch_static E url w)) = fs w.
Proof.
  unfold fetch_static.
  destruct (static_loop_spec E url 7 0 w eq_refl) as (n & _ & _ & Hfs & _). exact Hfs.
Qed.

(** *** The actions of the asset phase only add to the trace *)

Lemma allowed_by_robots_adds (url : string) : adds anything (allowed_by_robots E d url).
Proof.
  intros w. destruct (allowed_by_robots_frame url w) as (_ & _ & [H|[r H]]).
  - exists []. rewrite app_nil_r. auto.
  - exists [IoRobots r]. split; [exact H|]. repeat constructor.
Qed.

Lemma download_asset_adds (url : string) : adds anything (_download_asset E d url).
Proof.
  unfold _download_asset.
  apply adds_bind; [apply allowed_by_robots_adds|]. intros allowed.
  destruct (negb allowed); [apply adds_ret|].
  apply adds_bind; [apply adds_get_stream; intros; exact I|]. intros chunks.
  apply adds_bind; [apply adds_lift|]. intros parsed.
  apply adds_bind; [apply adds_write; exact I|]. intros _. apply adds_ret.
Qed.

Lemma save_and_replace_adds (base : string) (b : bool) (tag : Tag) (u : string) :
  adds anything (save_and_replace E d base b tag u).
Proof.
  unfold save_and_replace. apply adds_try; [|intros; apply adds_ret].
  apply adds_bind; [apply adds_lift|]. intros full.
  apply adds_bind; [apply download_asset_adds|]. intros [l|]; apply adds_ret.
Qed.

Lemma rewrite_pass_adds (base : string) (pick : Tag -> option (bool * string))
    (soup : list Tag) :
  adds anything (rewrite_pass E d base pick soup).
Proof.
  induction soup as [|tag rest IH]; cbn [rewrite_pass]; [apply adds_ret|].
  apply adds_bind.
  - destruct (pick tag) as [[b u]|]; [apply save_and_replace_adds|apply adds_ret].
  - intros tag'. apply adds_bind; [exact IH|]. intros rest'. apply adds_ret.
Qed.

Lemma download_all_adds (assets : list string) :
  adds anything (download_all E d assets).
Proof.
  induction assets as [|a rest IH]; cbn [download_all]; [apply adds_ret|].
  apply adds_bind; [|intros _; exact IH].
  apply adds_try; [|intros; apply adds_ret].
  apply adds_bind; [apply download_asset_adds|]. intros _.
  apply adds_emit. exact I.
Qed.

(** C5. In static mode, once the robots gate has let the call pass, [fetch]
    issues [n + 1 <= 8] GETs for the page, the user agent rotating with the
    attempt.  Each of the first [n] attempts failed with a RequestException
    and is followed by a sleep of [min(2^a, 16)] seconds and the next GET.
    [fetch] then goes on from the outcome of the last GET: when that is an
    exception, [fetch] raises it, having done nothing after that GET and
    written nothing, and a RequestException ends the call at the eighth
    attempt only; when it is a text, the next action is the write of that
    text to the page file, unless the file has no name or cannot be written,
    and then [fetch] raises.  When every attempt fails at the transport
    level, eight GETs are issued and [fetch] raises the last transport
    error. *)
Theorem fetch_static_retries (url : string) (save_assets rewrite_assets : bool)
    (custom : string) (w : World) :
  fst (allowed_by_robots E d url w) = Ret true ->
  exists n : nat,
    (n <= 7)%nat /\
    length (gets (retry_prefix url 0 n ++ [IoGet url (ua_of n)])) = S n /\
    sleeps (retry_prefix url 0 n ++ [IoGet url (ua_of n)])
      = List.map (fun a => Seconds (Z.min (2 ^ Z.of_nat a) 16)) (seq 0 n) /\
    (forall a, (a < n)%nat ->
       exists e,
         checked (http_get E (trace (snd (allowed_by_robots E d url w))
                                ++ retry_prefix url 0 a)%list url) = Raise e /\
         is_RequestException e = true) /\
    (exists rest,
       trace (snd (fetch E d url false save_assets rewrite_assets custom w))
       = (trace (snd (allowed_by_robots E d url w))
            ++ retry_prefix url 0 n ++ [IoGet url (ua_of n)] ++ rest)%list /\
       match checked (http_get E (trace (snd (allowed_by_robots E d url w))
                                    ++ retry_prefix url 0 n)%list url) with
       | Raise e =>
           rest = [] /\
           fst (fetch E d url false save_assets rewrite_assets custom w) = Raise e /\
           fs (snd (fetch E d url false save_assets rewrite_assets custom w)) = fs w /\
           (is_RequestException e = true -> n = 7%nat)
       | Ret (text, _) =>
           match page_filename d url custom with
           | Ret filename =>
               match Disk.write_error (fs w) (PathLib.to_str filename) with
               | None =>
                   exists rest', rest = IoWrite (PathLib.to_str filename) text :: rest'
               | Some e =>
                   rest = [] /\
                   fst (fetch E d url false save_assets rewrite_assets custom w) = Raise e
               end
           | Raise e =>
               rest = [] /\
               fst (fetch E d url false save_assets rewrite_assets custom w) = Raise e
           end
       end) /\
    ((forall tr, exists m, checked (http_get E tr url) = Raise (RequestException m)) ->
     n = 7%nat /\
     exists m, fst (fetch E d url false save_assets rewrite_assets custom w)
               = Raise (RequestException m)).
Proof.
  intros Hallowed.
  pose proof (allowed_by_robots_frame url w) as (Hfs0 & _ & _).
  destruct (allowed_by_robots E d url w) as [r0 w0] eqn:Hgate.
  cbn [fst snd] in *. subst r0.
  destruct (static_loop_spec E url 7 0 w0 eq_refl) as (n & Hn & Htr & Hfs & Hres & Hlast).
  destruct (static_loop_failed E url 7 0 w0 eq_refl) as (n' & Hn' & Htr' & _ & Hfail).
  assert (n' = n) as ->.
  { rewrite Htr in Htr'. apply app_inv_head in Htr'.
    apply (f_equal (fun l => length (gets l))) in Htr'.
    rewrite !gets_retry_prefix in Htr'. cbn in Htr'. lia. }
  cbn [Nat.add] in *. fold (fetch_static E url) in *.
  exists n. split; [exact Hn|].
  split; [rewrite gets_retry_prefix; cbn; lia|].
  split; [rewrite sleeps_retry_prefix; cbn; apply app_nil_r|].
  split; [exact Hfail|].
  assert (Hrun : fetch E d url false save_assets rewrite_assets custom w
    = match fetch_static E url w0 with
      | (Ret content, w1) =>
          match page_filename d url custom with
          | Ret filename =>
              match Disk.write_error (fs w1) (PathLib.to_str filename) with
              | Some e => (Raise e, w1)
              | None =>
              let w2 := mkWorld (<[PathLib.to_str filename := content]> (fs w1))
                          (session_ua w1)
                          (trace w1 ++ [IoWrite (PathLib.to_str filename) content])%list in
              ((r ← (content ←
                      (if save_assets then
                         assets ← io_lift (_parse_assets E content url);
                         if rewrite_assets
                         then _rewrite_assets_and_save E d content url assets
                         else (_ ← download_all E d assets; io_ret content)
                       else io_ret content);
                    io_ret (filename, content));
                io_ret (fst r)) : IO PathLib.Path) w2
              end
          | Raise e => (Raise e, w1)
          end
      | (Raise e, w1) => (Raise e, w1)
      end).
  { unfold fetch, fetch_full. unfold mbind at 1 2 3. unfold io_mbind, io_bind at 1 2 3.
    rewrite Hgate. cbn [negb].
    destruct (fetch_static E url w0) as [[content|e] w1]; [|reflexivity].
    unfold mbind, io_mbind, io_bind, io_lift.
    destruct (page_filename d url custom) as [filename|e]; [|reflexivity].
    unfold write_file.
    destruct (Disk.write_error (fs w1) (PathLib.to_str filename)); reflexivity. }
  split.
  - destruct (fetch_static E url w0) as [[content|e] w1] eqn:Hstatic; cbn [fst snd] in *.
    + destruct (checked (http_get E (trace w0 ++ retry_prefix url 0 n)%list url))
        as [[text chunks]|e]; cbn in Hres; [|discriminate].
      inversion Hres; subst content.
      destruct (page_filename d url custom) as [filename|e].
      * rewrite Hrun, Hfs, Hfs0.
        destruct (Disk.write_error (fs w) (PathLib.to_str filename)) as [e|].
        { exists []. cbn [fst snd]. rewrite Htr, app_nil_r. auto. }
        cbv zeta.
        match goal with |- context [snd (?c ?w2)] =>
          assert (Hadds : adds anything c); [|destruct (Hadds w2) as (ext & Hext & _)]
        end.
        { apply adds_bind; [|intros r; apply adds_ret].
          apply adds_bind; [|intros r; apply adds_ret].
          destruct save_assets; [|apply adds_ret].
          apply adds_bind; [apply adds_lift|]. intros assets.
          destruct rewrite_assets.
          - unfold _rewrite_assets_and_save.
            apply adds_bind; [apply rewrite_pass_adds|]. intros s1.
            apply adds_bind; [apply rewrite_pass_adds|]. intros s2.
            apply adds_bind; [apply rewrite_pass_adds|]. intros s3.
            apply adds_ret.
          - apply adds_bind; [apply download_all_adds|]. intros _. apply adds_ret. }
        exists (IoWrite (PathLib.to_str filename) text :: ext).
        split; [|eauto].
        rewrite Hext. cbn [snd trace]. rewrite Htr, <- !app_assoc. reflexivity.
      * exists []. rewrite Hrun. cbn [fst snd]. rewrite Htr, app_nil_r. auto.
    + destruct (checked (http_get E (trace w0 ++ retry_prefix url 0 n)%list url))
        as [[text chunks]|e']; cbn in Hres; [discriminate|].
      inversion Hres; subst e'.
      exists []. rewrite Hrun. cbn [fst snd]. rewrite Htr, app_nil_r, Hfs, Hfs0.
      repeat split; auto. intros HR. eapply Hlast; eauto.
  - intros Hall.
    destruct (Hall (trace w0 ++ retry_prefix url 0 n)%list) as [m Hm].
    rewrite Hm in Hres. cbn [outcome_map] in Hres.
    split; [eapply Hlast; eauto|].
    exists m. rewrite Hrun.
    destruct (fetch_static E url w0) as [[content|e] w1]; cbn [fst] in Hres; [discriminate|].
    inversion Hres; subst. reflexivity.
Qed.

(** Without [save_assets], a [fetch] that returns wrote one file: the
    path it returns is the page file, the disk differs from the disk before
    the call at that path only, and the file holds the text the page request
    produced; the write is the last action of the call. *)
Theorem fetch_saves_page (url : string) (render_js rewrite_assets : bool)
    (custom : string) (w : World) (p : PathLib.Path) :
  fst (fetch E d url render_js false rewrite_assets custom w) = Ret p ->
  page_filename d url custom = Ret p /\
  exists content w1,
    (if render_js then fetch_rendered E url else fetch_static E url)
      (snd (allowed_by_robots E d url w)) = (Ret content, w1) /\
    fs (snd (fetch E d url render_js false rewrite_assets custom w))
    = <[PathLib.to_str p := content]> (fs w) /\
    trace (snd (fetch E d url render_js false rewrite_assets custom w))
    = (trace w1 ++ [IoWrite (PathLib.to_str p) content])%list.
Proof.
  intros Hret.
  pose proof (allowed_by_robots_frame url w) as (Hfs & _ & _).
  unfold fetch, fetch_full, mbind, io_mbind, io_bind in *.
  destruct (allowed_by_robots E d url w) as [[[|]|e] w0]; cbn [fst snd negb] in *;
    try discriminate.
  assert (Hpage : fs (snd ((if render_js then fetch_rendered E url else fetch_static E url) w0))
                  = fs w0).
  { destruct render_js; [reflexivity|apply fetch_static_frame]. }
  destruct ((if render_js then fetch_rendered E url else fetch_static E url) w0)
    as [[content|e] w1]; cbn [fst snd] in *; try discriminate.
  unfold io_lift in *.
  destruct (page_filename d url custom) as [filename|e]; cbn [fst snd] in *; try discriminate.
  unfold write_file in *.
  destruct (Disk.write_error (fs w1) (PathLib.to_str filename)); cbn [fst snd] in *;
    try discriminate.
  cbn in Hret. inversion Hret; subst p. split; [reflexivity|].
  exists content, w1. split; [reflexivity|]. cbn. rewrite Hpage, Hfs. auto.
Qed.

(** *** The asset list *)

Lemma mem_In (u : string) (l : list string) : Py.mem u l = true <-> In u l.
Proof.
  unfold Py.mem. rewrite existsb_exists. split.
  - intros (x & Hx & He). apply String.eqb_eq in He. subst. exact Hx.
  - intros H. exists u. split; [exact H|apply String.eqb_refl].
Qed.

Lemma dedup_spec (l seen : list string) :
  NoDup (dedup seen l) /\
  (forall u, In u (dedup seen l) <-> In u l /\ ~ In u seen) /\
  dedup seen l `sublist_of` l.
Proof.
  revert seen. induction l as [|u r IH]; intros seen; cbn [dedup].
  - split; [constructor|]. split; [|constructor]. intros u. cbn. tauto.
  - destruct (Py.mem u seen) eqn:Hm.
    + apply mem_In in Hm. destruct (IH seen) as (Hnd & Hin & Hsub).
      split; [exact Hnd|]. split; [|apply sublist_cons; exact Hsub].
      intros x. rewrite Hin. cbn. split; [tauto|].
      intros [[<-|Hx] Hs]; [contradiction|auto].
    + assert (Hn : ~ In u seen) by (rewrite <- mem_In, Hm; discriminate).
      destruct (IH (u :: seen)) as (Hnd & Hin & Hsub).
      split; [|split].
      * apply NoDup_cons. split; [|exact Hnd].
        rewrite list_elem_of_In, Hin. cbn. tauto.
      * intros x. cbn. rewrite Hin. cbn.
        destruct (String.eqb u x) eqn:Hux.
        -- apply String.eqb_eq in Hux. subst. tauto.
        -- apply String.eqb_neq in Hux. tauto.
      * apply sublist_skip. exact Hsub.
Qed.

Lemma dedup_first_occurrences (full l pre seen : list string) :
  full = (pre ++ l)%list ->
  (forall u, In u seen <-> In u pre) ->
  dedup seen l
  = flat_map (fun i =>
      match full !! i with
      | Some u => if bool_decide (u ∈ take i full) then [] else [u]
      | None => []
      end) (seq (length pre) (length l)).
Proof.
  revert pre seen. induction l as [|u r IH]; intros pre seen Hfull Hseen; [reflexivity|].
  cbn [dedup length seq flat_map].
  assert (Hu : full !! length pre = Some u).
  { rewrite Hfull, lookup_app_r, Nat.sub_diag by lia. reflexivity. }
  assert (Hpre : take (length pre) full = pre).
  { rewrite Hfull. apply take_app_length. }
  rewrite Hu, Hpre.
  assert (Hrest : forall seen', (forall x, In x seen' <-> In x (pre ++ [u])%list) ->
            dedup seen' r
            = flat_map (fun i =>
                match full !! i with
                | Some u => if bool_decide (u ∈ take i full) then [] else [u]
                | None => []
                end) (seq (S (length pre)) (length r))).
  { intros seen' Hs. rewrite (IH (pre ++ [u])%list seen').
    - rewrite length_app. cbn [length]. rewrite Nat.add_1_r. reflexivity.
    - rewrite Hfull, <- app_assoc. reflexivity.
    - exact Hs. }
  destruct (Py.mem u seen) eqn:Hm.
  - apply mem_In, Hseen in Hm.
    rewrite bool_decide_eq_true_2 by (apply list_elem_of_In; exact Hm).
    cbn [app]. apply Hrest. intros x. rewrite in_app_iff, Hseen. cbn.
    split; [tauto|]. intros [H|[<-|[]]]; assumption.
  - assert (Hn : ~ In u pre) by (rewrite <- Hseen, <- mem_In, Hm; discriminate).
    rewrite bool_decide_eq_false_2 by (rewrite list_elem_of_In; exact Hn).
    cbn [app]. f_equal. apply Hrest. intros x. rewrite in_app_iff. cbn.
    rewrite Hseen. tauto.
Qed.

(** [_parse_assets] returns the resolved references at the positions where
    they occur for the first time, in the order of these positions: every
    resolved reference once, none twice. *)
Theorem parse_assets_dedup (html base : string) (out : list string) :
  _parse_assets E html base = Ret out ->
  exists resolved,
    map_outcome (Url.urljoin base) (asset_refs (parse_html E html)) = Ret resolved /\
    out = ListSpec.first_occurrences resolved /\
    NoDup out /\
    (forall u, In u out <-> In u resolved) /\
    out `sublist_of` resolved.
Proof.
  unfold _parse_assets. intros H.
  destruct (map_outcome (Url.urljoin base) (asset_refs (parse_html E html)))
    as [resolved|e]; cbn in H; [|discriminate].
  destruct (Url.urlparse base) as [origin|e]; cbn in H; [|discriminate].
  inversion H; subst out. exists resolved. split; [reflexivity|].
  split; [apply (dedup_first_occurrences resolved resolved [] []); [reflexivity|tauto]|].
  destruct (dedup_spec resolved []) as (Hnd & Hin & Hsub).
  split; [exact Hnd|]. split; [|exact Hsub].
  intros u. rewrite Hin. cbn. tauto.
Qed.

(** *** Failures of asset downloads *)

Lemma save_and_replace_returns (base : string) (b : bool) (tag : Tag) (u : string) (w : World) :
  exists tag', fst (save_and_replace E d base b tag u w) = Ret tag'.
Proof.
  unfold save_and_replace, io_try.
  match goal with |- context [match ?c w with _ => _ end] => destruct (c w) as [[a|e] w1] end;
    cbn; eauto.
Qed.

Lemma rewrite_pass_returns (base : string) (pick : Tag -> option (bool * string))
    (soup : list Tag) (w : World) :
  exists soup', fst (rewrite_pass E d base pick soup w) = Ret soup'.
Proof.
  revert w. induction soup as [|tag rest IH]; intros w; cbn [rewrite_pass].
  - exists []. reflexivity.
  - unfold mbind, io_mbind, io_bind.
    assert (Hhead : exists tag', fst (match pick tag with
                       | Some (src_attr, u) => save_and_replace E d base src_attr tag u
                       | None => io_ret tag end w) = Ret tag').
    { destruct (pick tag) as [[b u]|]; [apply save_and_replace_returns|cbn; eauto]. }
    destruct Hhead as (tag' & Hhead).
    destruct (match pick tag with
              | Some (src_attr, u) => save_and_replace E d base src_attr tag u
              | None => io_ret tag end w) as [[a|e] w1]; cbn in Hhead; [|discriminate].
    destruct (IH w1) as (rest' & Hrest).
    destruct (rewrite_pass E d base pick rest w1) as [[a'|e] w2]; cbn in Hrest; [|discriminate].
    cbn. eauto.
Qed.

(** No failure of an asset download makes the asset phase of [fetch]
    raise: the loop over the assets swallows every exception, and so does
    [save_and_replace] in the rewriting. *)
Theorem asset_phase_never_raises :
  (forall assets w, fst (download_all E d assets w) = Ret tt) /\
  (forall html base assets w,
     exists s, fst (_rewrite_assets_and_save E d html base assets w) = Ret s).
Proof.
  split.
  - induction assets as [|a rest IH]; intros w; cbn [download_all]; [reflexivity|].
    unfold mbind, io_mbind, io_bind, io_try.
    match goal with |- context [match ?c w with _ => _ end] => destruct (c w) as [[[]|e] w1] end;
      cbn; apply IH.
  - intros html base assets w. unfold _rewrite_assets_and_save, mbind, io_mbind, io_bind.
    destruct (rewrite_pass_returns base pick_img (parse_html E html) w) as (s1 & H1).
    destruct (rewrite_pass E d base pick_img (parse_html E html) w) as [[a1|e] w1];
      cbn in H1; [|discriminate].
    destruct (rewrite_pass_returns base pick_script a1 w1) as (s2 & H2).
    destruct (rewrite_pass E d base pick_script a1 w1) as [[a2|e] w2];
      cbn in H2; [|discriminate].
    destruct (rewrite_pass_returns base pick_link a2 w2) as (s3 & H3).
    destruct (rewrite_pass E d base pick_link a2 w2) as [[a3|e] w3];
      cbn in H3; [|discriminate].
    cbn. eauto.
Qed.

End FetchFacts.

(** ** Asset downloads and file names *)

Section AssetFacts.
Import Downloader RetrySpec StreamSpec.
Context (E : Env) (d : t).

Lemma get_stream_spec (url : string) :
  forall left n w,
    exists k, (k <= left)%nat /\
      trace (snd (get_stream E url n left w))
        = (trace w ++ stream_prefix url (session_ua w) n k ++ [IoGet url (session_ua w)])%list /\
      fs (snd (get_stream E url n left w)) = fs w /\
      session_ua (snd (get_stream E url n left w)) = session_ua w /\
      match checked (http_get E (trace w ++ stream_prefix url (session_ua w) n k)%list url) with
      | Ret r => fst (get_stream E url n left w) = Ret (snd r)
      | Raise e =>
          if is_RequestException e
          then k = left /\ fst (get_stream E url n left w) = Raise (RetryError (exn_str e))
          else fst (get_stream E url n left w) = Raise e
      end.
Proof.
  induction left as [|left IH]; intros n w.
  - exists 0%nat. cbn [stream_prefix app get_stream].
    unfold io_try, mbind, io_mbind, io_bind, get_checked, io_ret, io_raise.
    rewrite app_nil_r.
    destruct (checked (http_get E (trace w) url)) as [r|e]; cbn.
    + repeat split; auto.
    + destruct (is_RequestException e); cbn; repeat split; auto.
  - cbn [get_stream].
    unfold io_try, mbind, io_mbind, io_bind, get_checked, io_ret, io_raise, sleep, emit.
    destruct (checked (http_get E (trace w) url)) as [r|e] eqn:Hc.
    + exists 0%nat. cbn [stream_prefix app fst snd trace fs session_ua].
      rewrite app_nil_r, Hc. repeat split; auto; lia.
    + destruct (is_RequestException e) eqn:HRe.
      * cbn [fst snd trace fs session_ua].
        match goal with |- context [get_stream E url (S n) left ?w0] => set (w2 := w0) end.
        destruct (IH (S n) w2) as (k & Hk & Htr & Hfs & Hua & Hres).
        exists (S k). cbn [stream_prefix].
        assert (Hpre : forall l, (trace w2 ++ l)%list
                  = (trace w ++ IoGet url (session_ua w)
                       :: IoSleep (Seconds (retry_wait n)) :: l)%list).
        { intros l. unfold w2. cbn [trace]. rewrite <- !app_assoc. reflexivity. }
        change (session_ua w2) with (session_ua w) in *.
        rewrite Hpre in Htr, Hres.
        split; [lia|]. split; [exact Htr|]. split; [exact Hfs|]. split; [exact Hua|].
        match type of Hres with
        | match ?x with _ => _ end => destruct x as [r|e']; [exact Hres|]
        end.
        destruct (is_RequestException e'); [|exact Hres].
        destruct Hres as [-> Hres]. auto.
      * exists 0%nat. cbn [stream_prefix app fst snd trace fs session_ua].
        rewrite app_nil_r, Hc, HRe. repeat split; auto; lia.
Qed.


(** A downloaded asset is at [output_dir/assets/<host>/<name>], the host
    with its colons replaced and the name the last segment of the URL path
    or [unnamed].  The file holds the body of the response to the last of
    the at most three requests, the one that passed the status check: its
    chunks up to the first empty one.  The disk differs from the disk before
    the call at that path only, and the write is the last action of the
    call. *)
Theorem download_asset_saves (url : string) (w : World) (target : PathLib.Path) :
  fst (_download_asset E d url w) = Ret (Some target) ->
  exists parsed k text chunks,
    (k <= 2)%nat /\
    checked (http_get E (trace (snd (allowed_by_robots E d url w))
                           ++ stream_prefix url (session_ua w) 1 k)%list url)
      = Ret (text, chunks) /\
    Url.urlparse url = Ret parsed /\
    target = asset_target d parsed /\
    fs (snd (_download_asset E d url w))
    = <[PathLib.to_str target := streamed chunks]> (fs w) /\
    trace (snd (_download_asset E d url w))
    = (trace (snd (allowed_by_robots E d url w))
         ++ stream_prefix url (session_ua w) 1 k
         ++ [IoGet url (session_ua w); IoWrite (PathLib.to_str target) (streamed chunks)])%list.
Proof.
  intros Hret.
  pose proof (allowed_by_robots_frame E d url w) as (Hfs & Hua & _).
  unfold _download_asset, mbind, io_mbind, io_bind in *.
  destruct (allowed_by_robots E d url w) as [[[|]|e] w0]; cbn [fst snd negb] in *;
    try discriminate.
  destruct (get_stream_spec url 2 1 w0) as (k & Hk & Htr & Hfs1 & _ & Hres).
  rewrite Hua in Htr, Hres.
  destruct (get_stream E url 1 2 w0) as [[chunks|e] w1]; cbn [fst snd] in *;
    try discriminate.
  unfold io_lift in *.
  destruct (Url.urlparse url) as [parsed|e]; cbn [fst snd] in *; try discriminate.
  unfold write_file in *.
  match type of Hret with
  | context [Disk.write_error ?dk ?pt] => destruct (Disk.write_error dk pt)
  end; cbn [fst snd] in *; try discriminate.
  cbn in Hret. inversion Hret; subst target.
  destruct (checked (http_get E (trace w0 ++ stream_prefix url (session_ua w) 1 k)%list url))
    as [[text chunks']|e] eqn:Hc.
  - cbn in Hres. inversion Hres; subst chunks'.
    exists parsed, k, text, chunks. split; [exact Hk|]. split; [exact Hc|].
    split; [reflexivity|]. split; [reflexivity|].
    cbn. rewrite Hfs1, Hfs, Htr, <- !app_assoc. auto.
  - destruct (is_RequestException e); [destruct Hres as [_ Hres]|]; discriminate.
Qed.

(** An asset the robots gate denies is skipped: [_download_asset] returns
    [None] without a request for the asset and without a write. *)
Theorem download_asset_denied (url : string) (w : World) :
  fst (allowed_by_robots E d url w) = Ret false ->
  _download_asset E d url w = (Ret None, snd (allowed_by_robots E d url w)) /\
  fs (snd (_download_asset E d url w)) = fs w /\
  gets (trace (snd (_download_asset E d url w))) = gets (trace w).
Proof.
  intros Hden.
  pose proof (allowed_by_robots_frame E d url w) as (Hfs & _ & Htr).
  assert (Hrun : _download_asset E d url w = (Ret None, snd (allowed_by_robots E d url w))).
  { unfold _download_asset, mbind, io_mbind, io_bind.
    destruct (allowed_by_robots E d url w) as [[[|]|e] w1]; cbn in Hden; try discriminate.
    reflexivity. }
  split; [exact Hrun|]. rewrite Hrun. cbn [snd]. split; [exact Hfs|].
  destruct Htr as [->|[robots_url ->]]; [reflexivity|].
  unfold gets. rewrite List.filter_app. cbn. apply app_nil_r.
Qed.

End AssetFacts.

Section NameFacts.
Import Downloader.

Lemma rstrip_by_last (p : ascii -> bool) (s : string) :
  forall c, Py.endswith_char c (Py.rstrip_by p s) = true -> p c = false.
Proof.
  induction s as [|ch s IH]; intros c; cbn [Py.rstrip_by]; [discriminate|].
  destruct (Py.rstrip_by p s) as [|a s0] eqn:Hr.
  - destruct (p ch) eqn:Hp; [discriminate|].
    cbn. intros H. apply Ascii.eqb_eq in H. subst. exact Hp.
  - intros H. apply IH. exact H.
Qed.

(** The file a page is saved to when no name is given: [output_dir] joined
    with the host, an underscore and the path; the host part holds no colon,
    the path part is not empty and neither starts nor ends with a slash, and
    [.html] follows exactly when the path part holds no dot. *)
Theorem page_filename_derived (d : t) (url : string) (parsed : Url.ParseResult) :
  Url.urlparse url = Ret parsed ->
  page_filename d url ""
    = Ret (PathLib.of_str (PathLib.to_str (PathLib.div (output_dir d) (derived_name parsed)))) /\
  derived_name parsed
    = safe_host_of parsed ++ "_" ++ safe_path_of parsed
        ++ (if Py.has_char "." (safe_path_of parsed) then "" else ".html") /\
  Py.has_char ":" (safe_host_of parsed) = false /\
  safe_path_of parsed <> "" /\
  Py.startswith "/" (safe_path_of parsed) = false /\
  Py.endswith_char "/" (safe_path_of parsed) = false.
Proof.
  intros Hparse. split.
  { unfold page_filename. cbn [Py.truthy]. rewrite Hparse. reflexivity. }
  split; [apply derived_name_html|]. split; [apply safe_host_no_colon|].
  pose proof (safe_path_head parsed) as Hhead.
  split; [|split].
  - intros Hnil. rewrite Hnil in Hhead. exact Hhead.
  - destruct (safe_path_of parsed) as [|ch r]; [reflexivity|].
    unfold Py.startswith. cbn [String.prefix].
    destruct (ascii_dec "/" ch) as [<-|Hne]; [|reflexivity].
    cbv in Hhead. discriminate.
  - unfold safe_path_of, Py.strip_by.
    destruct (Py.endswith_char "/" _) eqn:Hend; [|reflexivity].
    destruct (Py.truthy (Py.rstrip_by Py.is_slash (Py.lstrip_by Py.is_slash (Url.path parsed)))).
    + apply rstrip_by_last in Hend. discriminate.
    + cbn in Hend. discriminate.
Qed.

End NameFacts.

(** ** The rewriting, the seed and the links *)

Section RewriteFacts.
Import Downloader RewriteSpec.
Context (E : Env) (d : t).

Lemma save_and_replace_spec (base : string) (b : bool) (tag : Tag) (u : string) (w : World)
    (tag' : Tag) :
  fst (save_and_replace E d base b tag u w) = Ret tag' ->
  tag' = tag \/ exists v, tag' = set_attr b tag v.
Proof.
  unfold save_and_replace, io_try, mbind, io_mbind, io_bind, io_lift.
  destruct (Url.urljoin base u) as [full|e]; [|cbn; intros H; inversion H; auto].
  destruct (_download_asset E d full w) as [[[l|]|e] w1]; cbn; intros H; inversion H; eauto.
Qed.

Lemma rewrite_pass_spec (base : string) (pick : Tag -> option (bool * string))
    (soup : list Tag) :
  forall w soup', fst (rewrite_pass E d base pick soup w) = Ret soup' ->
                  Forall2 (retargeted_by pick) soup soup'.
Proof.
  induction soup as [|tag rest IH]; intros w soup'; cbn [rewrite_pass].
  - cbn. intros H. inversion H. constructor.
  - unfold mbind, io_mbind, io_bind.
    destruct (pick tag) as [[b u]|] eqn:Hpick.
    + pose proof (save_and_replace_spec base b tag u w) as Hhead.
      destruct (save_and_replace E d base b tag u w) as [[tag'|e] w1]; cbn [fst] in *;
        [|discriminate].
      pose proof (IH w1) as Hrest.
      destruct (rewrite_pass E d base pick rest w1) as [[rest'|e] w2]; cbn [fst] in *;
        [|discriminate].
      cbn. intros H. inversion H; subst soup'. constructor; [|eauto].
      destruct (Hhead tag' eq_refl) as [->|[v ->]]; [left; reflexivity|].
      right. eauto.
    + cbn. pose proof (IH w) as Hrest.
      destruct (rewrite_pass E d base pick rest w) as [[rest'|e] w2]; cbn [fst] in *;
        [|discriminate].
      cbn. intros H. inversion H; subst soup'. constructor; [left; reflexivity|eauto].
Qed.

Lemma set_attr_name (b : bool) (t : Tag) (v : string) :
  tag_name (set_attr b t v) = tag_name t.
Proof. destruct b; reflexivity. Qed.

Lemma pick_named (t : Tag) :
  (forall r, pick_img t = Some r -> tag_name t = "img") /\
  (forall r, pick_script t = Some r -> tag_name t = "script") /\
  (forall r, pick_link t = Some r -> tag_name t = "link").
Proof.
  unfold pick_img, pick_script, pick_link. repeat split; intros r H.
  - destruct (String.eqb (tag_name t) "img") eqn:Hn; [|discriminate].
    apply String.eqb_eq. exact Hn.
  - destruct (String.eqb (tag_name t) "script") eqn:Hn; [|discriminate].
    apply String.eqb_eq. exact Hn.
  - destruct (String.eqb (tag_name t) "link") eqn:Hn; [|discriminate].
    apply String.eqb_eq. exact Hn.
Qed.

Lemma three_passes (t t1 t2 t3 : Tag) :
  retargeted_by pick_img t t1 -> retargeted_by pick_script t1 t2 ->
  retargeted_by pick_link t2 t3 -> retargeted t t3.
Proof.
  intros [->|(b1 & u1 & v1 & H1 & ->)].
  - intros [->|(b2 & u2 & v2 & H2 & ->)].
    + intros [->|(b3 & u3 & v3 & H3 & ->)]; [left; reflexivity|].
      right. exists b3, u3, v3. auto.
    + intros [->|(b3 & u3 & v3 & H3 & ->)].
      * right. exists b2, u2, v2. auto.
      * exfalso. apply (proj2 (proj2 (pick_named _))) in H3.
        apply (proj1 (proj2 (pick_named _))) in H2.
        rewrite set_attr_name, H2 in H3. discriminate.
  - intros [->|(b2 & u2 & v2 & H2 & ->)].
    + intros [->|(b3 & u3 & v3 & H3 & ->)].
      * right. exists b1, u1, v1. auto.
      * exfalso. apply (proj2 (proj2 (pick_named _))) in H3.
        apply (proj1 (pick_named _)) in H1.
        rewrite set_attr_name, H1 in H3. discriminate.
    + exfalso. apply (proj1 (proj2 (pick_named _))) in H2.
      apply (proj1 (pick_named _)) in H1.
      rewrite set_attr_name, H1 in H2. discriminate.
Qed.

Lemma Forall2_three {A} (R1 R2 R3 R : A -> A -> Prop) :
  (forall a b c e, R1 a b -> R2 b c -> R3 c e -> R a e) ->
  forall l1 l2 l3 l4,
    Forall2 R1 l1 l2 -> Forall2 R2 l2 l3 -> Forall2 R3 l3 l4 -> Forall2 R l1 l4.
Proof.
  intros HR l1 l2 l3 l4 H1. revert l3 l4.
  induction H1 as [|a b l1 l2 Hab H1 IH]; intros l3 l4 H2 H3.
  - inversion H2; subst. inversion H3; subst. constructor.
  - inversion H2; subst. inversion H3; subst. constructor; eauto.
Qed.

(** The rewriting keeps the tree but for the references: the markup
    returned is the printing of a tree with the tags of the page, in order,
    each one unchanged or with the one attribute set that the loops pick for
    it ([src] of an [img] or a [script], [href] of a stylesheet [link]). *)
Theorem rewrite_changes_references_only (html base : string) (assets : list string)
    (w : World) (s : string) :
  fst (_rewrite_assets_and_save E d html base assets w) = Ret s ->
  exists soup',
    s = render_html E soup' /\
    Forall2 retargeted (parse_html E html) soup'.
Proof.
  unfold _rewrite_assets_and_save, mbind, io_mbind, io_bind.
  pose proof (rewrite_pass_spec base pick_img (parse_html E html) w) as H1.
  destruct (rewrite_pass E d base pick_img (parse_html E html) w) as [[s1|e] w1];
    cbn [fst] in *; [|discriminate].
  pose proof (rewrite_pass_spec base pick_script s1 w1) as H2.
  destruct (rewrite_pass E d base pick_script s1 w1) as [[s2|e] w2];
    cbn [fst] in *; [|discriminate].
  pose proof (rewrite_pass_spec base pick_link s2 w2) as H3.
  destruct (rewrite_pass E d base pick_link s2 w2) as [[s3|e] w3];
    cbn [fst] in *; [|discriminate].
  cbn. intros H. inversion H; subst s. exists s3. split; [reflexivity|].
  eapply (Forall2_three _ _ _ _ three_passes); eauto.
Qed.

End RewriteFacts.

Section SeedFacts.
Import Crawler.

Lemma rstrip_by_app (p : ascii -> bool) (a b : string) :
  Py.rstrip_by p (a ++ b)
  = match Py.rstrip_by p b with
    | EmptyString => Py.rstrip_by p a
    | r => a ++ r
    end.
Proof.
  induction a as [|c a IH].
  - change ("" ++ b) with b. destruct (Py.rstrip_by p b); reflexivity.
  - change (String c a ++ b) with (String c (a ++ b)).
    cbn [Py.rstrip_by]. rewrite IH.
    destruct (Py.rstrip_by p b) as [|x r]; [reflexivity|].
    destruct a; reflexivity.
Qed.

Lemma prefix_app (a b : string) : String.prefix a (a ++ b) = true.
Proof.
  induction a as [|c a IH]; [destruct b; reflexivity|].
  change (String c a ++ b) with (String c (a ++ b)). cbn [String.prefix].
  destruct (ascii_dec c c); [exact IH|contradiction].
Qed.

Lemma strip_stripped (s : string) :
  Py.lstrip_by Py.isspace (Py.strip s) = Py.strip s /\
  Py.rstrip_by Py.isspace (Py.strip s) = Py.strip s.
Proof.
  unfold Py.strip, Py.strip_by. split; [|apply rstrip_by_idem].
  apply lstrip_by_fixed.
  pose proof (lstrip_by_head Py.isspace s) as Hl.
  pose proof (rstrip_by_head Py.isspace (Py.lstrip_by Py.isspace s)) as Hr.
  destruct (Py.lstrip_by Py.isspace s) as [|ch r]; [exact I|].
  destruct (Py.rstrip_by Py.isspace (String ch r)) as [|ch' r']; [exact I|].
  subst ch'. exact Hl.
Qed.

(** Normalising a seed twice is normalising it once: the URL [crawl]
    works on is a fixed point of the normalisation. *)
Theorem normalize_start_idempotent (start_url : string) :
  normalize_start (normalize_start start_url) = normalize_start start_url.
Proof.
  unfold normalize_start at 2 3.
  destruct (strip_stripped start_url) as [Hl Hr].
  set (t := Py.strip start_url) in *.
  destruct (negb (Py.startswith "http://" t) && negb (Py.startswith "https://" t)) eqn:Hs.
  - unfold normalize_start.
    assert (Hfix : Py.strip ("https://" ++ t) = "https://" ++ t).
    { unfold Py.strip, Py.strip_by.
      change (Py.lstrip_by Py.isspace ("https://" ++ t)) with ("https://" ++ t).
      rewrite rstrip_by_app, Hr. destruct t; reflexivity. }
    rewrite Hfix. unfold Py.startswith at 2. rewrite prefix_app.
    rewrite andb_false_r. reflexivity.
  - unfold normalize_start.
    assert (Hfix : Py.strip t = t) by apply strip_by_idem.
    rewrite Hfix, Hs. reflexivity.
Qed.

End SeedFacts.

Section LinkFacts.
Import Crawler Downloader.

Lemma map_outcome_Ret {A B} (f : A -> outcome B) (l : list A) (out : list B) :
  map_outcome f l = Ret out -> Forall2 (fun a b => f a = Ret b) l out.
Proof.
  revert out. induction l as [|a r IH]; intros out; cbn [map_outcome].
  - intros H. inversion H. constructor.
  - destruct (f a) as [b|e] eqn:Hf; cbn; [|discriminate].
    destruct (map_outcome f r) as [bs|e]; cbn; [|discriminate].
    intros H. inversion H; subst. constructor; auto.
Qed.

Lemma hrefs_followed (soup : list Tag) :
  hrefs soup
  = List.map (fun a => default EmptyString (tag_href a)) (List.filter LinkSpec.followed soup).
Proof.
  induction soup as [|[nm sr hr rl] rest IH]; [reflexivity|].
  cbn [hrefs flat_map List.filter]. fold (hrefs rest). rewrite IH.
  set (kept := List.filter LinkSpec.followed rest).
  unfold LinkSpec.followed. cbn [tag_name tag_href].
  destruct (String.eqb nm "a"); cbn [andb]; [|reflexivity].
  destruct hr as [h|]; cbn [attr_truthy]; [|reflexivity].
  change (default EmptyString (Some h)) with h.
  destruct (Py.truthy h); cbn [andb]; [|reflexivity].
  destruct (Py.startswith "javascript:" h); cbn [orb negb andb]; [reflexivity|].
  destruct (Py.startswith "mailto:" h); reflexivity.
Qed.

Lemma map_outcome_total {A B} (f : A -> outcome B) (l : list A) :
  (forall a, In a l -> exists b, f a = Ret b) -> exists out, map_outcome f l = Ret out.
Proof.
  induction l as [|a r IH]; intros H; cbn [map_outcome]; [eauto|].
  destruct (H a (or_introl eq_refl)) as [b ->].
  destruct IH as [bs ->]; [intros x Hx; apply H; right; exact Hx|].
  cbn. eauto.
Qed.

(** The links [_discover_links] returns are those of the anchors of the page
    that give a link, one for each of them and in the order of the document:
    the [href] of the anchor resolved against the base URL.  The call
    returns when each of these [href]s can be resolved. *)
Theorem discover_links_resolved (E : Env) (html base_url : string) :
  (forall links,
     _discover_links E html base_url = Ret links ->
     Forall2 (fun a link => exists href, tag_href a = Some href /\
                                         Url.urljoin base_url href = Ret link)
       (List.filter LinkSpec.followed (parse_html E html)) links) /\
  ((forall a href, In a (parse_html E html) -> LinkSpec.followed a = true ->
                   tag_href a = Some href -> exists link, Url.urljoin base_url href = Ret link) ->
   exists links, _discover_links E html base_url = Ret links).
Proof.
  unfold _discover_links. rewrite hrefs_followed. split.
  - intros links H. apply map_outcome_Ret in H.
    assert (Hf : forall a, In a (List.filter LinkSpec.followed (parse_html E html)) ->
                           LinkSpec.followed a = true)
      by (intros a Ha; apply filter_In in Ha as [_ Ha]; exact Ha).
    revert links H Hf.
    induction (List.filter LinkSpec.followed (parse_html E html)) as [|a r IH];
      intros links H Hf; inversion H; subst; constructor.
    + pose proof (Hf a (or_introl eq_refl)) as Ha.
      unfold LinkSpec.followed in Ha. apply andb_true_iff in Ha as [_ Ha].
      destruct (tag_href a) as [h|]; [|discriminate]. exists h. auto.
    + apply IH; [assumption|]. intros x Hx. apply Hf. right. exact Hx.
  - intros Hall. apply map_outcome_total.
    intros h Hin. apply in_map_iff in Hin as (a & <- & Ha).
    apply filter_In in Ha as [Ha Hf].
    pose proof Hf as Hh. unfold LinkSpec.followed in Hh.
    apply andb_true_iff in Hh as [_ Hh].
    destruct (tag_href a) as [h|] eqn:Hhref; [|discriminate].
    exact (Hall a h Ha Hf Hhref).
Qed.

End LinkFacts.

(** ** The crawl: theorems *)

Section CrawlRuns.
Import Crawler CrawlSpec.
Context (c : t) (E : Downloader.Env) (render_js save_assets rewrite_assets : bool).

Lemma crawl_init_inv (start_url : string) (now : Z) (disk : gmap string string)
    (start_host : string) (st0 : State) :
  crawl_init c start_url now disk = Ret (start_host, st0) ->
  host_of (normalize_start start_url) = Ret start_host /\
  st0 = mkState ∅ None ∅ [] [(normalize_start start_url, 0)] [] MLoop now 0 disk [] [].
Proof.
  unfold crawl_init. intros H.
  destruct (host_of (normalize_start start_url)) as [h|e]; cbn in H; [|discriminate].
  destruct (concurrency c <=? 0); [discriminate|].
  inversion H; subst. auto.
Qed.

Lemma domain_inv_init (start_host seed : string) (now : Z) (disk : gmap string string) :
  domain_inv start_host (mkState ∅ None ∅ [] [(seed, 0)] [] MLoop now 0 disk [] []).
Proof. repeat split; cbn; intros; try contradiction; discriminate. Qed.

Lemma seed_inv_init (seed : string) (now : Z) (disk : gmap string string) :
  seed_inv seed (mkState ∅ None ∅ [] [(seed, 0)] [] MLoop now 0 disk [] []).
Proof.
  split; [|split]; cbn.
  - intros; discriminate.
  - intros _. split; [intros; discriminate|]. intros u d [H|[]]. congruence.
  - left. auto.
Qed.

(** What [crawl] returns is the list of results of the state its run ends
    in. *)
Lemma crawl_returns (start_url : string) (now : Z) (disk : gmap string string)
    (start_host : string) (st0 st : State) (sched : list event) (rs : list CrawlResult) :
  crawl_init c start_url now disk = Ret (start_host, st0) ->
  run c E render_js save_assets rewrite_assets start_host st0 sched = Some st ->
  crawl c E render_js save_assets rewrite_assets start_url now disk sched = Some rs ->
  rs = results st.
Proof.
  intros Hinit Hrun. unfold crawl. rewrite Hinit, Hrun.
  destruct (main st); congruence.
Qed.

(** C7. In a crawl with [same_domain] set, whatever the schedule: every
    result of every state the crawl passes through, and so every result of
    the list [crawl] returns, has a URL on the host of the normalised seed,
    and so has every URL handed to [downloader.fetch].  A URL on another host
    is thus never fetched and leaves no result, neither a success nor an
    error. *)
Theorem crawl_same_domain (start_url : string) (now : Z) (disk : gmap string string)
    (start_host : string) (st0 st : State) (sched : list event) :
  same_domain c = true ->
  crawl_init c start_url now disk = Ret (start_host, st0) ->
  run c E render_js save_assets rewrite_assets start_host st0 sched = Some st ->
  host_of (normalize_start start_url) = Ret start_host /\
  (forall r, In r (results st) -> host_of (url r) = Ret start_host) /\
  (forall u, In u (fetch_calls st) -> host_of u = Ret start_host) /\
  (forall rs,
     crawl c E render_js save_assets rewrite_assets start_url now disk sched = Some rs ->
     rs = results st).
Proof.
  intros Hsame Hinit Hrun.
  destruct (crawl_init_inv _ _ _ _ _ Hinit) as [Hhost ->].
  split; [exact Hhost|].
  assert (Hinv : domain_inv start_host st).
  { eapply (run_invariant c E render_js save_assets rewrite_assets start_host
              (domain_inv start_host)); [|apply domain_inv_init|exact Hrun].
    intros s ev s'. apply domain_inv_step. exact Hsame. }
  destruct Hinv as (Hres & Hfetch & _).
  split; [exact Hres|]. split; [exact Hfetch|].
  intros rs. eapply crawl_returns; eauto.
Qed.

(** C10. [crawl] works on the normalised seed: the start URL without the
    whitespace around it, with [https://] put in front unless it starts with
    [http://] or [https://].  The host the domain restriction compares with
    is the host of that URL, the queue starts with that URL at depth 0, the
    first job submitted is for it, and the first result appended is its
    result. *)
Theorem crawl_seed_normalized (start_url : string) (now : Z) (disk : gmap string string)
    (start_host : string) (st0 st : State) (sched : list event) :
  crawl_init c start_url now disk = Ret (start_host, st0) ->
  run c E render_js save_assets rewrite_assets start_host st0 sched = Some st ->
  let stripped := Py.strip start_url in
  let seed := normalize_start start_url in
  (exists l r, start_url = l ++ stripped ++ r /\
               Py.forallb_str Py.isspace l = true /\ Py.forallb_str Py.isspace r = true) /\
  Py.strip stripped = stripped /\
  seed = (if Py.startswith "http://" stripped || Py.startswith "https://" stripped
          then stripped else "https://" ++ stripped) /\
  host_of seed = Ret start_host /\
  queue st0 = [(seed, 0)] /\
  (forall tk, tasks st !! 0%nat = Some tk -> t_url tk = seed /\ t_depth tk = 0) /\
  (forall r, head (results st) = Some r -> url r = seed).
Proof.
  intros Hinit Hrun stripped seed.
  destruct (crawl_init_inv _ _ _ _ _ Hinit) as [Hhost ->].
  split; [apply strip_by_split|]. split; [apply strip_by_idem|].
  split.
  { unfold seed, normalize_start. fold stripped.
    destruct (Py.startswith "http://" stripped), (Py.startswith "https://" stripped);
      reflexivity. }
  split; [exact Hhost|]. split; [reflexivity|].
  assert (Hinv : seed_inv seed st).
  { eapply (run_invariant c E render_js save_assets rewrite_assets start_host
              (seed_inv seed)); [|apply seed_inv_init|exact Hrun].
    intros s ev s'. apply seed_inv_step. }
  destruct Hinv as (Hfirst & _ & Hjob). split.
  - intros tk Htk. destruct Hjob as [[Hnone _]|(tk0 & rest & Ht & Hu & Hd)].
    + rewrite Hnone in Htk. discriminate.
    + rewrite Ht in Htk. cbn in Htk. inversion Htk; subst. auto.
  - intros r Hr. destruct (results st) as [|r0 rs] eqn:Hres; [discriminate|].
    cbn in Hr. inversion Hr; subst. eapply Hfirst. reflexivity.
Qed.

(** An invariant of the steps that holds at the start holds in every state
    of a crawl. *)
Lemma crawl_invariant (P : State -> Prop) (start_url : string) (now : Z)
    (disk : gmap string string) (start_host : string) (st0 st : State)
    (sched : list event) :
  (forall seed, P (mkState ∅ None ∅ [] [(seed, 0)] [] MLoop now 0 disk [] [])) ->
  (forall s ev s', P s ->
     step c E render_js save_assets rewrite_assets start_host s ev = Some s' -> P s') ->
  crawl_init c start_url now disk = Ret (start_host, st0) ->
  run c E render_js save_assets rewrite_assets start_host st0 sched = Some st ->
  P st.
Proof.
  intros H0 Hstep Hinit Hrun.
  destruct (crawl_init_inv _ _ _ _ _ Hinit) as [_ ->].
  eapply run_invariant; [exact Hstep|apply H0|exact Hrun].
Qed.

Lemma crawl_init_concurrency (start_url : string) (now : Z) (disk : gmap string string)
    (start_host : string) (st0 : State) :
  crawl_init c start_url now disk = Ret (start_host, st0) -> 0 < concurrency c.
Proof.
  unfold crawl_init. intros H.
  destruct (host_of (normalize_start start_url)); cbn in H; [|discriminate].
  destruct (concurrency c <=? 0) eqn:Hc; [discriminate|]. lia.
Qed.

(** No job is deeper than [max_depth]: in every state of a crawl, under any
    schedule, the depth of every job submitted to the pool and of every
    entry of the queue lies between 0 and [max_depth] (0 when [max_depth] is
    negative: the seed alone). *)
Theorem crawl_depth_bounded (start_url : string) (now : Z) (disk : gmap string string)
    (start_host : string) (st0 st : State) (sched : list event) :
  crawl_init c start_url now disk = Ret (start_host, st0) ->
  run c E render_js save_assets rewrite_assets start_host st0 sched = Some st ->
  (forall j tk, tasks st !! j = Some tk -> 0 <= t_depth tk <= Z.max 0 (max_depth c)) /\
  (forall u d, In (u, d) (queue st) -> 0 <= d <= Z.max 0 (max_depth c)).
Proof.
  intros Hinit Hrun.
  assert (Hinv : depth_inv c st).
  { eapply (crawl_invariant (depth_inv c)); eauto.
    - intros seed. split; cbn.
      + intros u d [H|[]]. inversion H; subst. lia.
      + intros; discriminate.
    - intros s ev s'. apply depth_inv_step. }
  destruct Hinv as [Hq Ht]. split; [|exact Hq].
  intros j tk Hl. exact (proj1 (Ht j tk Hl)).
Qed.

(** Every result of a crawl is either a success, with a saved path and no
    error, or an error, with a message and no path; and the URL of a success
    was handed to [downloader.fetch]. *)
Theorem crawl_results_well_formed (start_url : string) (now : Z) (disk : gmap string string)
    (start_host : string) (st0 st : State) (sched : list event) :
  crawl_init c start_url now disk = Ret (start_host, st0) ->
  run c E render_js save_assets rewrite_assets start_host st0 sched = Some st ->
  forall r, In r (results st) ->
    well_formed r /\ (is_Some (saved_path r) -> In (url r) (fetch_calls st)).
Proof.
  intros Hinit Hrun.
  eapply (crawl_invariant results_inv); eauto.
  - intros seed r [].
  - intros s ev s'. apply results_inv_step.
Qed.

(** Every URL that has a result, and every URL handed to
    [downloader.fetch], is in [_visited]. *)
Theorem crawl_results_visited (start_url : string) (now : Z) (disk : gmap string string)
    (start_host : string) (st0 st : State) (sched : list event) :
  crawl_init c start_url now disk = Ret (start_host, st0) ->
  run c E render_js save_assets rewrite_assets start_host st0 sched = Some st ->
  (forall r, In r (results st) -> url r ∈ visited st) /\
  (forall u, In u (fetch_calls st) -> u ∈ visited st).
Proof.
  intros Hinit Hrun.
  assert (Hinv : visited_inv st).
  { eapply (crawl_invariant visited_inv); eauto.
    - intros seed. repeat split; cbn; intros; try contradiction; discriminate.
    - intros s ev s'. apply visited_inv_step. }
  destruct Hinv as (Hres & Hfetch & _). auto.
Qed.

(** The frontier never holds more than [max_pages] entries (one entry, the
    seed, when [max_pages] is below 1). *)
Theorem crawl_queue_bounded (start_url : string) (now : Z) (disk : gmap string string)
    (start_host : string) (st0 st : State) (sched : list event) :
  crawl_init c start_url now disk = Ret (start_host, st0) ->
  run c E render_js save_assets rewrite_assets start_host st0 sched = Some st ->
  Z.of_nat (length (queue st)) <= Z.max 1 (max_pages c).
Proof.
  intros Hinit Hrun.
  eapply (crawl_invariant (queue_inv c)); eauto.
  - intros seed. unfold queue_inv. cbn. lia.
  - intros s ev s'. apply queue_inv_step.
Qed.

(** How far a crawl can pass [max_pages]: at most [concurrency] tasks run
    at once, each passes the test on the number of results before it appends
    at most two, so the list of results never holds more than
    [max_pages + 2 * concurrency - 1] entries, under any schedule; nor does
    the list [crawl] returns. *)
Theorem crawl_results_bounded (start_url : string) (now : Z) (disk : gmap string string)
    (start_host : string) (st0 st : State) (sched : list event) :
  crawl_init c start_url now disk = Ret (start_host, st0) ->
  run c E render_js save_assets rewrite_assets start_host st0 sched = Some st ->
  Z.of_nat (length (List.filter is_running (tasks st))) <= concurrency c /\
  Z.of_nat (length (results st)) <= Z.max 0 (max_pages c + 2 * concurrency c - 1) /\
  (forall rs,
     crawl c E render_js save_assets rewrite_assets start_url now disk sched = Some rs ->
     Z.of_nat (length rs) <= Z.max 0 (max_pages c + 2 * concurrency c - 1)).
Proof.
  intros Hinit Hrun.
  pose proof (crawl_init_concurrency _ _ _ _ _ Hinit) as Hc.
  assert (Hinv : overshoot_inv c st).
  { eapply (crawl_invariant (overshoot_inv c)); eauto.
    - intros seed. unfold overshoot_inv. cbn. lia.
    - intros s ev s'. apply overshoot_inv_step. exact Hc. }
  destruct Hinv as [Hbusy Hload].
  assert (Hpos : 0 <= total load (tasks st)).
  { clear. induction (tasks st) as [|a l IH]; cbn; [lia|].
    fold (total load l). pose proof (load_le_busy (t_pc a)). lia. }
  split; [rewrite busy_running; exact Hbusy|].
  split; [lia|].
  intros rs Hrs.
  pose proof (crawl_returns _ _ _ _ _ _ _ rs Hinit Hrun Hrs) as ->.
  lia.
Qed.

(** A crawl takes nothing back: along any run the list of results and the
    list of fetches only grow at their end, and [_visited] only grows. *)
Theorem crawl_grows (start_host : string) (st st' : State) (sched : list event) :
  run c E render_js save_assets rewrite_assets start_host st sched = Some st' ->
  results st `prefix_of` results st' /\
  fetch_calls st `prefix_of` fetch_calls st' /\
  visited st ⊆ visited st'.
Proof. apply grows_run. Qed.

(** With [max_pages] at or below 0 nothing is dispatched: no job, no fetch,
    no result, and [crawl] returns the empty list. *)
Theorem crawl_max_pages_nonpositive (start_url : string) (now : Z)
    (disk : gmap string string) (start_host : string) (st0 st : State)
    (sched : list event) :
  max_pages c <= 0 ->
  crawl_init c start_url now disk = Ret (start_host, st0) ->
  run c E render_js save_assets rewrite_assets start_host st0 sched = Some st ->
  tasks st = [] /\ results st = [] /\ fetch_calls st = [] /\
  (forall rs,
     crawl c E render_js save_assets rewrite_assets start_url now disk sched = Some rs ->
     rs = []).
Proof.
  intros Hmax Hinit Hrun.
  assert (Hinv : idle_inv st).
  { eapply (crawl_invariant idle_inv); eauto.
    - intros seed. repeat split.
    - intros s ev s'. apply idle_inv_step. exact Hmax. }
  destruct Hinv as (Ht & Hr & Hf). repeat split; try assumption.
  intros rs Hrs.
  pose proof (crawl_returns _ _ _ _ _ _ _ rs Hinit Hrun Hrs) as ->. exact Hr.
Qed.

(** With [max_depth] at or below 0 the seed is the only job: at most one
    job is submitted, it is the job of the normalised seed at depth 0, and
    every fetch and every result is the seed's. *)
Theorem crawl_max_depth_nonpositive (start_url : string) (now : Z)
    (disk : gmap string string) (start_host : string) (st0 st : State)
    (sched : list event) :
  max_depth c <= 0 ->
  crawl_init c start_url now disk = Ret (start_host, st0) ->
  run c E render_js save_assets rewrite_assets start_host st0 sched = Some st ->
  (length (tasks st) <= 1)%nat /\
  (forall j tk, tasks st !! j = Some tk ->
     t_url tk = normalize_start start_url /\ t_depth tk = 0) /\
  (forall u, In u (fetch_calls st) -> u = normalize_start start_url) /\
  (forall r, In r (results st) -> url r = normalize_start start_url).
Proof.
  intros Hmax Hinit Hrun.
  assert (Hinv : alone_inv (normalize_start start_url) st).
  { destruct (crawl_init_inv _ _ _ _ _ Hinit) as [_ ->].
    eapply run_invariant; [ | | exact Hrun ].
    - intros s ev s'. apply alone_inv_step. exact Hmax.
    - split; [left; split; reflexivity|]. split; intros ? []. }
  destruct Hinv as (Hjob & Hres & Hfetch).
  split; [|split; [|split; assumption]].
  - destruct Hjob as [[-> _]|(tk & -> & _)]; cbn; lia.
  - intros j tk Hl. destruct Hjob as [[Ht _]|(tk0 & Ht & _ & Hu & Hd & _)].
    + rewrite Ht in Hl. discriminate.
    + rewrite Ht in Hl. destruct j; cbn in Hl; [|discriminate].
      inversion Hl; subst. auto.
Qed.

End CrawlRuns.

(** ** The downloader: concrete calls *)

Section DownloaderRuns.
Import Downloader Sites TraceSpec StreamSpec RewriteSpec RetrySpec.

Lemma fetch_without_robots_witness :
  exists ext,
    trace (snd (fetch one_image heedless "https://example.com/" false true true "" fresh))
    = (trace fresh ++ ext)%list /\ Forall no_robots ext.
Proof.
  exact (fetch_without_robots one_image heedless eq_refl
           "https://example.com/" false true true "" fresh).
Defined.

Lemma fetch_denied_by_robots_witness :
  fst (fetch robots_unreachable polite "https://example.com/page" false true true "" fresh)
    = Raise (PermissionError "Fetching disallowed by robots.txt") /\
  fs (snd (fetch robots_unreachable polite "https://example.com/page" false true true ""
             fresh)) = fs fresh.
Proof.
  destruct (fetch_denied_by_robots robots_unreachable polite "https://example.com/page"
              false true true "" fresh) as (Hraise & Hfs & _).
  - vm_compute. reflexivity.
  - split; assumption.
Defined.

Lemma fetch_saves_page_witness :
  page_filename polite "https://example.com/" ""
    = Ret (PathLib.mkPath "" ["out"; "example.com_index.html"]) /\
  exists content w1,
    fetch_static one_image "https://example.com/"
      (snd (allowed_by_robots one_image polite "https://example.com/" fresh))
      = (Ret content, w1) /\
    fs (snd (fetch one_image polite "https://example.com/" false false true "" fresh))
    = <["out/example.com_index.html" := content]> (fs fresh) /\
    trace (snd (fetch one_image polite "https://example.com/" false false true "" fresh))
    = (trace w1 ++ [IoWrite "out/example.com_index.html" content])%list.
Proof.
  apply (fetch_saves_page one_image polite "https://example.com/" false true "" fresh
           (PathLib.mkPath "" ["out"; "example.com_index.html"])).
  vm_compute. reflexivity.
Defined.

Lemma parse_assets_dedup_witness :
  _parse_assets repeated_image "<html></html>" "https://example.com/d/"
    = Ret ["https://example.com/a.png"; "https://example.com/d/s.js";
           "https://example.com/d/a.png"; "https://example.com/d/c.css"] /\
  _parse_assets repeated_image "<html></html>" "https://example.com/"
    = Ret ["https://example.com/a.png"; "https://example.com/s.js";
           "https://example.com/c.css"] /\
  exists resolved,
    map_outcome (Url.urljoin "https://example.com/")
      (asset_refs (parse_html repeated_image "<html></html>")) = Ret resolved /\
    ["https://example.com/a.png"; "https://example.com/s.js"; "https://example.com/c.css"]
      = ListSpec.first_occurrences resolved /\
    NoDup ["https://example.com/a.png"; "https://example.com/s.js";
           "https://example.com/c.css"] /\
    (forall u, In u ["https://example.com/a.png"; "https://example.com/s.js";
                     "https://example.com/c.css"] <-> In u resolved) /\
    ["https://example.com/a.png"; "https://example.com/s.js"; "https://example.com/c.css"]
      `sublist_of` resolved.
Proof.
  split; [vm_compute; reflexivity|]. split; [vm_compute; reflexivity|].
  apply (parse_assets_dedup repeated_image "<html></html>" "https://example.com/").
  vm_compute. reflexivity.
Defined.

Lemma download_asset_saves_witness :
  exists parsed k text chunks,
    (k <= 2)%nat /\
    checked (http_get one_image
               (trace (snd (allowed_by_robots one_image polite
                              "https://example.com/a.png" fresh))
                  ++ stream_prefix "https://example.com/a.png" (session_ua fresh) 1 k)%list
               "https://example.com/a.png")
      = Ret (text, chunks) /\
    Url.urlparse "https://example.com/a.png" = Ret parsed /\
    PathLib.mkPath "" ["out"; "assets"; "example.com"; "a.png"] = asset_target polite parsed /\
    fs (snd (_download_asset one_image polite "https://example.com/a.png" fresh))
    = <["out/assets/example.com/a.png" := streamed chunks]> (fs fresh) /\
    trace (snd (_download_asset one_image polite "https://example.com/a.png" fresh))
    = (trace (snd (allowed_by_robots one_image polite "https://example.com/a.png" fresh))
         ++ stream_prefix "https://example.com/a.png" (session_ua fresh) 1 k
         ++ [IoGet "https://example.com/a.png" (session_ua fresh);
             IoWrite "out/assets/example.com/a.png" (streamed chunks)])%list.
Proof.
  apply (download_asset_saves one_image polite "https://example.com/a.png" fresh
           (PathLib.mkPath "" ["out"; "assets"; "example.com"; "a.png"])).
  vm_compute. reflexivity.
Defined.

Lemma download_asset_denied_witness :
  fst (_download_asset robots_unreachable polite "https://example.com/a.png" fresh) = Ret None /\
  gets (trace (snd (_download_asset robots_unreachable polite "https://example.com/a.png"
                      fresh))) = gets (trace fresh).
Proof.
  destruct (download_asset_denied robots_unreachable polite "https://example.com/a.png" fresh)
    as (Hrun & _ & Hgets).
  - vm_compute. reflexivity.
  - split; [rewrite Hrun; reflexivity|exact Hgets].
Defined.

Lemma page_filename_derived_witness :
  page_filename polite "https://example.com:8080/a/b/" ""
    = Ret (PathLib.mkPath "" ["out"; "example.com_8080_a"; "b.html"]) /\
  derived_name (Url.mkParse "https" "example.com:8080" "/a/b/" "" "" "")
    = "example.com_8080_a/b.html".
Proof.
  destruct (page_filename_derived polite "https://example.com:8080/a/b/"
              (Url.mkParse "https" "example.com:8080" "/a/b/" "" "" "") eq_refl)
    as (Hfile & Hname & _).
  split; [rewrite Hfile|rewrite Hname]; reflexivity.
Defined.

Lemma page_filename_custom_witness :
  exists q,
    PathLib.with_suffix (PathLib.div (output_dir polite) "page") ".html" = Ret q /\
    PathLib.name q = "page.html" /\
    PathLib.mkPath "" ["out"; "page.html"] = PathLib.of_str (PathLib.to_str q).
Proof.
  exact (proj2 (page_filename_custom polite "https://example.com/" "page"
                  (PathLib.mkPath "" ["out"; "page.html"]) eq_refl eq_refl) eq_refl).
Defined.

Lemma rewrite_changes_references_only_witness :
  exists soup',
    "<html><img src=assets/example.com/a.png></html>" = render_html one_image soup' /\
    Forall2 retargeted (parse_html one_image image_page) soup'.
Proof.
  apply (rewrite_changes_references_only one_image polite image_page
           "https://example.com/" ["https://example.com/a.png"] fresh).
  vm_compute. reflexivity.
Defined.

Lemma fetch_static_retries_witness :
  fst (allowed_by_robots always_500 heedless "https://example.com/" fresh) = Ret true /\
  fst (fetch always_500 heedless "https://example.com/" false false true EmptyString fresh)
    = Raise (RequestException
               "500 Server Error: Internal Server Error for url: https://example.com/") /\
  length (gets (trace (snd (fetch always_500 heedless "https://example.com/"
                              false false true EmptyString fresh)))) = 8%nat /\
  sleeps (trace (snd (fetch always_500 heedless "https://example.com/"
                        false false true EmptyString fresh)))
    = [Seconds 1; Seconds 2; Seconds 4; Seconds 8; Seconds 16; Seconds 16; Seconds 16] /\
  fs (snd (fetch always_500 heedless "https://example.com/"
             false false true EmptyString fresh)) = ∅.
Proof.
  assert (Hall : forall tr, exists m,
    checked (http_get always_500 tr "https://example.com/") = Raise (RequestException m)).
  { intros tr. eexists. reflexivity. }
  split; [reflexivity|].
  destruct (fetch_static_retries always_500 heedless "https://example.com/"
              false true EmptyString fresh eq_refl)
    as (n & _ & Hgets & Hsleeps & _ & (rest & Htr & Hend) & Hfail).
  destruct (Hfail Hall) as [-> _].
  cbn [allowed_by_robots heedless new respect_robots negb io_ret snd fresh trace app] in Htr, Hend.
  change (checked (http_get always_500 (retry_prefix "https://example.com/" 0 7)
                     "https://example.com/"))
    with (@Raise (string * list string) (RequestException
            "500 Server Error: Internal Server Error for url: https://example.com/")) in Hend.
  destruct Hend as (-> & Hres & Hfs & _).
  split; [exact Hres|].
  rewrite Htr. split; [exact Hgets|]. split; [rewrite Hsleeps; reflexivity|].
  exact Hfs.
Defined.

End DownloaderRuns.

(** ** The crawl: concrete runs *)

Import Crawler CrawlSpec Runs.

Lemma crawl_same_domain_witness :
  exists st,
    run (crawler 10 true 500) two_hosts false false true "a.example"
        (start "https://a.example/") other_host_dropped = Some st /\
    (forall r, In r (results st) -> host_of (url r) = Ret "a.example") /\
    (forall u, In u (fetch_calls st) -> host_of u = Ret "a.example").
Proof.
  destruct (run (crawler 10 true 500) two_hosts false false true "a.example"
              (start "https://a.example/") other_host_dropped) as [st|] eqn:Hrun;
    [|vm_compute in Hrun; discriminate].
  exists st. split; [reflexivity|].
  destruct (crawl_same_domain (crawler 10 true 500) two_hosts false false true
              "  a.example/ " t0 ∅ "a.example" (start "https://a.example/") st
              other_host_dropped eq_refl eq_refl Hrun) as (_ & Hres & Hfetch & _).
  split; assumption.
Defined.

Lemma crawl_seed_normalized_witness :
  exists st,
    run (crawler 10 true 500) two_hosts false false true "a.example"
        (start "https://a.example/") other_host_dropped = Some st /\
    normalize_start "  a.example/ " = "https://a.example/" /\
    (forall tk, tasks st !! 0%nat = Some tk -> t_url tk = "https://a.example/" /\ t_depth tk = 0) /\
    (forall r, head (results st) = Some r -> url r = "https://a.example/").
Proof.
  destruct (run (crawler 10 true 500) two_hosts false false true "a.example"
              (start "https://a.example/") other_host_dropped) as [st|] eqn:Hrun;
    [|vm_compute in Hrun; discriminate].
  exists st. split; [reflexivity|]. split; [reflexivity|].
  destruct (crawl_seed_normalized (crawler 10 true 500) two_hosts false false true
              "  a.example/ " t0 ∅ "a.example" (start "https://a.example/") st
              other_host_dropped eq_refl Hrun) as (_ & _ & _ & _ & _ & Hjob & Hres).
  split; assumption.
Defined.

(** C9, at a run where the code leaves the claim: a crawl of [two_hosts]
    with [per_host_delay = 0.5] and no domain restriction.  Four requests go
    to [a.example]: its robots.txt at [t0], its robots.txt again and the
    front page 20 ms later, and its robots.txt a third time 30 ms after
    that, for the job of [a.example/x]: the robots check of a job comes
    before its call of [_wait_for_host], and the requests of one [fetch]
    follow each other, so none of the gaps reaches the delay.  At the end of
    the run the job for [a.example/x] sleeps in [_wait_for_host] with the
    lock of the crawler held, and the job for [b.example/y], a host no
    request was recorded for, cannot enter its own call: it is still kept
    out 400 ms later. *)
Theorem wait_for_host_requests_unspaced :
  let c := crawler 10 false 500 in
  let seed := start "https://a.example/" in
  per_host_delay c = 0.5%float /\
  requests_to "a.example"
    (timeline c two_hosts false false true "a.example" seed second_host_waits)
  = [(t0, Downloader.IoRobots "https://a.example/robots.txt");
     (t0 + 20 * millisecond, Downloader.IoRobots "https://a.example/robots.txt");
     (t0 + 20 * millisecond, Downloader.IoGet "https://a.example/" (RetrySpec.ua_of 0));
     (t0 + 50 * millisecond, Downloader.IoRobots "https://a.example/robots.txt")] /\
  exists st st',
    run c two_hosts false false true "a.example" seed second_host_waits = Some st /\
    clock st = t0 + 50 * millisecond /\
    host_last st !! "a.example" = Some (Time.as_seconds (t0 + 20 * millisecond)) /\
    host_last st !! "b.example" = None /\
    tasks st !! 1%nat = Some (mkTask "https://a.example/x" 1 (WSleeping 520000029)) /\
    tasks st !! 2%nat = Some (mkTask "https://b.example/y" 1 WWait) /\
    lock st = Some 1%nat /\
    step c two_hosts false false true "a.example" st (Work 2) = None /\
    step c two_hosts false false true "a.example" st (Tick (400 * millisecond)) = Some st' /\
    step c two_hosts false false true "a.example" st' (Work 2) = None.
Proof.
  cbv zeta. split; [vm_compute; reflexivity|]. split; [vm_compute; reflexivity|].
  eexists. eexists. split; [vm_compute; reflexivity|].
  repeat split; vm_compute; reflexivity.
Qed.

(** C3, at a schedule where the code leaves the claim: with
    [max_pages = 2] and two workers, both jobs for the links of the front
    page pass the test on the number of results while there is one result,
    and [crawl] returns three results.  Without any race, a page with a link
    that [urljoin] refuses leaves two results under [max_pages = 1]. *)
Theorem crawl_exceeds_max_pages :
  max_pages (crawler 2 true 500) = 2 /\
  crawl (crawler 2 true 500) two_links false false true "https://example.com/" t0 ∅ overshoot
  = Some [mkResult "https://example.com/" (Some "out/example.com_index.html") None;
          mkResult "https://example.com/a" (Some "out/example.com_a.html") None;
          mkResult "https://example.com/b" (Some "out/example.com_b.html") None] /\
  max_pages (crawler 1 true 500) = 1 /\
  crawl (crawler 1 true 500) bad_link false false true "https://example.com/" t0 ∅ seed_only
  = Some [mkResult "https://example.com/" (Some "out/example.com_index.html") None;
          mkResult "https://example.com/" None (Some "Invalid IPv6 URL")].
Proof. repeat split; vm_compute; reflexivity. Qed.

(** C4, at runs where the code leaves the claim.  The front page links to
    [/a] twice; both jobs for [/a] test [url in self._visited] before either
    adds it, both fetch it, and [crawl] returns two results for [/a].  And
    with one job alone: a link that [urljoin] refuses raises after the result
    of the page was appended, and the handler appends an error result for
    the same URL. *)
Theorem crawl_repeats_url :
  crawl (crawler 3 true 500) same_link_twice false false true "https://example.com/" t0 ∅
        double_visit
  = Some [mkResult "https://example.com/" (Some "out/example.com_index.html") None;
          mkResult "https://example.com/a" (Some "out/example.com_a.html") None;
          mkResult "https://example.com/a" (Some "out/example.com_a.html") None] /\
  crawl (crawler 3 true 500) bad_link false false true "https://example.com/" t0 ∅ seed_only
  = Some [mkResult "https://example.com/" (Some "out/example.com_index.html") None;
          mkResult "https://example.com/" None (Some "Invalid IPv6 URL")].
Proof. split; vm_compute; reflexivity. Qed.

Lemma crawl_depth_bounded_witness :
  exists st,
    run (crawler 10 true 500) two_hosts false false true "a.example"
        (start "https://a.example/") other_host_dropped = Some st /\
    (forall j tk, tasks st !! j = Some tk -> 0 <= t_depth tk <= 1).
Proof.
  destruct (run (crawler 10 true 500) two_hosts false false true "a.example"
              (start "https://a.example/") other_host_dropped) as [st|] eqn:Hrun;
    [|vm_compute in Hrun; discriminate].
  exists st. split; [reflexivity|].
  exact (proj1 (crawl_depth_bounded (crawler 10 true 500) two_hosts false false true
           "https://a.example/" t0 ∅ "a.example" (start "https://a.example/") st
           other_host_dropped eq_refl Hrun)).
Defined.

Lemma crawl_results_well_formed_witness :
  exists st,
    run (crawler 10 true 500) two_hosts false false true "a.example"
        (start "https://a.example/") other_host_dropped = Some st /\
    (forall r, In r (results st) ->
       well_formed r /\ (is_Some (saved_path r) -> In (url r) (fetch_calls st))).
Proof.
  destruct (run (crawler 10 true 500) two_hosts false false true "a.example"
              (start "https://a.example/") other_host_dropped) as [st|] eqn:Hrun;
    [|vm_compute in Hrun; discriminate].
  exists st. split; [reflexivity|].
  exact (crawl_results_well_formed (crawler 10 true 500) two_hosts false false true
           "https://a.example/" t0 ∅ "a.example" (start "https://a.example/") st
           other_host_dropped eq_refl Hrun).
Defined.

Lemma crawl_results_visited_witness :
  exists st,
    run (crawler 10 true 500) two_hosts false false true "a.example"
        (start "https://a.example/") other_host_dropped = Some st /\
    (forall r, In r (results st) -> url r ∈ visited st).
Proof.
  destruct (run (crawler 10 true 500) two_hosts false false true "a.example"
              (start "https://a.example/") other_host_dropped) as [st|] eqn:Hrun;
    [|vm_compute in Hrun; discriminate].
  exists st. split; [reflexivity|].
  exact (proj1 (crawl_results_visited (crawler 10 true 500) two_hosts false false true
           "https://a.example/" t0 ∅ "a.example" (start "https://a.example/") st
           other_host_dropped eq_refl Hrun)).
Defined.

Lemma crawl_queue_bounded_witness :
  exists st,
    run (crawler 10 true 500) two_hosts false false true "a.example"
        (start "https://a.example/") other_host_dropped = Some st /\
    Z.of_nat (length (queue st)) <= 10.
Proof.
  destruct (run (crawler 10 true 500) two_hosts false false true "a.example"
              (start "https://a.example/") other_host_dropped) as [st|] eqn:Hrun;
    [|vm_compute in Hrun; discriminate].
  exists st. split; [reflexivity|].
  exact (crawl_queue_bounded (crawler 10 true 500) two_hosts false false true
           "https://a.example/" t0 ∅ "a.example" (start "https://a.example/") st
           other_host_dropped eq_refl Hrun).
Defined.

Lemma crawl_results_bounded_witness :
  exists st,
    run (crawler 2 true 500) two_links false false true "example.com"
        (start "https://example.com/") overshoot = Some st /\
    Z.of_nat (length (results st)) <= 5.
Proof.
  destruct (run (crawler 2 true 500) two_links false false true "example.com"
              (start "https://example.com/") overshoot) as [st|] eqn:Hrun;
    [|vm_compute in Hrun; discriminate].
  exists st. split; [reflexivity|].
  exact (proj1 (proj2 (crawl_results_bounded (crawler 2 true 500) two_links false false true
           "https://example.com/" t0 ∅ "example.com" (start "https://example.com/") st
           overshoot eq_refl Hrun))).
Defined.

Lemma crawl_grows_witness :
  exists st st',
    run (crawler 10 true 500) two_hosts false false true "a.example"
        (start "https://a.example/") ([Main] ++ work 0 9) = Some st /\
    run (crawler 10 true 500) two_hosts false false true "a.example"
        st (work 0 5 ++ [Main; Main; Main] ++ work 1 1 ++ work 2 5) = Some st' /\
    results st = [mkResult "https://a.example/" (Some "out/a.example_index.html") None] /\
    results st `prefix_of` results st' /\
    visited st ⊆ visited st'.
Proof.
  destruct (run (crawler 10 true 500) two_hosts false false true "a.example"
              (start "https://a.example/") ([Main] ++ work 0 9)) as [st|] eqn:Hrun;
    [|vm_compute in Hrun; discriminate].
  destruct (run (crawler 10 true 500) two_hosts false false true "a.example"
              st (work 0 5 ++ [Main; Main; Main] ++ work 1 1 ++ work 2 5))
    as [st'|] eqn:Hrun'; [|vm_compute in Hrun; injection Hrun as <-;
                           vm_compute in Hrun'; discriminate].
  exists st, st'. split; [reflexivity|]. split; [exact Hrun'|].
  split; [vm_compute in Hrun; injection Hrun as <-; reflexivity|].
  destruct (crawl_grows (crawler 10 true 500) two_hosts false false true
              "a.example" st st' _ Hrun') as (Hres & _ & Hvis).
  split; assumption.
Defined.

Lemma discover_links_resolved_witness :
  _discover_links mixed_links mixed_page "https://example.com/d/"
    = Ret ["https://example.com/a"; "https://example.com/d/b/c"] /\
  Forall2 (fun a link => exists href, tag_href a = Some href /\
                                      Url.urljoin "https://example.com/d/" href = Ret link)
    [anchor "/a"; anchor "b/c"]
    ["https://example.com/a"; "https://example.com/d/b/c"].
Proof.
  split; [vm_compute; reflexivity|].
  apply (proj1 (discover_links_resolved mixed_links mixed_page "https://example.com/d/")
           ["https://example.com/a"; "https://example.com/d/b/c"]).
  vm_compute. reflexivity.
Defined.

Lemma crawl_max_pages_nonpositive_witness :
  exists st,
    run (crawler 0 true 500) two_hosts false false true "a.example"
        (start "https://a.example/") [Main; Main] = Some st /\
    tasks st = [] /\ results st = [] /\ fetch_calls st = [].
Proof.
  destruct (run (crawler 0 true 500) two_hosts false false true "a.example"
              (start "https://a.example/") [Main; Main]) as [st|] eqn:Hrun;
    [|vm_compute in Hrun; discriminate].
  exists st. split; [reflexivity|].
  destruct (crawl_max_pages_nonpositive (crawler 0 true 500) two_hosts false false true
              "https://a.example/" t0 ∅ "a.example" (start "https://a.example/") st
              [Main; Main]) as (Ht & Hr & Hf & _); auto.
  vm_compute. discriminate.
Defined.

Lemma crawl_max_depth_nonpositive_witness :
  exists st,
    run shallow two_hosts false false true "a.example"
        (start "https://a.example/") seed_fetched = Some st /\
    (length (tasks st) <= 1)%nat /\
    (forall r, In r (results st) -> url r = "https://a.example/").
Proof.
  destruct (run shallow two_hosts false false true "a.example"
              (start "https://a.example/") seed_fetched) as [st|] eqn:Hrun;
    [|vm_compute in Hrun; discriminate].
  exists st. split; [reflexivity|].
  destruct (crawl_max_depth_nonpositive shallow two_hosts false false true
              "https://a.example/" t0 ∅ "a.example" (start "https://a.example/") st
              seed_fetched) as (Hlen & _ & _ & Hres); auto.
  vm_compute. discriminate.
Defined.
